(** * FRPLauncher: the proxy supervisor and the port state tracker

    A shallow embedding of [src/config_manager.py], [src/port_scanner.py]
    and [src/frpc_controller.py].  Python integers are [Z], Python strings
    are [string] (the UTF-8 bytes of their characters), a Python [dict]
    is an insertion-ordered
    association list with unique keys, and every call that leaves the
    interpreter (file system, [subprocess], [psutil], the clock) reads its
    outcome from an explicit environment record. *)

From Stdlib Require Import Strings.String Strings.Ascii.
From Stdlib Require Import Lists.List.
From Stdlib Require Import ZArith.ZArith.
From Stdlib Require Import Bool.Bool.
From Stdlib Require Import micromega.Lia.
From Stdlib Require Import Numbers.DecimalString Numbers.DecimalZ.
From Stdlib Require Import Sorting.Permutation.
Import ListNotations.

Local Open Scope string_scope.
Local Open Scope Z_scope.

(* ================================================================= *)
(** ** Python primitives *)

Module Py.

(** [str(n)] for an [int]. *)
Definition str_int (n : Z) : string :=
  NilZero.string_of_int (Z.to_int n).

(** [str(x)] for an [Optional[int]]: [None] prints as the word None. *)
Definition str_opt_int (x : option Z) : string :=
  match x with
  | Some n => str_int n
  | None => "None"
  end.

(** [s.startswith(p)]. *)
Definition startswith (s p : string) : bool := String.prefix p s.

(** [s.startswith((p1, ..., pn))]: true when some element is a prefix. *)
Definition startswith_any (s : string) (ps : list string) : bool :=
  existsb (startswith s) ps.

(** Truthiness of an [Optional[int]]: [None] and [0] are falsy. *)
Definition truthy_opt_int (x : option Z) : bool :=
  match x with
  | Some n => negb (n =? 0)
  | None => false
  end.

(** Truthiness of a [str]. *)
Definition truthy_str (s : string) : bool :=
  match s with
  | EmptyString => false
  | String _ _ => true
  end.

(** Truthiness of a [list]. *)
Definition truthy_list {A : Type} (l : list A) : bool :=
  match l with
  | [] => false
  | _ :: _ => true
  end.

(** The characters of [s].  A Python [str] is a sequence of code
    points, held here as the bytes of its UTF-8 encoding: a character
    is one byte, or a lead byte with the continuation bytes that follow
    it. *)
Definition continuation_bytes (c : ascii) : nat :=
  let n := nat_of_ascii c in
  if (n <? 192)%nat then 0%nat
  else if (n <? 224)%nat then 1%nat
  else if (n <? 240)%nat then 2%nat
  else 3%nat.

Fixpoint chars_from (s cur : string) (more : nat) : list string :=
  match s with
  | EmptyString =>
      match cur with
      | EmptyString => []
      | _ => [cur]
      end
  | String c r =>
      match more with
      | S m => chars_from r (cur ++ String c EmptyString) m
      | O =>
          match cur with
          | EmptyString =>
              chars_from r (String c EmptyString) (continuation_bytes c)
          | _ =>
              cur :: chars_from r (String c EmptyString) (continuation_bytes c)
          end
      end
  end.

Definition chars (s : string) : list string := chars_from s EmptyString 0.

(** [ord(ch)]: the code point a character encodes. *)
Fixpoint continue_code (acc : Z) (s : string) : Z :=
  match s with
  | EmptyString => acc
  | String c r =>
      continue_code (acc * 64 + Z.of_nat (nat_of_ascii c) mod 64) r
  end.

Definition ord (ch : string) : Z :=
  match ch with
  | EmptyString => 0
  | String c r =>
      let n := Z.of_nat (nat_of_ascii c) in
      let lead :=
        if n <? 128 then n
        else if n <? 224 then n mod 32
        else if n <? 240 then n mod 16
        else n mod 8 in
      continue_code lead r
  end.

(** [ch.isspace()]: the white space of [str.strip()] and [str.split()],
    which is the ASCII white space, U+0085, U+00A0, U+1680, U+2000 to
    U+200A, U+2028, U+2029, U+202F, U+205F and U+3000. *)
Definition is_space (ch : string) : bool :=
  let n := ord ch in
  ((9 <=? n) && (n <=? 13)) || ((28 <=? n) && (n <=? 32))
  || (n =? 133) || (n =? 160) || (n =? 5760)
  || ((8192 <=? n) && (n <=? 8202))
  || (n =? 8232) || (n =? 8233) || (n =? 8239) || (n =? 8287)
  || (n =? 12288).

(** The characters left when the leading white space is dropped. *)
Fixpoint drop_spaces (l : list string) : list string :=
  match l with
  | [] => []
  | ch :: r => if is_space ch then drop_spaces r else l
  end.

Definition strip_chars (l : list string) : list string :=
  rev (drop_spaces (rev (drop_spaces l))).

(** [s.strip()]. *)
Definition strip (s : string) : string :=
  String.concat EmptyString (strip_chars (chars s)).

(** [t] is [s] without the white space at its two ends: what is cut
    off is white space, and what is left neither begins nor ends with
    it. *)
Definition stripped (s t : string) : Prop :=
  exists lead mid trail,
    chars s = (lead ++ mid ++ trail)%list
    /\ t = String.concat EmptyString mid
    /\ Forall (fun ch => is_space ch = true) lead
    /\ Forall (fun ch => is_space ch = true) trail
    /\ (forall ch, hd_error mid = Some ch -> is_space ch = false)
    /\ (forall ch, hd_error (rev mid) = Some ch -> is_space ch = false).

(** The characters up to the first white space. *)
Fixpoint word (l : list string) : list string :=
  match l with
  | [] => []
  | ch :: r => if is_space ch then [] else ch :: word r
  end.

(** [s.split()[0]]: the first white-space delimited word; [None] stands
    for the [IndexError] raised when [s] holds white space only. *)
Definition split_first (s : string) : option string :=
  match drop_spaces (chars s) with
  | [] => None
  | w => Some (String.concat EmptyString (word w))
  end.

(** [s[:n]]: the first [n] characters. *)
Definition slice_to (n : nat) (s : string) : string :=
  String.concat EmptyString (firstn n (chars s)).

(** [sep.join(parts)]. *)
Fixpoint join (sep : string) (parts : list string) : string :=
  match parts with
  | [] => EmptyString
  | [p] => p
  | p :: rest => p ++ sep ++ join sep rest
  end.

(** The first [n] bytes of [s]: what a write that fails after [n]
    bytes leaves in a file. *)
Definition take (n : nat) (s : string) : string := String.substring 0 n s.

(** [posixpath.basename]: what follows the last slash. *)
Fixpoint posix_basename_from (s cur : string) : string :=
  match s with
  | EmptyString => cur
  | String c r =>
      if Ascii.eqb c "/"%char then posix_basename_from r EmptyString
      else posix_basename_from r (cur ++ String c EmptyString)
  end.

Definition posix_basename (s : string) : string :=
  posix_basename_from s EmptyString.

(** Every character of [s] satisfies [P]. *)
Fixpoint all_chars (P : ascii -> bool) (s : string) : bool :=
  match s with
  | EmptyString => true
  | String c r => P c && all_chars P r
  end.

(** The characters [str] of an [int] is made of: digits and the sign. *)
Definition is_num_char (c : ascii) : bool :=
  let n := nat_of_ascii c in
  (((48 <=? n) && (n <=? 57)) || (n =? 45))%nat.

Definition not_underscore (c : ascii) : bool :=
  negb (Ascii.eqb c "_"%char).

End Py.

(* ================================================================= *)
(** ** Python dictionaries

    Insertion ordered, keys unique: assignment to a present key replaces
    the value in place, assignment to a fresh key appends. *)

Module Dict.

Definition t (V : Type) : Type := list (string * V).

Definition empty {V : Type} : t V := [].

(** [d.get(k)]. *)
Fixpoint get {V : Type} (d : t V) (k : string) : option V :=
  match d with
  | [] => None
  | (k', v) :: r => if String.eqb k k' then Some v else get r k
  end.

(** [k in d]. *)
Definition mem {V : Type} (k : string) (d : t V) : bool :=
  match get d k with
  | Some _ => true
  | None => false
  end.

(** [d[k] = v]. *)
Fixpoint set {V : Type} (d : t V) (k : string) (v : V) : t V :=
  match d with
  | [] => [(k, v)]
  | (k', v') :: r =>
      if String.eqb k k' then (k', v) :: r else (k', v') :: set r k v
  end.

(** [del d[k]]; every call site deletes a key it has just seen in [d]. *)
Fixpoint del {V : Type} (d : t V) (k : string) : t V :=
  match d with
  | [] => []
  | (k', v') :: r => if String.eqb k k' then r else (k', v') :: del r k
  end.

(** [d.keys()] and [d.values()], in insertion order. *)
Definition keys {V : Type} (d : t V) : list string := map fst d.
Definition values {V : Type} (d : t V) : list V := map snd d.

(** The representation invariant of a Python dict. *)
Definition wf {V : Type} (d : t V) : Prop := NoDup (keys d).

End Dict.

(* ================================================================= *)
(** ** [config_manager.py]: application settings *)

Module ConfigManager.

Record AppConfig := mkAppConfig {
  scan_interval : Z;
  ui_refresh_interval : Z;
  show_system_ports : bool;
  auto_start_proxy : bool;
  minimize_to_tray : bool
}.

(** The dataclass defaults. *)
Definition default_app_config : AppConfig :=
  mkAppConfig 30 10 false true true.

(** [ConfigManager.set_scan_interval]. *)
Definition set_scan_interval (cfg : AppConfig) (interval : Z) : AppConfig :=
  let interval :=
    if interval <? 5 then 5
    else if interval >? 300 then 300
    else interval in
  mkAppConfig interval (ui_refresh_interval cfg) (show_system_ports cfg)
    (auto_start_proxy cfg) (minimize_to_tray cfg).

(** [ConfigManager.set_ui_refresh_interval]. *)
Definition set_ui_refresh_interval (cfg : AppConfig) (interval : Z) : AppConfig :=
  let interval :=
    if interval <? 2 then 2
    else if interval >? 60 then 60
    else interval in
  mkAppConfig (scan_interval cfg) interval (show_system_ports cfg)
    (auto_start_proxy cfg) (minimize_to_tray cfg).

(** [ConfigManager.get_scan_interval]. *)
Definition get_scan_interval (cfg : AppConfig) : Z := scan_interval cfg.

(** [ConfigManager.get_ui_refresh_interval]. *)
Definition get_ui_refresh_interval (cfg : AppConfig) : Z :=
  ui_refresh_interval cfg.

(** A value of a JSON object as [json.load] returns it and [json.dump]
    takes it; numbers that are not integers, lists and objects are
    carried as their source text. *)
Inductive Json :=
| JNull
| JBool (b : bool)
| JInt (n : Z)
| JStr (s : string)
| JOther (text : string).

(** [d.get(key, default)]. *)
Definition get_default {V : Type} (d : Dict.t V) (key : string) (default : V)
  : V :=
  match Dict.get d key with
  | Some v => v
  | None => default
  end.

(** [AppConfig.to_dict]. *)
Definition app_to_dict (cfg : AppConfig) : Dict.t Json :=
  [("scan_interval", JInt (scan_interval cfg));
   ("ui_refresh_interval", JInt (ui_refresh_interval cfg));
   ("show_system_ports", JBool (show_system_ports cfg));
   ("auto_start_proxy", JBool (auto_start_proxy cfg));
   ("minimize_to_tray", JBool (minimize_to_tray cfg))].

(** The [AppConfig] object [load] builds.  The dataclass does not check
    what it is given, so each field holds whatever the file held under
    its key. *)
Record LoadedAppConfig := mkLoadedAppConfig {
  loaded_scan_interval : Json;
  loaded_ui_refresh_interval : Json;
  loaded_show_system_ports : Json;
  loaded_auto_start_proxy : Json;
  loaded_minimize_to_tray : Json
}.

(** Lines 207-213 of [ConfigManager.load]: the [AppConfig] made from the
    object read from app_config.json. *)
Definition app_from_dict (app_data : Dict.t Json) : LoadedAppConfig :=
  mkLoadedAppConfig
    (get_default app_data "scan_interval" (JInt 30))
    (get_default app_data "ui_refresh_interval" (JInt 10))
    (get_default app_data "show_system_ports" (JBool false))
    (get_default app_data "auto_start_proxy" (JBool true))
    (get_default app_data "minimize_to_tray" (JBool true)).

(** An [AppConfig] whose fields have the annotated types, as an object
    of the interpreter. *)
Definition as_loaded (cfg : AppConfig) : LoadedAppConfig :=
  mkLoadedAppConfig
    (JInt (scan_interval cfg)) (JInt (ui_refresh_interval cfg))
    (JBool (show_system_ports cfg)) (JBool (auto_start_proxy cfg))
    (JBool (minimize_to_tray cfg)).

(** [AuthType] and the [value] of each member. *)
Inductive AuthType := TOKEN | OIDC | NONE.

Definition auth_value (a : AuthType) : string :=
  match a with
  | TOKEN => "token"
  | OIDC => "oidc"
  | NONE => "none"
  end.

Record ServerConfig := mkServerConfig {
  server_addr : string;
  server_port : Z;
  auth_type : AuthType;
  token : string;
  oidc_client_id : string;
  oidc_client_secret : string;
  oidc_issuer_url : string;
  oidc_token_endpoint : string;
  _encrypted_data : option string
}.

(** The dataclass defaults. *)
Definition default_server_config : ServerConfig :=
  mkServerConfig EmptyString 7000 NONE EmptyString EmptyString EmptyString
    EmptyString EmptyString None.

(** [ServerConfig.is_complete]. *)
Definition is_complete (cfg : ServerConfig) : bool :=
  if negb (Py.truthy_str (server_addr cfg)) || (server_port cfg =? 0) then false
  else
    match auth_type cfg with
    | TOKEN => Py.truthy_str (token cfg)
    | OIDC =>
        Py.truthy_str (oidc_client_id cfg)
        && Py.truthy_str (oidc_client_secret cfg)
        && Py.truthy_str (oidc_issuer_url cfg)
    | NONE => true
    end.

(** [ServerConfig.to_dict]. *)
Definition server_to_dict (cfg : ServerConfig) : Dict.t Json :=
  let data :=
    [("server_addr", JStr (server_addr cfg));
     ("server_port", JInt (server_port cfg));
     ("auth_type", JStr (auth_value (auth_type cfg)))] in
  match auth_type cfg with
  | TOKEN =>
      if Py.truthy_str (token cfg) then Dict.set data "token" (JStr "[ENCRYPTED]")
      else data
  | OIDC =>
      Dict.set (Dict.set data "oidc_client_id" (JStr (oidc_client_id cfg)))
        "oidc_issuer_url" (JStr (oidc_issuer_url cfg))
  | NONE => data
  end.

(** A configuration with other secrets: the token, the client secret,
    the token endpoint and the encrypted blob replaced. *)
Definition with_secrets (cfg : ServerConfig) (tok secret endpoint : string)
  (blob : option string) : ServerConfig :=
  mkServerConfig (server_addr cfg) (server_port cfg) (auth_type cfg) tok
    (oidc_client_id cfg) secret (oidc_issuer_url cfg) endpoint blob.

End ConfigManager.

(* ================================================================= *)
(** ** [port_scanner.py]: the port state tracker *)

Module PortScanner.

(** The [PortInfo] dataclass.  [pid] is [None] for a socket whose owner
    psutil does not report; [create_time] is a clock reading. *)
Record PortInfo := mkPortInfo {
  port : Z;
  protocol : string;
  pid : option Z;
  process_name : string;
  local_addr : string;
  status : string;
  create_time : Z
}.

(** [PortInfo.is_listening]. *)
Definition is_listening (p : PortInfo) : bool :=
  String.eqb (status p) "LISTEN".

(** What [psutil.net_connections] reports for one socket.  [laddr] is
    [None] for the empty tuple psutil gives an unbound socket. *)
Inductive SockType := SOCK_STREAM | SOCK_DGRAM.

Record Addr := mkAddr { ip : string; addr_port : Z }.

Record Conn := mkConn {
  conn_status : string;
  conn_laddr : option Addr;
  conn_type : SockType;
  conn_pid : option Z
}.

(** Outcome of a psutil call. *)
Inductive PsError := NoSuchProcess | AccessDenied | OtherPsError.

Inductive Res (A : Type) :=
| Ret (a : A)
| Raise (e : PsError).
Arguments Ret {A} a.
Arguments Raise {A} e.

(** What [psutil.Process(pid)] offers once it is open: [name()] and
    [cmdline()]; [None] for a [cmdline()] that raises. *)
Record ProcView := mkProcView {
  proc_name : Res string;
  proc_cmdline : option (list string)
}.

(** The host as one scan sees it. *)
Record Env := mkEnv {
  net_connections : option (list Conn);   (* [None]: the call raises *)
  process : Z -> Res ProcView;            (* [psutil.Process(pid)] *)
  basename : string -> string;            (* [os.path.basename] *)
  now : nat -> Z                          (* the clock at the n-th socket *)
}.

Record Scanner := mkScanner {
  update_interval : Z;
  ports : Dict.t PortInfo;
  running : bool
}.

(** [PortScanner.__init__]. *)
Definition init (update_interval : Z) : Scanner :=
  mkScanner update_interval Dict.empty false.

(** The name of the sentinel owner, "system process". *)
Definition system_process : string := "系统进程".

(** The [try] block around the command line: any exception inside it
    is swallowed and leaves [name] as it was. *)
Definition refine_name (env : Env) (pv : ProcView) (name : string) : string :=
  match proc_cmdline pv with
  | None => name
  | Some args =>
      let cmdline := Py.join " " args in
      if Py.truthy_str cmdline then
        match Py.split_first cmdline with
        | None => name
        | Some w =>
            let exe_name := basename env w in
            if Py.truthy_str exe_name then exe_name else name
        end
      else name
  end.

(** Lines 102-122: the owner's display name.  [NoSuchProcess] and
    [AccessDenied] give the sentinel; any other exception leaves the
    loop. *)
Definition resolve_name (env : Env) (pid : option Z) : Res string :=
  match pid with
  | None => Ret ""
  | Some n =>
      if Py.truthy_opt_int pid then
        match process env n with
        | Raise OtherPsError => Raise OtherPsError
        | Raise _ => Ret system_process
        | Ret pv =>
            match proc_name pv with
            | Raise OtherPsError => Raise OtherPsError
            | Raise _ => Ret system_process
            | Ret name => Ret (refine_name env pv name)
            end
        end
      else Ret ""
  end.

(** Line 125: the key under which an observation is stored. *)
Definition make_key (port : Z) (protocol : string) (pid : option Z) : string :=
  Py.str_int port ++ "_" ++ protocol ++ "_" ++ Py.str_opt_int pid.

Definition key_of (p : PortInfo) : string :=
  make_key (port p) (protocol p) (pid p).

(** The identity of an observation. *)
Definition ident (p : PortInfo) : Z * string * option Z :=
  (port p, protocol p, pid p).

(** Lines 94-138: the loop over the connections; [i] counts them.  An
    exception leaves the loop with what [new_ports] holds so far. *)
Fixpoint collect (env : Env) (i : nat) (conns : list Conn)
  (new_ports : Dict.t PortInfo) : Dict.t PortInfo :=
  match conns with
  | [] => new_ports
  | conn :: rest =>
      match conn_laddr conn with
      | Some laddr =>
          if String.eqb (conn_status conn) "LISTEN" then
            let port := addr_port laddr in
            let protocol :=
              match conn_type conn with
              | SOCK_STREAM => "tcp"
              | SOCK_DGRAM => "udp"
              end in
            let pid := conn_pid conn in
            match resolve_name env pid with
            | Raise _ => new_ports
            | Ret process_name =>
                let key := make_key port protocol pid in
                let port_info :=
                  mkPortInfo port protocol pid process_name (ip laddr)
                    (conn_status conn) (now env i) in
                collect env (S i) rest (Dict.set new_ports key port_info)
            end
          else collect env (S i) rest new_ports
      | None => collect env (S i) rest new_ports
      end
  end.

(** Lines 88-148: the snapshot one scan takes. *)
Definition take_snapshot (env : Env) : Dict.t PortInfo :=
  match net_connections env with
  | None => Dict.empty
  | Some conns => collect env 0 conns Dict.empty
  end.

(** [[d[k] for k in ks if keep k]]. *)
Definition select {V : Type} (d : Dict.t V) (keep : string -> bool)
  (ks : list string) : list V :=
  flat_map
    (fun k =>
       if keep k then
         match Dict.get d k with
         | Some v => [v]
         | None => []
         end
       else [])
    ks.

(** Lines 161-163. *)
Definition diff_added (old_ports new_ports : Dict.t PortInfo) : list PortInfo :=
  select new_ports (fun key => negb (Dict.mem key old_ports)) (Dict.keys new_ports).

(** Lines 166-168. *)
Definition diff_removed (old_ports new_ports : Dict.t PortInfo) : list PortInfo :=
  select old_ports (fun key => negb (Dict.mem key new_ports)) (Dict.keys old_ports).

(** Lines 171-176. *)
Definition diff_changed (old_ports new_ports : Dict.t PortInfo) : list PortInfo :=
  select new_ports
    (fun key =>
       match Dict.get old_ports key, Dict.get new_ports key with
       | Some o, Some n => negb (String.eqb (status o) (status n))
       | _, _ => false
       end)
    (Dict.keys new_ports).

(** The three sequences of one diff. *)
Record Diff := mkDiff {
  added : list PortInfo;
  removed : list PortInfo;
  changed : list PortInfo
}.

Definition diff (old_ports new_ports : Dict.t PortInfo) : Diff :=
  mkDiff (diff_added old_ports new_ports)
         (diff_removed old_ports new_ports)
         (diff_changed old_ports new_ports).

(** Lines 179-180: the [ports_updated] signal is emitted when one of
    the three lists is truthy. *)
Definition emissions (d : Diff) : list Diff :=
  if Py.truthy_list (added d) || Py.truthy_list (removed d)
     || Py.truthy_list (changed d)
  then [d] else [].

(** [PortScanner.scan_ports]: the scanner afterwards and the signals
    emitted. *)
Definition scan_ports (env : Env) (s : Scanner) : Scanner * list Diff :=
  let new_ports := take_snapshot env in
  let old_ports := ports s in
  (mkScanner (update_interval s) new_ports (running s),
   emissions (diff old_ports new_ports)).

(** A snapshot: a dictionary that stores every observation under the
    key made from it. *)
Definition snapshot_wf (d : Dict.t PortInfo) : Prop :=
  Dict.wf d /\ forall k o, In (k, o) d -> k = key_of o.

(** Every observation of [d] has the status LISTEN. *)
Definition all_listen (d : Dict.t PortInfo) : Prop :=
  forall o, In o (Dict.values d) -> status o = "LISTEN".

(** The snapshot that holds the observations [l], in that order. *)
Definition snapshot_of (l : list PortInfo) : Dict.t PortInfo :=
  fold_left (fun d o => Dict.set d (key_of o) o) l Dict.empty.

(** An observation of a TCP socket: [port], [pid] and [status] as
    given, the remaining fields those of [like]. *)
Definition tcp_obs (port pid : Z) (status : string) (like : PortInfo)
  : PortInfo :=
  mkPortInfo port "tcp" (Some pid) (process_name like) (local_addr like)
    status (create_time like).

(** The protocol the loop records for a socket type (line 98). *)
Definition protocol_of (t : SockType) : string :=
  match t with
  | SOCK_STREAM => "tcp"
  | SOCK_DGRAM => "udp"
  end.

(** The key under which the loop stores a connection; [None] for a
    connection it passes over (line 96). *)
Definition recorded_key (conn : Conn) : option string :=
  match conn_laddr conn with
  | Some laddr =>
      if String.eqb (conn_status conn) "LISTEN" then
        Some (make_key (addr_port laddr) (protocol_of (conn_type conn))
                (conn_pid conn))
      else None
  | None => None
  end.

(** A host on which psutil raises nothing but [NoSuchProcess] and
    [AccessDenied]. *)
Definition benign (env : Env) : Prop :=
  forall n,
    match process env n with
    | Raise e => e <> OtherPsError
    | Ret pv => proc_name pv <> Raise OtherPsError
    end.

(** [PortInfo.display_name]. *)
Definition display_name (p : PortInfo) : string :=
  if Py.truthy_str (process_name p) then
    process_name p ++ " (" ++ Py.str_int (port p) ++ ")"
  else "端口 " ++ Py.str_int (port p).

(** [PortScanner.get_listening_ports]. *)
Definition get_listening_ports (s : Scanner) : list PortInfo :=
  filter is_listening (Dict.values (ports s)).

(** [PortScanner.get_port_by_number]. *)
Definition get_port_by_number (s : Scanner) (n : Z) : list PortInfo :=
  filter (fun p => (port p =? n) && is_listening p) (Dict.values (ports s)).

(** [PortScanner.is_port_listening]. *)
Definition is_port_listening (s : Scanner) (n : Z) : bool :=
  (0 <? length (get_port_by_number s n))%nat.

End PortScanner.

(* ================================================================= *)
(** ** [frpc_controller.py]: the proxy supervisor *)

Module Frpc.

Inductive ProxyStatus := STOPPED | STARTING | RUNNING | STOPPING | ERROR.

Definition status_eqb (a b : ProxyStatus) : bool :=
  match a, b with
  | STOPPED, STOPPED | STARTING, STARTING | RUNNING, RUNNING
  | STOPPING, STOPPING | ERROR, ERROR => true
  | _, _ => false
  end.

(** The [ProxyConfig] dataclass; its [process] field is never assigned
    and is left out. *)
Record ProxyConfig := mkProxy {
  name : string;
  local_port : Z;
  remote_port : Z;
  protocol : string;
  local_ip : string;
  status : ProxyStatus;
  created_at : Z
}.

Definition with_status (p : ProxyConfig) (s : ProxyStatus) : ProxyConfig :=
  mkProxy (name p) (local_port p) (remote_port p) (protocol p) (local_ip p)
    s (created_at p).

(** [ProxyConfig.is_active]. *)
Definition is_active (p : ProxyConfig) : bool := status_eqb (status p) RUNNING.

(** *** The config document

    A tomlkit document is an ordered mapping of top-level keys.  A value
    the controller writes is a table of scalars; anything else found in
    the file is carried as its source text.

    The document object holds more than its entries: the layout of the
    text it was parsed from, and what each deletion and assignment did
    to that layout.  What [tomlkit.dump] writes depends on all of it, so
    the object handed to the dump is given by the text it was made from
    and the edits made on it since, and its entries are computed from
    those. *)

Inductive Scalar :=
| SStr (s : string)
| SInt (n : Z)
| SBool (b : bool).

Inductive Item :=
| Table (fields : list (string * Scalar))
| Other (text : string).

Definition Document : Type := Dict.t Item.

(** An edit of a document object. *)
Inductive Edit :=
| Delete (key : string)                 (* [del config_data[key]] *)
| Assign (key : string) (value : Item)  (* [config_data[key] = value] *).

Definition apply_edit (d : Document) (e : Edit) : Document :=
  match e with
  | Delete key => Dict.del d key
  | Assign key value => Dict.set d key value
  end.

(** The entries of a document after [edits], made in order. *)
Definition apply_edits (edits : list Edit) (d : Document) : Document :=
  fold_left apply_edit edits d.

(** A call that returns or raises; [Err] carries [str(e)]. *)
Inductive Result (A : Type) :=
| Ok (a : A)
| Err (text : string).
Arguments Ok {A} a.
Arguments Err {A} text.

(** How one reconciliation meets the file system. *)
Inductive IOFault :=
| NoFault
| MkdirFails                 (* [mkdir] raises *)
| ReadFails                  (* opening the file for reading raises *)
| OpenWriteFails             (* opening the file for writing raises *)
| WriteFails (written : nat) (* the dump raises with [written] bytes on disk *).

(** Outcome of [subprocess.run]. *)
Inductive RunOutcome :=
| Completed (returncode : Z) (stdout stderr : string)
| RunTimeout
| RunFileNotFound
| RunPermission
| RunOther (text : string).

(** Outcome of [communicate(timeout=2)] on a process that has exited. *)
Inductive Communicate :=
| CommOutput (output : string)
| CommTimeout (output_after_kill : string)
| CommRaises (text : string).

(** What happens outside the interpreter during one call. *)
Record Host := mkHost {
  win32 : bool;                              (* [sys.platform == "win32"] *)
  time_now : Z;                              (* [time.time()] *)
  toml_load : string -> Result Document;     (* [tomlkit.load] *)
  toml_dump : option string -> list Edit -> string;
    (* [tomlkit.dump] of the document made from a text, or by
       [tomlkit.document()] for [None], and edited so *)
  version_run : RunOutcome;                  (* [frpc -v] *)
  verify_run : RunOutcome;                   (* [frpc verify -c path] *)
  spawn : Result Z;                          (* [Popen]: the pid, or it raises *)
  poll_now : option Z;                       (* [poll()] on the handle held *)
  poll_after_grace : option Z;               (* [poll()] after the sleep *)
  communicate : Communicate;
  start_read_error : option string;          (* [open] raises in [_start_frpc] *)
  signal_raises : bool;                      (* [send_signal] raises *)
  terminate_raises : bool;                   (* [terminate] raises *)
  wait_times_out : bool;                     (* [wait(timeout=5)] *)
  print_error : option string                (* [print] raises in [start_proxy] *)
}.

(** Calls on the external binary and its process, as they happen. *)
Inductive Event :=
| EvVersion
| EvVerify (document : string)
| EvSpawn (pid : Z)
| EvSighup (pid : Z)
| EvTerminate (pid : Z)
| EvKill (pid : Z)
| EvReader (pid : Z).

(** The file at [config_path], the faults the coming reconciliations
    meet (in order; none once the list is used up), and the events so
    far, latest first. *)
Record World := mkWorld {
  file : option string;
  faults : list IOFault;
  trace : list Event
}.

Definition set_file (w : World) (f : option string) : World :=
  mkWorld f (faults w) (trace w).

Definition emit (w : World) (e : Event) : World :=
  mkWorld (file w) (faults w) (e :: trace w).

Definition next_fault (w : World) : IOFault * World :=
  match faults w with
  | [] => (NoFault, w)
  | f :: rest => (f, mkWorld (file w) rest (trace w))
  end.

Record Controller := mkController {
  config_path : string;
  proxies : Dict.t ProxyConfig;
  frpc_process : option Z;
  frpc_path : option string;
  frpc_available : bool
}.

Definition set_proxies (c : Controller) (ps : Dict.t ProxyConfig) : Controller :=
  mkController (config_path c) ps (frpc_process c) (frpc_path c) (frpc_available c).

Definition set_process (c : Controller) (p : option Z) : Controller :=
  mkController (config_path c) (proxies c) p (frpc_path c) (frpc_available c).

(** [proxy.status = s] for the proxy stored under [proxy_name]. *)
Definition set_status (c : Controller) (proxy_name : string) (s : ProxyStatus)
  : Controller :=
  match Dict.get (proxies c) proxy_name with
  | Some p => set_proxies c (Dict.set (proxies c) proxy_name (with_status p s))
  | None => c
  end.

(** [FrpcController.__init__], given what [_find_frpc] returned. *)
Definition init (config_path : string) (found : option string) : Controller :=
  mkController config_path Dict.empty None found
    (match found with Some _ => true | None => false end).

(** *** Messages *)

Definition msg_add_unavailable : string :=
  "frpc 不可用，未找到 frpc 可执行文件。请将 frpc 放入程序目录或添加到 PATH".
Definition msg_exists (n : string) : string := "代理 " ++ n ++ " 已存在".
Definition msg_added (n : string) : string := "已添加代理: " ++ n.
Definition msg_update_failed : string := "更新配置文件失败".
Definition msg_unknown (n : string) : string := "代理 " ++ n ++ " 不存在".
Definition msg_already_running : string := "代理已在运行中".
Definition msg_unavailable : string := "frpc 不可用，未找到 frpc 可执行文件".
Definition msg_unhealthy (m : string) : string := "frpc 可执行文件异常: " ++ m.
Definition msg_start_failed (m : string) : string := "启动 frpc 失败: " ++ m.
Definition msg_started (n : string) : string := "已启动代理: " ++ n.
Definition msg_start_exception (m : string) : string := "启动代理失败: " ++ m.
Definition msg_stopped (n : string) : string := "已停止代理: " ++ n.
Definition msg_stop_failed : string := "停止代理失败".
Definition msg_not_found : string := "未找到 frpc 可执行文件".
Definition msg_no_config (path : string) : string := "配置文件不存在: " ++ path.
Definition msg_missing_common : string :=
  "配置文件中缺少 [common] 部分，请先在服务器设置中配置服务器信息".
Definition msg_read_failed (m : string) : string := "读取配置文件失败: " ++ m.
Definition msg_verify_failed (m : string) : string := "配置文件验证失败: " ++ m.
Definition msg_spawn_failed (m : string) : string := "启动进程失败: " ++ m.
Definition msg_exited (retcode : Z) (info : string) : string :=
  "frpc 启动后立即退出 (返回码: " ++ Py.str_int retcode ++ "): " ++ info.
Definition msg_no_output : string := "无输出".
Definition msg_killed : string := "进程超时被强制终止".
Definition msg_unreadable (m : string) : string := "无法读取进程输出: " ++ m.
Definition msg_frpc_started : string := "frpc 启动成功".
Definition msg_verify_timeout : string := "配置文件验证超时".
Definition msg_file_missing (path : string) : string := "frpc 文件不存在: " ++ path.
Definition msg_no_permission (path : string) : string := "frpc 没有执行权限: " ++ path.
Definition msg_frpc_exception (m : string) : string := "启动 frpc 异常: " ++ m.
Definition msg_version_failed (m : string) : string := "frpc 版本检查失败: " ++ m.
Definition msg_version_timeout : string := "frpc 版本检查超时".
Definition msg_version_exception (m : string) : string := "frpc 版本检查异常: " ++ m.

(** *** Reconciliation *)

(** Line 388: the names of generated sections. *)
Definition generated_prefixes : list string := ["tcp_"; "udp_"; "http_"; "https_"].

Definition is_generated (key : string) : bool :=
  Py.startswith_any key generated_prefixes.

(** Lines 395-400: the section written for one proxy. *)
Definition proxy_section (p : ProxyConfig) : Item :=
  Table [("type", SStr (protocol p));
         ("local_ip", SStr (local_ip p));
         ("local_port", SInt (local_port p));
         ("remote_port", SInt (remote_port p))].

(** Lines 386-391. *)
Definition remove_generated (config_data : Document) : Document :=
  let keys_to_remove := filter is_generated (Dict.keys config_data) in
  fold_left (fun d key => Dict.del d key) keys_to_remove config_data.

(** Lines 394-401. *)
Definition add_sections (ps : Dict.t ProxyConfig) (config_data : Document)
  : Document :=
  fold_left (fun d p => Dict.set d (name p) (proxy_section p))
    (Dict.values ps) config_data.

Definition regenerate (ps : Dict.t ProxyConfig) (config_data : Document)
  : Document :=
  add_sections ps (remove_generated config_data).

(** Lines 386-401 as the document object meets them: the deletions of
    the generated sections found, then one assignment for each rule. *)
Definition reconcile_edits (ps : Dict.t ProxyConfig) (config_data : Document)
  : list Edit :=
  (map Delete (filter is_generated (Dict.keys config_data))
   ++ map (fun p => Assign (name p) (proxy_section p)) (Dict.values ps))%list.

(** Every rule of the registry carries a name reconciliation
    recognises as generated; so it is for the tcp and udp rules of the
    data model. *)
Definition names_generated (ps : Dict.t ProxyConfig) : Prop :=
  forall p, In p (Dict.values ps) -> is_generated (name p) = true.

(** The entries of a document that are not generated sections. *)
Definition foreign (d : Document) : Document :=
  filter (fun kv => negb (is_generated (fst kv))) d.

(** Lines 374-383: the document reconciliation starts from; [None]
    when reading or parsing raises. *)
Definition load_existing (h : Host) (fault : IOFault) (w : World)
  : option Document :=
  match file w with
  | Some content =>
      match fault with
      | ReadFails => None
      | _ =>
          match toml_load h content with
          | Ok d => Some d
          | Err _ => None
          end
      end
  | None => Some Dict.empty
  end.

(** [FrpcController._update_config].  Opening the file for writing
    empties it before the dump begins.  The document dumped is the one
    made from the file and edited by lines 386-401; its entries are
    [regenerate (proxies c) config_data]. *)
Definition _update_config (h : Host) (c : Controller) (w : World)
  : bool * World :=
  let (fault, w) := next_fault w in
  match fault with
  | MkdirFails => (false, w)
  | _ =>
      match load_existing h fault w with
      | None => (false, w)
      | Some config_data =>
          let text :=
            toml_dump h (file w) (reconcile_edits (proxies c) config_data) in
          match fault with
          | OpenWriteFails => (false, w)
          | WriteFails n => (false, set_file w (Some (Py.take n text)))
          | _ => (true, set_file w (Some text))
          end
      end
  end.

(** *** The external binary *)

(** [FrpcController.test_frpc_version]. *)
Definition test_frpc_version (h : Host) (c : Controller) (w : World)
  : (bool * string) * World :=
  match frpc_path c with
  | None => ((false, msg_not_found), w)
  | Some path =>
      let w := emit w EvVersion in
      match version_run h with
      | Completed rc out err =>
          if rc =? 0 then ((true, Py.strip out), w)
          else ((false, msg_version_failed (Py.strip err)), w)
      | RunFileNotFound => ((false, msg_file_missing path), w)
      | RunPermission => ((false, msg_no_permission path), w)
      | RunTimeout => ((false, msg_version_timeout), w)
      | RunOther e => ((false, msg_version_exception e), w)
      end
  end.

(** Lines 470-478: what is reported of a process that exited during
    the grace period, the first 500 characters of its output. *)
Definition exit_report (h : Host) (pid : Z) (w : World) : string * World :=
  match communicate h with
  | CommOutput output =>
      (if Py.truthy_str output then Py.slice_to 500 output else msg_no_output, w)
  | CommTimeout output =>
      (if Py.truthy_str output then Py.slice_to 500 output else msg_killed,
       emit w (EvKill pid))
  | CommRaises e => (msg_unreadable e, w)
  end.

(** Lines 451-490: launch, grace period, one poll. *)
Definition launch (h : Host) (c : Controller) (w : World)
  : (bool * string) * Controller * World :=
  match spawn h with
  | Err e => ((false, msg_spawn_failed e), c, w)
  | Ok pid =>
      let c := set_process c (Some pid) in
      let w := emit w (EvSpawn pid) in
      match poll_after_grace h with
      | Some retcode =>
          let (error_info, w) := exit_report h pid w in
          ((false, msg_exited retcode error_info), c, w)
      | None => ((true, msg_frpc_started), c, emit w (EvReader pid))
      end
  end.

(** Lines 424-435: reading the document before it is verified. *)
Definition read_for_start (h : Host) (content : string) : Result Document :=
  match start_read_error h with
  | Some e => Err e
  | None => toml_load h content
  end.

(** [FrpcController._start_frpc]. *)
Definition _start_frpc (h : Host) (c : Controller) (w : World)
  : (bool * string) * Controller * World :=
  match frpc_path c with
  | None => ((false, msg_not_found), c, w)
  | Some path =>
      match file w with
      | None => ((false, msg_no_config (config_path c)), c, w)
      | Some content =>
          match read_for_start h content with
          | Err e => ((false, msg_read_failed e), c, w)
          | Ok config_data =>
              if negb (Dict.mem "common" config_data) then
                ((false, msg_missing_common), c, w)
              else
                let w := emit w (EvVerify content) in
                match verify_run h with
                | Completed rc _ err =>
                    if negb (rc =? 0) then
                      ((false, msg_verify_failed (Py.strip err)), c, w)
                    else launch h c w
                | RunTimeout => ((false, msg_verify_timeout), c, w)
                | RunFileNotFound => ((false, msg_file_missing path), c, w)
                | RunPermission => ((false, msg_no_permission path), c, w)
                | RunOther e => ((false, msg_frpc_exception e), c, w)
                end
          end
      end
  end.

(** Lines 525-527 and 533-536: terminate, drop the handle, bring the
    process up again.  [None] when [terminate] raises. *)
Definition restart (h : Host) (pid : Z) (c : Controller) (w : World)
  : option (bool * Controller * World) :=
  if terminate_raises h then None
  else
    let w := emit w (EvTerminate pid) in
    let c := set_process c None in
    let '(r, c, w) := _start_frpc h c w in
    Some (fst r, c, w).

(** Lines 519-537: make the running process read the new document. *)
Definition reload (h : Host) (pid : Z) (c : Controller) (w : World)
  : bool * Controller * World :=
  if win32 h then
    match restart h pid c w with
    | Some r => r
    | None =>
        (* the handler at line 531 terminates once more; that raises
           again and the handler at line 540 returns False *)
        (false, c, w)
    end
  else if signal_raises h then
    match restart h pid c w with
    | Some r => r
    | None => (false, c, w)
    end
  else (true, c, emit w (EvSighup pid)).

(** [FrpcController._stop_proxy]; the proxy object is the one stored in
    the registry under [proxy_name]. *)
Definition _stop_proxy (h : Host) (c : Controller) (w : World)
  (proxy_name : string) : bool * Controller * World :=
  let c := set_status c proxy_name STOPPED in
  let (ok, w) := _update_config h c w in
  if ok then
    match frpc_process c with
    | Some pid => reload h pid c w
    | None => (true, c, w)
    end
  else (false, c, w).

(** *** The registry *)

(** Line 174. *)
Definition proxy_name_of (protocol : string) (local_port remote_port : Z)
  : string :=
  protocol ++ "_" ++ Py.str_int local_port ++ "_to_" ++ Py.str_int remote_port.

(** [FrpcController.add_proxy]. *)
Definition add_proxy (h : Host) (c : Controller) (w : World)
  (local_port : Z) (remote_port : option Z) (protocol : string)
  : (bool * string) * Controller * World :=
  if negb (frpc_available c) then ((false, msg_add_unavailable), c, w)
  else
    let remote_port :=
      match remote_port with
      | None => local_port
      | Some r => r
      end in
    let proxy_name := proxy_name_of protocol local_port remote_port in
    if Dict.mem proxy_name (proxies c) then
      ((false, msg_exists proxy_name), c, w)
    else
      let proxy :=
        mkProxy proxy_name local_port remote_port protocol "127.0.0.1"
          STOPPED (time_now h) in
      let c := set_proxies c (Dict.set (proxies c) proxy_name proxy) in
      let (ok, w) := _update_config h c w in
      if ok then ((true, msg_added proxy_name), c, w)
      else
        let c := set_proxies c (Dict.del (proxies c) proxy_name) in
        ((false, msg_update_failed), c, w).

(** [FrpcController.remove_proxy]. *)
Definition remove_proxy (h : Host) (c : Controller) (w : World)
  (proxy_name : string) : bool * Controller * World :=
  match Dict.get (proxies c) proxy_name with
  | None => (false, c, w)
  | Some proxy =>
      let '(c, w) :=
        if status_eqb (status proxy) RUNNING then
          let '(_, c, w) := _stop_proxy h c w proxy_name in (c, w)
        else (c, w) in
      let c := set_proxies c (Dict.del (proxies c) proxy_name) in
      let (ok, w) := _update_config h c w in
      (ok, c, w)
  end.

(** [FrpcController.start_proxy]. *)
Definition start_proxy (h : Host) (c : Controller) (w : World)
  (proxy_name : string) : (bool * string) * Controller * World :=
  match Dict.get (proxies c) proxy_name with
  | None => ((false, msg_unknown proxy_name), c, w)
  | Some proxy =>
      if status_eqb (status proxy) RUNNING then
        ((true, msg_already_running), c, w)
      else if negb (frpc_available c) then ((false, msg_unavailable), c, w)
      else
        let '((version_ok, version_msg), w) := test_frpc_version h c w in
        if negb version_ok then ((false, msg_unhealthy version_msg), c, w)
        else
          match print_error h with
          | Some e =>
              ((false, msg_start_exception e),
               set_status c proxy_name ERROR, w)
          | None =>
              let stale :=
                match frpc_process c with
                | None => true
                | Some _ =>
                    match poll_now h with
                    | Some _ => true
                    | None => false
                    end
                end in
              let '((start_ok, start_msg), c, w) :=
                if stale then _start_frpc h c w
                else ((true, msg_frpc_started), c, w) in
              if negb start_ok then ((false, msg_start_failed start_msg), c, w)
              else
                ((true, msg_started proxy_name),
                 set_status c proxy_name RUNNING, w)
          end
  end.

(** [FrpcController.stop_proxy]. *)
Definition stop_proxy (h : Host) (c : Controller) (w : World)
  (proxy_name : string) : bool * Controller * World :=
  match Dict.get (proxies c) proxy_name with
  | None => (false, c, w)
  | Some proxy =>
      if status_eqb (status proxy) STOPPED then (true, c, w)
      else _stop_proxy h c w proxy_name
  end.

(** [FrpcController.toggle_proxy]. *)
Definition toggle_proxy (h : Host) (c : Controller) (w : World)
  (proxy_name : string) : (bool * string) * Controller * World :=
  match Dict.get (proxies c) proxy_name with
  | None => ((false, msg_unknown proxy_name), c, w)
  | Some proxy =>
      if status_eqb (status proxy) RUNNING then
        let '(success, c, w) := _stop_proxy h c w proxy_name in
        if success then ((true, msg_stopped proxy_name), c, w)
        else ((false, msg_stop_failed), c, w)
      else start_proxy h c w proxy_name
  end.

(** [FrpcController.get_proxy_status]. *)
Definition get_proxy_status (c : Controller) (proxy_name : string)
  : option ProxyStatus :=
  option_map status (Dict.get (proxies c) proxy_name).

(** [FrpcController.get_all_proxies]. *)
Definition get_all_proxies (c : Controller) : list ProxyConfig :=
  Dict.values (proxies c).

(** [FrpcController.get_active_proxies]. *)
Definition get_active_proxies (c : Controller) : list ProxyConfig :=
  filter is_active (Dict.values (proxies c)).

(** [FrpcController.get_proxy_by_local_port]. *)
Definition get_proxy_by_local_port (c : Controller) (n : Z)
  : option ProxyConfig :=
  find (fun p => local_port p =? n) (Dict.values (proxies c)).

(** [FrpcController.stop_all]. *)
Definition stop_all (h : Host) (c : Controller) (w : World)
  : Controller * World :=
  let ps := map (fun kv => (fst kv, with_status (snd kv) STOPPED)) (proxies c) in
  let c := set_proxies c ps in
  match frpc_process c with
  | None => (c, w)
  | Some pid =>
      let w :=
        if terminate_raises h then w
        else
          let w := emit w (EvTerminate pid) in
          if wait_times_out h then emit w (EvKill pid) else w in
      (set_process c None, w)
  end.


(** The registry as [add_proxy] builds it: one entry for each key, each
    rule stored under its name, the name made from protocol and ports. *)
Definition registry_ok (ps : Dict.t ProxyConfig) : Prop :=
  Dict.wf ps
  /\ forall k p, In (k, p) ps ->
       k = name p
       /\ name p = proxy_name_of (protocol p) (local_port p) (remote_port p).

(** What the constructor fixes: the path of the config file and what
    [_find_frpc] returned. *)
Definition static (c : Controller) : string * option string * bool :=
  (config_path c, frpc_path c, frpc_available c).

(** A host on which the binary is sound and the process stays up:
    [frpc -v] and [frpc verify] exit with 0, [Popen] gives process
    [pid], which is alive after the grace period, and neither reading
    the config file nor [print] raises. *)
Definition healthy (h : Host) (pid : Z) : Prop :=
  (exists out err, version_run h = Completed 0 out err)
  /\ (exists out err, verify_run h = Completed 0 out err)
  /\ spawn h = Ok pid
  /\ poll_after_grace h = None
  /\ start_read_error h = None
  /\ print_error h = None.

Definition is_spawn (e : Event) : bool :=
  match e with
  | EvSpawn _ => true
  | _ => false
  end.

Definition is_terminate (e : Event) : bool :=
  match e with
  | EvTerminate _ => true
  | _ => false
  end.

Definition is_sighup (e : Event) : bool :=
  match e with
  | EvSighup _ => true
  | _ => false
  end.

(** How many events of a kind a list holds. *)
Definition count (kind : Event -> bool) (evs : list Event) : nat :=
  length (filter kind evs).

(** The events of the three kinds that matter for the life of the
    process: spawned, terminated, signalled. *)
Definition tally (w : World) : nat * nat * nat :=
  (count is_spawn (trace w), count is_terminate (trace w),
   count is_sighup (trace w)).

Definition spawns (w : World) : nat := count is_spawn (trace w).
Definition terminations (w : World) : nat := count is_terminate (trace w).
Definition signals (w : World) : nat := count is_sighup (trace w).

(** [FrpcController._read_frpc_output], as the thread [_start_frpc]
    starts runs it: the handle is held and its [stdout] is a pipe.
    [readline] returns the elements of [stream], one for each call, and
    the empty string at the end of the stream and ever after; [None] in
    the stream is a [readline] that raises.  [callback] is what
    [set_output_callback] stored, and answers [false] when it raises.
    The result is the arguments the callback is called with, in
    order. *)
Fixpoint _read_frpc_output (callback : option (string -> bool))
  (stream : list (option string)) : list string :=
  match stream with
  | [] => []
  | None :: _ => []
  | Some line :: rest =>
      if Py.truthy_str line then
        match callback with
        | Some call =>
            if call (Py.strip line) then
              Py.strip line :: _read_frpc_output callback rest
            else [Py.strip line]
        | None => _read_frpc_output callback rest
        end
      else []
  end.

(** The lines [_read_frpc_output] reads before the stream ends: up to
    the first empty read or the first [readline] that raises. *)
Fixpoint lines_read (stream : list (option string)) : list string :=
  match stream with
  | Some line :: rest =>
      if Py.truthy_str line then line :: lines_read rest else []
  | _ => []
  end.

(** *** Locating the binary *)

(** The paths [_find_frpc] builds. *)
Inductive Path :=
| ThisDir                        (* [Path(__file__).parent] *)
| HomeDir                        (* [Path.home()] *)
| Literal (s : string)           (* [Path(s)] *)
| Parent (p : Path)              (* [p.parent] *)
| Join (p : Path) (s : string)   (* [p / s] *).

(** The file system as [_find_frpc] meets it. *)
Record Files := mkFiles {
  which_frpc : option string;           (* [shutil.which('frpc')] *)
  path_exists : Path -> Result bool;    (* [path.exists()], or it raises *)
  path_str : Path -> string;            (* [str(path)] *)
  home_error : option string            (* [Path.home()] raises *)
}.

(** Lines 76-81. *)
Definition possible_paths : list Path :=
  [Join ThisDir "frpc"; Join ThisDir "frpc.exe";
   Join (Parent ThisDir) "frpc"; Join (Parent ThisDir) "frpc.exe"].

(** Lines 88-102. *)
Definition common_paths (h : Host) : list Path :=
  if win32 h then
    [Literal "C:/frp/frpc.exe"; Join HomeDir "frp/frpc.exe";
     Literal "C:/Program Files/frp/frpc.exe";
     Literal "C:/Program Files (x86)/frp/frpc.exe"]
  else
    [Literal "/usr/local/bin/frpc"; Literal "/usr/bin/frpc";
     Join HomeDir ".local/bin/frpc"; Literal "/opt/frp/frpc"].

(** The loops of lines 82-85 and 104-107: the first path that exists. *)
Fixpoint first_existing (fs : Files) (paths : list Path)
  : Result (option string) :=
  match paths with
  | [] => Ok None
  | path :: rest =>
      match path_exists fs path with
      | Err e => Err e
      | Ok true => Ok (Some (path_str fs path))
      | Ok false => first_existing fs rest
      end
  end.

(** [FrpcController._find_frpc]; [Err] when [exists] or [Path.home]
    raises, which nothing in it catches.  Its [print] calls are taken to
    return. *)
Definition _find_frpc (h : Host) (fs : Files) : Result (option string) :=
  let on_path :=
    match which_frpc fs with
    | Some frpc_path => if Py.truthy_str frpc_path then Some frpc_path else None
    | None => None
    end in
  match on_path with
  | Some frpc_path => Ok (Some frpc_path)
  | None =>
      match first_existing fs possible_paths with
      | Err e => Err e
      | Ok (Some path) => Ok (Some path)
      | Ok None =>
          match home_error fs with
          | Some e => Err e
          | None => first_existing fs (common_paths h)
          end
      end
  end.

(** [FrpcController.__init__]. *)
Definition __init__ (h : Host) (fs : Files) (config_path : string)
  : Result Controller :=
  match _find_frpc h fs with
  | Ok found => Ok (init config_path found)
  | Err e => Err e
  end.

End Frpc.

(* ================================================================= *)
(** ** A small TOML dialect

    One concrete TOML library to run the controller on: a document is
    a sequence of tables of scalars, printed one [key = value] line
    after the other under its [[name]] header.  Strings hold no quote
    and no line break.  Its printer lays a document out by its entries
    alone, which tomlkit does not. *)

Module MiniToml.

Import Frpc.

Definition quote : string := String (ascii_of_nat 34) EmptyString.
Definition newline : string := String (ascii_of_nat 10) EmptyString.

Definition dump_scalar (v : Scalar) : string :=
  match v with
  | SStr s => quote ++ s ++ quote
  | SInt n => Py.str_int n
  | SBool true => "true"
  | SBool false => "false"
  end.

Definition dump_field (kv : string * Scalar) : string :=
  fst kv ++ " = " ++ dump_scalar (snd kv) ++ newline.

Definition dump_item (kv : string * Item) : string :=
  match snd kv with
  | Table fields =>
      "[" ++ fst kv ++ "]" ++ newline ++ String.concat "" (map dump_field fields)
  | Other text => text
  end.

Definition dump (d : Document) : string :=
  String.concat "" (map dump_item d).

(** The lines of a text; the last one needs no line break. *)
Fixpoint lines_acc (s : string) (cur : string) : list string :=
  match s with
  | EmptyString =>
      match cur with
      | EmptyString => []
      | _ => [cur]
      end
  | String c r =>
      if Ascii.eqb c (ascii_of_nat 10) then cur :: lines_acc r EmptyString
      else lines_acc r (cur ++ String c EmptyString)
  end.

Definition lines (s : string) : list string := lines_acc s EmptyString.

(** [s] without its last character when that is [c]. *)
Fixpoint drop_last (c : ascii) (s : string) : option string :=
  match s with
  | EmptyString => None
  | String a EmptyString => if Ascii.eqb a c then Some EmptyString else None
  | String a r => option_map (String a) (drop_last c r)
  end.

Definition parse_scalar (s : string) : option Scalar :=
  match s with
  | String a r =>
      if Ascii.eqb a (ascii_of_nat 34) then
        option_map SStr (drop_last (ascii_of_nat 34) r)
      else if String.eqb s "true" then Some (SBool true)
      else if String.eqb s "false" then Some (SBool false)
      else option_map (fun d => SInt (Z.of_int d)) (NilZero.int_of_string s)
  | EmptyString => None
  end.

(** [key = value]: the text before and after the first [" = "]. *)
Fixpoint split_field (s : string) (key : string) : option (string * string) :=
  match s with
  | EmptyString => None
  | String c r =>
      if String.prefix " = " s then Some (key, String.substring 3 (String.length s - 3) s)
      else split_field r (key ++ String c EmptyString)
  end.

(** A header line [[name]]. *)
Definition parse_header (s : string) : option string :=
  match s with
  | String a r =>
      if Ascii.eqb a "["%char then drop_last "]"%char r else None
  | EmptyString => None
  end.

(** The tables read so far, the latest first, its fields latest first. *)
Fixpoint parse_lines (ls : list string) (acc : list (string * list (string * Scalar)))
  : option (list (string * list (string * Scalar))) :=
  match ls with
  | [] => Some acc
  | l :: rest =>
      match parse_header l with
      | Some n => parse_lines rest ((n, []) :: acc)
      | None =>
          match split_field l EmptyString, acc with
          | Some (k, v), (n, fs) :: acc' =>
              match parse_scalar v with
              | Some x => parse_lines rest ((n, (k, x) :: fs) :: acc')
              | None => None
              end
          | _, _ => None
          end
      end
  end.

(** The lines before the first header, which hold the top-level keys,
    and the lines from it on. *)
Fixpoint top_level (ls : list string) : list string * list string :=
  match ls with
  | [] => ([], [])
  | l :: rest =>
      match parse_header l with
      | Some _ => ([], ls)
      | None => let (top, below) := top_level rest in (l :: top, below)
      end
  end.

(** A top-level line [key = value]; the value is carried as the text of
    its line. *)
Definition parse_top (l : string) : option (string * Item) :=
  match split_field l EmptyString with
  | Some (k, v) =>
      match parse_scalar v with
      | Some _ => Some (k, Other (l ++ newline))
      | None => None
      end
  | None => None
  end.

Fixpoint parse_tops (ls : list string) : option (list (string * Item)) :=
  match ls with
  | [] => Some []
  | l :: rest =>
      match parse_top l, parse_tops rest with
      | Some e, Some es => Some (e :: es)
      | _, _ => None
      end
  end.

(** Empty lines count for nothing. *)
Definition load (s : string) : Result Document :=
  let (top, below) := top_level (filter Py.truthy_str (lines s)) in
  match parse_tops top, parse_lines below [] with
  | Some entries, Some acc =>
      Ok (fold_left (fun d t => Dict.set d (fst t) (Table (rev (snd t))))
            (rev acc)
            (fold_left (fun d e => Dict.set d (fst e) (snd e)) entries
               Dict.empty))
  | _, _ => Err "invalid document"
  end.

(** The entries of the document made from a text. *)
Definition found (made_from : option string) : Document :=
  match made_from with
  | Some text =>
      match load text with
      | Ok d => d
      | Err _ => Dict.empty
      end
  | None => Dict.empty
  end.

(** The printer on a document object: the entries it has after the
    edits. *)
Definition dump_edited (made_from : option string) (edits : list Edit)
  : string :=
  dump (apply_edits edits (found made_from)).

(** A POSIX host on which every external call succeeds and the process
    stays up. *)
Definition quiet_host : Host :=
  mkHost false 0 load dump_edited
    (Completed 0 "frpc version 0.51.3" "") (Completed 0 "" "")
    (Ok 4242) None None (CommOutput "") None false false false None.

(** A second printer, whose layout depends on the edits as well: an
    entry that was deleted and assigned again is set off by an empty
    line. *)
Definition deleted (edits : list Edit) (key : string) : bool :=
  existsb (fun e => match e with
                    | Delete k => String.eqb k key
                    | Assign _ _ => false
                    end) edits.

Definition dump_spaced (made_from : option string) (edits : list Edit)
  : string :=
  String.concat EmptyString
    (map (fun kv => (if deleted edits (fst kv) then newline else EmptyString)
                    ++ dump_item kv)
       (apply_edits edits (found made_from))).

(** The quiet host with that printer. *)
Definition spaced_host : Host :=
  mkHost false 0 load dump_spaced
    (Completed 0 "frpc version 0.51.3" "") (Completed 0 "" "")
    (Ok 4242) None None (CommOutput "") None false false false None.

End MiniToml.

(* ================================================================= *)
(** ** Concrete states to run the controller on *)

Module Scenario.

Import Frpc.

(** The connection section an external collaborator has written. *)
Definition common_doc : Document :=
  [("common", Table [("server_addr", SStr "frp.example.org");
                     ("server_port", SInt 7000)])].

(** The rule [add_proxy(80)] registers, in status [st]. *)
Definition rule_80 (st : ProxyStatus) : ProxyConfig :=
  mkProxy "tcp_80_to_80" 80 80 "tcp" "127.0.0.1" st 0.

(** A controller that has located the binary and holds that one rule;
    [running] is the pid of the external process, if there is one. *)
Definition controller (st : ProxyStatus) (running : option Z) : Controller :=
  mkController "frpc.toml" [("tcp_80_to_80", rule_80 st)] running
    (Some "/usr/bin/frpc") true.

(** The document reconciliation writes for that registry. *)
Definition reconciled_doc : Document :=
  regenerate [("tcp_80_to_80", rule_80 STOPPED)] common_doc.

(** A registry that holds, after tcp_80_to_80, a rule of a protocol
    whose name carries none of the generated prefixes. *)
Definition rule_stcp : ProxyConfig :=
  mkProxy "stcp_7000_to_7000" 7000 7000 "stcp" "127.0.0.1" STOPPED 0.

Definition mixed_controller : Controller :=
  mkController "frpc.toml"
    [("tcp_80_to_80", rule_80 STOPPED); ("stcp_7000_to_7000", rule_stcp)]
    None (Some "/usr/bin/frpc") true.

(** A world whose config file holds [d] and whose coming
    reconciliations meet [fs]. *)
Definition disk (d : Document) (fs : list IOFault) : World :=
  mkWorld (Some (MiniToml.dump d)) fs [].

(** U+3000, the ideographic space, and U+00A0, the no-break space. *)
Definition wide_space : string :=
  String (ascii_of_nat 227)
    (String (ascii_of_nat 128) (String (ascii_of_nat 128) EmptyString)).

Definition no_break_space : string :=
  String (ascii_of_nat 194) (String (ascii_of_nat 160) EmptyString).

(** A config file whose only line gives a top-level key named common:
    it has no section. *)
Definition scalar_common : string := "common = 1" ++ MiniToml.newline.

(** A host on which [frpc verify] rejects the config file. *)
Definition rejecting_host : Host :=
  mkHost false 0 MiniToml.load MiniToml.dump_edited
    (Completed 0 "frpc version 0.51.3" "")
    (Completed 1 ""
       (wide_space ++ "token mismatch" ++ no_break_space ++ MiniToml.newline))
    (Ok 4242) None None (CommOutput "") None false false false None.

(** One listening TCP socket on port 80, owned by process 100. *)
Definition one_socket : PortScanner.Env :=
  PortScanner.mkEnv
    (Some [PortScanner.mkConn "LISTEN" (Some (PortScanner.mkAddr "0.0.0.0" 80))
             PortScanner.SOCK_STREAM (Some 100)])
    (fun _ => PortScanner.Ret
                (PortScanner.mkProcView (PortScanner.Ret "nginx")
                   (Some ["/usr/sbin/nginx"; "-g"; "daemon off;"])))
    Py.posix_basename
    (fun n => Z.of_nat n).

End Scenario.

(* ================================================================= *)
(** * Theorems *)

(* ----------------------------------------------------------------- *)
(** ** Dictionaries *)

Section DictFacts.

Context {V : Type}.
Implicit Types (d : Dict.t V) (k : string) (v : V).

Lemma dict_get_In d k v : Dict.get d k = Some v -> In (k, v) d.
Proof.
  induction d as [| [k' v'] r IH]; cbn; [discriminate |].
  destruct (String.eqb_spec k k') as [-> | Hne].
  - intros [= ->]. now left.
  - intro H. right. now apply IH.
Qed.

Lemma dict_get_None d k : Dict.get d k = None <-> ~ In k (Dict.keys d).
Proof.
  induction d as [| [k' v'] r IH]; cbn.
  - tauto.
  - destruct (String.eqb_spec k k') as [-> | Hne].
    + split; [discriminate | intro H; exfalso; apply H; now left].
    + rewrite IH. split; intro H.
      * intros [E | HIn]; [congruence | contradiction].
      * intro HIn. apply H. now right.
Qed.

Lemma dict_mem_keys d k : Dict.mem k d = true <-> In k (Dict.keys d).
Proof.
  unfold Dict.mem. destruct (Dict.get d k) eqn:E.
  - split; [intros _ | reflexivity].
    apply dict_get_In in E. apply (in_map fst) in E. exact E.
  - apply dict_get_None in E. split; [discriminate | contradiction].
Qed.

Lemma dict_mem_false d k : Dict.mem k d = false <-> ~ In k (Dict.keys d).
Proof.
  rewrite <- dict_mem_keys. destruct (Dict.mem k d); split; intro H; congruence.
Qed.

Lemma dict_In_get d k v : Dict.wf d -> In (k, v) d -> Dict.get d k = Some v.
Proof.
  unfold Dict.wf.
  induction d as [| [k' v'] r IH]; cbn; [tauto |].
  intros Hnd [E | HIn].
  - injection E as -> ->. now rewrite String.eqb_refl.
  - inversion Hnd as [| ? ? Hnot Hnd']; subst.
    destruct (String.eqb_spec k k') as [-> | Hne].
    + exfalso. apply Hnot. apply (in_map fst) in HIn. exact HIn.
    + now apply IH.
Qed.

Lemma dict_keys_set d k v :
  Dict.keys (Dict.set d k v)
  = if Dict.mem k d then Dict.keys d else (Dict.keys d ++ [k])%list.
Proof.
  unfold Dict.mem, Dict.keys.
  induction d as [| [k' v'] r IH]; cbn; [reflexivity |].
  destruct (String.eqb_spec k k') as [-> | Hne]; cbn; [reflexivity |].
  rewrite IH. now destruct (Dict.get r k).
Qed.

Lemma dict_wf_set d k v : Dict.wf d -> Dict.wf (Dict.set d k v).
Proof.
  unfold Dict.wf. intro Hnd. rewrite dict_keys_set.
  destruct (Dict.mem k d) eqn:E; [exact Hnd |].
  apply dict_mem_false in E.
  apply NoDup_app; [exact Hnd | repeat constructor; intros [] | ].
  intros x Hx [<- | []]. contradiction.
Qed.

Lemma dict_In_set d k v k' v' :
  In (k', v') (Dict.set d k v) -> (k' = k /\ v' = v) \/ In (k', v') d.
Proof.
  induction d as [| [k0 v0] r IH]; cbn.
  - intros [[= <- <-] | []]. now left.
  - destruct (String.eqb_spec k k0) as [-> | Hne]; cbn.
    + intros [[= <- <-] | HIn]; [now left | right; now right].
    + intros [E | HIn]; [right; now left |].
      destruct (IH HIn) as [? | ?]; [now left | right; now right].
Qed.

Lemma dict_del_set_fresh d k v :
  Dict.mem k d = false -> Dict.del (Dict.set d k v) k = d.
Proof.
  unfold Dict.mem.
  induction d as [| [k' v'] r IH]; cbn.
  - intros _. now rewrite String.eqb_refl.
  - destruct (String.eqb_spec k k') as [-> | Hne]; [discriminate |].
    intro H. cbn. destruct (String.eqb_spec k k'); [contradiction |].
    now rewrite IH.
Qed.

Lemma dict_get_set_same d k v : Dict.get (Dict.set d k v) k = Some v.
Proof.
  induction d as [| [k' v'] r IH]; cbn.
  - now rewrite String.eqb_refl.
  - destruct (String.eqb_spec k k') as [-> | Hne]; cbn.
    + now rewrite String.eqb_refl.
    + destruct (String.eqb_spec k k'); [contradiction | exact IH].
Qed.

Lemma dict_get_set_other d k v k' :
  k' <> k -> Dict.get (Dict.set d k v) k' = Dict.get d k'.
Proof.
  intro Hne.
  induction d as [| [k0 v0] r IH]; cbn.
  - destruct (String.eqb_spec k' k); [contradiction | reflexivity].
  - destruct (String.eqb_spec k k0) as [-> | Hne0]; cbn.
    + destruct (String.eqb_spec k' k0); [contradiction | reflexivity].
    + destruct (String.eqb_spec k' k0); [reflexivity | exact IH].
Qed.

(** Deleting keys that all differ from the head key leaves the head
    in place. *)
Lemma dict_del_all_cons ks k v d :
  ~ In k ks ->
  fold_left (fun d key => Dict.del d key) ks ((k, v) :: d)
  = (k, v) :: fold_left (fun d key => Dict.del d key) ks d.
Proof.
  revert d. induction ks as [| k' ks IH]; intros d Hnot; cbn; [reflexivity |].
  destruct (String.eqb_spec k' k) as [-> | Hne].
  - exfalso. apply Hnot. now left.
  - apply IH. intro HIn. apply Hnot. now right.
Qed.

(** Deleting every key that satisfies [P] is filtering on [P]. *)
Lemma dict_del_all_filter (P : string -> bool) d :
  fold_left (fun d key => Dict.del d key) (filter P (Dict.keys d)) d
  = filter (fun kv => negb (P (fst kv))) d.
Proof.
  induction d as [| [k v] r IH]; cbn; [reflexivity |].
  destruct (P k) eqn:E; cbn.
  - rewrite String.eqb_refl. exact IH.
  - rewrite dict_del_all_cons.
    + f_equal. exact IH.
    + intro HIn. apply filter_In in HIn. destruct HIn as [_ HP]. congruence.
Qed.


End DictFacts.

(* ----------------------------------------------------------------- *)
(** ** Formatting keys *)

Lemma all_chars_app (P : ascii -> bool) (a b : string) :
  Py.all_chars P (a ++ b) = Py.all_chars P a && Py.all_chars P b.
Proof.
  induction a as [| c a IH]; cbn; [reflexivity |].
  rewrite IH. now rewrite andb_assoc.
Qed.

Lemma all_chars_impl (P Q : ascii -> bool) (s : string) :
  (forall c, P c = true -> Q c = true) ->
  Py.all_chars P s = true -> Py.all_chars Q s = true.
Proof.
  intro HPQ. induction s as [| c s IH]; cbn; [reflexivity |].
  intro H. apply andb_true_iff in H. destruct H as [Hc Hs].
  apply andb_true_iff. split; [now apply HPQ | now apply IH].
Qed.

Lemma num_char_not_underscore (c : ascii) :
  Py.is_num_char c = true -> Py.not_underscore c = true.
Proof.
  unfold Py.not_underscore.
  destruct (Ascii.eqb_spec c "_"%char) as [-> | Hne]; [| reflexivity].
  vm_compute. discriminate.
Qed.

Lemma uint_numeric (d : Decimal.uint) :
  Py.all_chars Py.is_num_char (NilEmpty.string_of_uint d) = true.
Proof. induction d; cbn; try reflexivity; exact IHd. Qed.

Lemma str_int_numeric (n : Z) :
  Py.all_chars Py.is_num_char (Py.str_int n) = true.
Proof.
  unfold Py.str_int, NilZero.string_of_int, NilZero.string_of_uint.
  destruct (Z.to_int n) as [d | d]; destruct d; cbn -[Py.is_num_char];
    try reflexivity; apply uint_numeric.
Qed.

Lemma to_int_proper (n : Z) :
  Z.to_int n <> Decimal.Pos Decimal.Nil /\ Z.to_int n <> Decimal.Neg Decimal.Nil.
Proof.
  destruct n as [| p | p]; cbn; split; try discriminate;
    intros [= H]; now apply (DecimalPos.Unsigned.to_uint_nonnil p).
Qed.

Lemma str_int_inj (a b : Z) : Py.str_int a = Py.str_int b -> a = b.
Proof.
  unfold Py.str_int. intro H.
  destruct (to_int_proper a) as [Ha1 Ha2].
  destruct (to_int_proper b) as [Hb1 Hb2].
  pose proof (NilZero.isi _ Ha1 Ha2) as Ea.
  pose proof (NilZero.isi _ Hb1 Hb2) as Eb.
  rewrite H in Ea. rewrite Ea in Eb. injection Eb as Eb.
  rewrite <- (DecimalZ.of_to a), <- (DecimalZ.of_to b). now f_equal.
Qed.

Lemma str_opt_int_plain (x : option Z) :
  Py.all_chars Py.not_underscore (Py.str_opt_int x) = true.
Proof.
  destruct x as [n |]; cbn; [| reflexivity].
  apply (all_chars_impl Py.is_num_char); [apply num_char_not_underscore |].
  apply str_int_numeric.
Qed.

Lemma str_opt_int_inj (x y : option Z) :
  Py.str_opt_int x = Py.str_opt_int y -> x = y.
Proof.
  destruct x as [a |], y as [b |]; cbn; intro H.
  - f_equal. now apply str_int_inj.
  - pose proof (str_int_numeric a) as Hn. rewrite H in Hn. discriminate.
  - pose proof (str_int_numeric b) as Hn. rewrite <- H in Hn. discriminate.
  - reflexivity.
Qed.

(** A text without underscores ends at the first underscore. *)
Lemma cut_at_first_underscore (a a' r r' : string) :
  Py.all_chars Py.not_underscore a = true ->
  Py.all_chars Py.not_underscore a' = true ->
  a ++ String "_" r = a' ++ String "_" r' -> a = a' /\ r = r'.
Proof.
  revert a'. induction a as [| c a IH]; intros [| c' a']; cbn.
  - intros _ _ [= ->]. now split.
  - intros _ H [= <- _]. discriminate.
  - intros H _ [= -> _]. discriminate.
  - intros H H' [= <- E].
    apply andb_true_iff in H, H'. destruct H as [_ H], H' as [_ H'].
    destruct (IH a' H H' E) as [-> ->]. now split.
Qed.

(** A text without underscores starts after the last underscore. *)
Lemma cut_at_last_underscore (p p' q q' : string) :
  Py.all_chars Py.not_underscore q = true ->
  Py.all_chars Py.not_underscore q' = true ->
  p ++ String "_" q = p' ++ String "_" q' -> p = p' /\ q = q'.
Proof.
  intros Hq Hq'. revert p'.
  induction p as [| c p IH]; intros [| c' p']; cbn.
  - intros [= ->]. now split.
  - intros [= <- E]. rewrite E, all_chars_app in Hq.
    cbn in Hq. rewrite andb_false_r in Hq. discriminate.
  - intros [= -> E]. rewrite <- E, all_chars_app in Hq'.
    cbn in Hq'. rewrite andb_false_r in Hq'. discriminate.
  - intros [= <- E]. destruct (IH p' E) as [-> ->]. now split.
Qed.

(** The key determines port, protocol and pid. *)
Lemma make_key_inj (a a' : Z) (p p' : string) (x x' : option Z) :
  PortScanner.make_key a p x = PortScanner.make_key a' p' x' ->
  a = a' /\ p = p' /\ x = x'.
Proof.
  unfold PortScanner.make_key. intro H.
  apply cut_at_first_underscore in H.
  - destruct H as [Ha H].
    apply cut_at_last_underscore in H; try apply str_opt_int_plain.
    destruct H as [Hp Hx].
    repeat split; [now apply str_int_inj | exact Hp | now apply str_opt_int_inj].
  - apply (all_chars_impl Py.is_num_char);
      [apply num_char_not_underscore | apply str_int_numeric].
  - apply (all_chars_impl Py.is_num_char);
      [apply num_char_not_underscore | apply str_int_numeric].
Qed.

Lemma key_of_ident (o o' : PortScanner.PortInfo) :
  PortScanner.key_of o = PortScanner.key_of o'
  <-> PortScanner.ident o = PortScanner.ident o'.
Proof.
  unfold PortScanner.key_of, PortScanner.ident. split.
  - intro H. apply make_key_inj in H. destruct H as (-> & -> & ->). reflexivity.
  - intros [= -> -> ->]. reflexivity.
Qed.

(* ----------------------------------------------------------------- *)
(** ** Snapshots and their diff *)

Section SnapshotFacts.

Import PortScanner.

Lemma select_In {V : Type} (d : Dict.t V) (keep : string -> bool)
  (ks : list string) (v : V) :
  In v (select d keep ks)
  <-> exists k, In k ks /\ keep k = true /\ Dict.get d k = Some v.
Proof.
  unfold select. rewrite in_flat_map. split.
  - intros (k & Hk & Hv). exists k.
    destruct (keep k); [| destruct Hv].
    destruct (Dict.get d k) as [v' |]; [| destruct Hv].
    destruct Hv as [-> | []]. auto.
  - intros (k & Hk & Hkeep & Hget). exists k. split; [exact Hk |].
    rewrite Hkeep, Hget. now left.
Qed.

(** Under the snapshot invariant the selected observations are listed
    by their keys. *)
Lemma select_keys (d : Dict.t PortInfo) (keep : string -> bool)
  (ks : list string) :
  snapshot_wf d ->
  map key_of (select d keep ks)
  = filter (fun k => keep k && Dict.mem k d) ks.
Proof.
  intros [_ Hkey]. unfold select, Dict.mem.
  induction ks as [| k ks IH]; cbn; [reflexivity |].
  rewrite map_app, IH.
  destruct (keep k); cbn; [| reflexivity].
  destruct (Dict.get d k) as [o |] eqn:E; cbn; [| reflexivity].
  apply dict_get_In in E. apply Hkey in E. now rewrite <- E.
Qed.

Lemma snapshot_value_get (d : Dict.t PortInfo) (o : PortInfo) :
  snapshot_wf d ->
  In o (Dict.values d) <-> Dict.get d (key_of o) = Some o.
Proof.
  intros [Hwf Hkey]. split.
  - intro H. apply in_map_iff in H. destruct H as ([k o'] & E & HIn).
    cbn in E. subst o'. rewrite <- (Hkey _ _ HIn). now apply dict_In_get.
  - intro H. apply dict_get_In in H. apply (in_map snd) in H. exact H.
Qed.

Lemma snapshot_ident_key (d : Dict.t PortInfo) (o : PortInfo) :
  snapshot_wf d ->
  In (ident o) (map ident (Dict.values d)) <-> In (key_of o) (Dict.keys d).
Proof.
  intros [Hwf Hkey]. split.
  - intro H. apply in_map_iff in H. destruct H as (o' & E & HIn).
    apply in_map_iff in HIn. destruct HIn as ([k o''] & E' & HIn).
    cbn in E'. subst o''. apply key_of_ident in E.
    rewrite <- E, <- (Hkey _ _ HIn). apply (in_map fst) in HIn. exact HIn.
  - intro H. apply in_map_iff in H. destruct H as ([k o'] & E & HIn).
    cbn in E. subst k. apply in_map_iff. exists o'. split.
    + apply key_of_ident. symmetry. now apply Hkey.
    + apply (in_map snd) in HIn. exact HIn.
Qed.

Lemma snapshot_wf_empty : snapshot_wf Dict.empty.
Proof. split; [constructor | intros k o []]. Qed.

Lemma snapshot_wf_set (d : Dict.t PortInfo) (o : PortInfo) :
  snapshot_wf d -> snapshot_wf (Dict.set d (key_of o) o).
Proof.
  intros [Hwf Hkey]. split; [now apply dict_wf_set |].
  intros k o' HIn. apply dict_In_set in HIn.
  destruct HIn as [[-> ->] | HIn]; [reflexivity | now apply Hkey].
Qed.

Lemma snapshot_of_wf (l : list PortInfo) : snapshot_wf (snapshot_of l).
Proof.
  unfold snapshot_of. generalize snapshot_wf_empty.
  generalize (@Dict.empty PortInfo).
  induction l as [| o l IH]; intros d Hd; cbn; [exact Hd |].
  apply IH. now apply snapshot_wf_set.
Qed.

Lemma all_listen_set (d : Dict.t PortInfo) (k : string) (o : PortInfo) :
  all_listen d -> status o = "LISTEN" -> all_listen (Dict.set d k o).
Proof.
  intros Hd Ho o' HIn. apply in_map_iff in HIn.
  destruct HIn as ([k' o''] & E & HIn). cbn in E. subst o''.
  apply dict_In_set in HIn. destruct HIn as [[_ ->] | HIn]; [exact Ho |].
  apply Hd. apply (in_map snd) in HIn. exact HIn.
Qed.

(** The loop keeps both invariants of the dictionary it fills. *)
Lemma collect_invariant (env : Env) (conns : list Conn) :
  forall (i : nat) (d : Dict.t PortInfo),
    snapshot_wf d -> all_listen d ->
    snapshot_wf (collect env i conns d) /\ all_listen (collect env i conns d).
Proof.
  induction conns as [| conn rest IH]; intros i d Hwf Hl; cbn; [now split |].
  destruct (conn_laddr conn) as [laddr |]; [| now apply IH].
  destruct (String.eqb_spec (conn_status conn) "LISTEN") as [E | _];
    [| now apply IH].
  destruct (resolve_name env (conn_pid conn)) as [pname | e]; [| now split].
  apply IH.
  - exact (snapshot_wf_set d
             (mkPortInfo (addr_port laddr)
                match conn_type conn with
                | SOCK_STREAM => "tcp"
                | SOCK_DGRAM => "udp"
                end (conn_pid conn) pname (ip laddr) (conn_status conn)
                (now env i)) Hwf).
  - apply all_listen_set; [exact Hl | exact E].
Qed.

Lemma take_snapshot_invariant (env : Env) :
  snapshot_wf (take_snapshot env) /\ all_listen (take_snapshot env).
Proof.
  unfold take_snapshot. destruct (net_connections env) as [conns |].
  - apply collect_invariant; [apply snapshot_wf_empty | intros o []].
  - split; [apply snapshot_wf_empty | intros o []].
Qed.

(** Two dictionaries of listening sockets never differ in a status. *)
Lemma diff_changed_listen (old_ports new_ports : Dict.t PortInfo) :
  all_listen old_ports -> all_listen new_ports ->
  diff_changed old_ports new_ports = [].
Proof.
  intros Ho Hn. unfold diff_changed, select.
  induction (Dict.keys new_ports) as [| k ks IH]; cbn; [reflexivity |].
  rewrite IH, app_nil_r.
  destruct (Dict.get old_ports k) as [o |] eqn:Eo; [| reflexivity].
  destruct (Dict.get new_ports k) as [n |] eqn:En; [| reflexivity].
  apply dict_get_In, (in_map snd) in Eo. apply dict_get_In, (in_map snd) in En.
  cbn in Eo, En. rewrite (Ho _ Eo), (Hn _ En). reflexivity.
Qed.

Lemma diff_added_char (old_ports new_ports : Dict.t PortInfo) (o : PortInfo) :
  snapshot_wf old_ports -> snapshot_wf new_ports ->
  In o (diff_added old_ports new_ports)
  <-> In o (Dict.values new_ports)
      /\ ~ In (ident o) (map ident (Dict.values old_ports)).
Proof.
  intros Hold Hnew. unfold diff_added. rewrite select_In.
  rewrite (snapshot_ident_key old_ports o Hold).
  rewrite (snapshot_value_get new_ports o Hnew). split.
  - intros (k & Hk & Hkeep & Hget).
    assert (k = key_of o) as ->
      by (apply dict_get_In in Hget; now apply (proj2 Hnew)).
    split; [exact Hget |].
    apply negb_true_iff in Hkeep. now apply dict_mem_false.
  - intros [Hget Hnot]. exists (key_of o). repeat split.
    + apply dict_get_In in Hget. apply (in_map fst) in Hget. exact Hget.
    + apply negb_true_iff. now apply dict_mem_false.
    + exact Hget.
Qed.

Lemma diff_removed_char (old_ports new_ports : Dict.t PortInfo) (o : PortInfo) :
  snapshot_wf old_ports -> snapshot_wf new_ports ->
  In o (diff_removed old_ports new_ports)
  <-> In o (Dict.values old_ports)
      /\ ~ In (ident o) (map ident (Dict.values new_ports)).
Proof.
  intros Hold Hnew. exact (diff_added_char new_ports old_ports o Hnew Hold).
Qed.

Lemma diff_changed_char (old_ports new_ports : Dict.t PortInfo) (o : PortInfo) :
  snapshot_wf old_ports -> snapshot_wf new_ports ->
  In o (diff_changed old_ports new_ports)
  <-> In o (Dict.values new_ports)
      /\ exists o', In o' (Dict.values old_ports)
                    /\ ident o' = ident o /\ status o' <> status o.
Proof.
  intros Hold Hnew. unfold diff_changed. rewrite select_In.
  rewrite (snapshot_value_get new_ports o Hnew). split.
  - intros (k & Hk & Hkeep & Hget).
    assert (k = key_of o) as ->
      by (apply dict_get_In in Hget; now apply (proj2 Hnew)).
    split; [exact Hget |]. rewrite Hget in Hkeep.
    destruct (Dict.get old_ports (key_of o)) as [o' |] eqn:Eo; [| discriminate].
    exists o'. apply dict_get_In in Eo. repeat split.
    + apply (in_map snd) in Eo. exact Eo.
    + apply key_of_ident. symmetry. now apply (proj2 Hold).
    + apply negb_true_iff in Hkeep. now apply String.eqb_neq.
  - intros (Hget & o' & HIn & Hid & Hst). exists (key_of o). repeat split.
    + apply dict_get_In in Hget. apply (in_map fst) in Hget. exact Hget.
    + apply (snapshot_value_get old_ports o' Hold) in HIn.
      apply key_of_ident in Hid. rewrite Hid in HIn. rewrite HIn, Hget.
      apply negb_true_iff. now apply String.eqb_neq.
    + exact Hget.
Qed.

(** No identity occurs twice in the three sequences taken together. *)
Lemma diff_keys_once (old_ports new_ports : Dict.t PortInfo) :
  snapshot_wf old_ports -> snapshot_wf new_ports ->
  NoDup (map key_of (diff_added old_ports new_ports
                     ++ diff_removed old_ports new_ports
                     ++ diff_changed old_ports new_ports)).
Proof.
  intros Hold Hnew. rewrite !map_app.
  unfold diff_added, diff_removed, diff_changed.
  rewrite !select_keys by assumption.
  apply NoDup_app; [apply NoDup_filter, Hnew | apply NoDup_app | ].
  - apply NoDup_filter, Hold.
  - apply NoDup_filter, Hnew.
  - intros k H1 H2. apply filter_In in H1, H2.
    destruct H1 as [_ H1], H2 as [_ H2].
    apply andb_true_iff in H1, H2. destruct H1 as [H1 _], H2 as [_ H2].
    rewrite H2 in H1. discriminate.
  - intros k H1 H2. apply filter_In in H1. destruct H1 as [_ H1].
    apply andb_true_iff in H1. destruct H1 as [H1 _].
    apply negb_true_iff in H1.
    apply in_app_or in H2. destruct H2 as [H2 | H2];
      apply filter_In in H2; destruct H2 as [_ H2];
      apply andb_true_iff in H2.
    + destruct H2 as [_ H2]. congruence.
    + destruct H2 as [H2 _]. unfold Dict.mem in H1.
      destruct (Dict.get old_ports k); [discriminate | discriminate].
Qed.

End SnapshotFacts.

(* ----------------------------------------------------------------- *)
(** ** The port state tracker *)

Section TrackerTheorems.

Import PortScanner.

Lemma select_none {V : Type} (d : Dict.t V) (keep : string -> bool)
  (ks : list string) :
  (forall k, In k ks -> keep k = false) -> select d keep ks = [].
Proof.
  intro H. unfold select.
  induction ks as [| k ks IH]; cbn; [reflexivity |].
  rewrite (H k) by now left. cbn. apply IH. intros k' Hk'. apply H. now right.
Qed.

Lemma diff_changed_self (d : Dict.t PortInfo) : diff_changed d d = [].
Proof.
  unfold diff_changed. apply select_none. intros k _.
  destruct (Dict.get d k) as [o |]; [| reflexivity].
  now rewrite String.eqb_refl.
Qed.

Lemma diff_added_same_keys (old_ports new_ports : Dict.t PortInfo) :
  (forall k, Dict.mem k new_ports = Dict.mem k old_ports) ->
  diff_added old_ports new_ports = [].
Proof.
  intro H. unfold diff_added. apply select_none. intros k Hk.
  rewrite <- H. apply dict_mem_keys in Hk. now rewrite Hk.
Qed.

Lemma emissions_empty (d : Diff) :
  emissions d = [] <-> added d = [] /\ removed d = [] /\ changed d = [].
Proof.
  unfold emissions.
  destruct (added d), (removed d), (changed d); cbn; split;
    try (intros (? & ? & ?)); try intro; try discriminate; auto.
Qed.

Lemma is_port_listening_spec (s : Scanner) (n : Z) :
  is_port_listening s n = true
  <-> exists o, In o (Dict.values (ports s)) /\ port o = n
                /\ is_listening o = true.
Proof.
  unfold is_port_listening, get_port_by_number.
  set (keep := fun p : PortInfo => (port p =? n) && is_listening p).
  split.
  - intro H. destruct (filter keep (Dict.values (ports s))) as [| o l] eqn:E;
      [discriminate |].
    assert (In o (filter keep (Dict.values (ports s)))) as HIn
      by (rewrite E; now left).
    apply filter_In in HIn. destruct HIn as [HIn Hk]. unfold keep in Hk.
    apply andb_true_iff in Hk. destruct Hk as [Hp Hl].
    exists o. repeat split; [exact HIn | now apply Z.eqb_eq | exact Hl].
  - intros (o & HIn & Hp & Hl).
    assert (In o (filter keep (Dict.values (ports s)))) as HIn'.
    { apply filter_In. split; [exact HIn |]. unfold keep.
      apply andb_true_iff. split; [now apply Z.eqb_eq | exact Hl]. }
    destruct (filter keep (Dict.values (ports s))); [destruct HIn' | reflexivity].
Qed.

(** C4.  For any two snapshots the diff lists as added exactly the
    observations of the new one whose identity (port, protocol, pid) the
    old one lacks, as removed exactly those of the old one whose
    identity the new one lacks, as changed exactly those of the new one
    whose identity the old one holds with another status; no identity
    occurs twice in the three sequences together; and the two pairs of
    snapshots the specification lists give the diffs it lists. *)
Theorem C4_diff_by_identity :
  (forall old_ports new_ports : Dict.t PortInfo,
     snapshot_wf old_ports -> snapshot_wf new_ports ->
     let d := diff old_ports new_ports in
     (forall o, In o (added d)
                <-> In o (Dict.values new_ports)
                    /\ ~ In (ident o) (map ident (Dict.values old_ports)))
     /\ (forall o, In o (removed d)
                   <-> In o (Dict.values old_ports)
                       /\ ~ In (ident o) (map ident (Dict.values new_ports)))
     /\ (forall o, In o (changed d)
                   <-> In o (Dict.values new_ports)
                       /\ exists o', In o' (Dict.values old_ports)
                                     /\ ident o' = ident o
                                     /\ status o' <> status o)
     /\ NoDup (map ident (added d ++ removed d ++ changed d)))
  /\ (forall a b c e : PortInfo,
        diff (snapshot_of [tcp_obs 80 100 "LISTEN" a; tcp_obs 443 200 "LISTEN" b])
             (snapshot_of [tcp_obs 80 100 "LISTEN" c; tcp_obs 8080 300 "LISTEN" e])
        = mkDiff [tcp_obs 8080 300 "LISTEN" e] [tcp_obs 443 200 "LISTEN" b] [])
  /\ (forall a b : PortInfo,
        diff (snapshot_of [tcp_obs 80 100 "LISTEN" a])
             (snapshot_of [tcp_obs 80 100 "CLOSE_WAIT" b])
        = mkDiff [] [] [tcp_obs 80 100 "CLOSE_WAIT" b]).
Proof.
  split; [| split].
  - intros old_ports new_ports Hold Hnew d. subst d. cbn [added removed changed diff].
    split; [| split; [| split]].
    + intro o. now apply diff_added_char.
    + intro o. now apply diff_removed_char.
    + intro o. now apply diff_changed_char.
    + pose proof (diff_keys_once old_ports new_ports Hold Hnew) as H.
      rewrite (map_ext key_of (fun o => make_key (fst (fst (ident o)))
                                          (snd (fst (ident o))) (snd (ident o))))
        in H by reflexivity.
      rewrite <- (map_map ident
                    (fun t => make_key (fst (fst t)) (snd (fst t)) (snd t))) in H.
      exact (NoDup_map_inv _ _ H).
  - intros a b c e. reflexivity.
  - intros a b. reflexivity.
Qed.

(** C4 at the first pair of snapshots of the specification. *)
Lemma C4_diff_by_identity_witness :
  let old_ports :=
    snapshot_of [tcp_obs 80 100 "LISTEN" (mkPortInfo 0 "" None "nginx" "0.0.0.0" "" 1);
                 tcp_obs 443 200 "LISTEN" (mkPortInfo 0 "" None "nginx" "0.0.0.0" "" 1)] in
  let new_ports :=
    snapshot_of [tcp_obs 80 100 "LISTEN" (mkPortInfo 0 "" None "nginx" "0.0.0.0" "" 2);
                 tcp_obs 8080 300 "LISTEN" (mkPortInfo 0 "" None "python" "127.0.0.1" "" 2)] in
  let d := diff old_ports new_ports in
  NoDup (map ident (added d ++ removed d ++ changed d)).
Proof.
  intros old_ports new_ports d.
  apply (proj1 C4_diff_by_identity old_ports new_ports).
  - apply snapshot_of_wf.
  - apply snapshot_of_wf.
Defined.

(** C9.  A scan emits the signal at most once, and only with a diff
    that has an entry: when the three sequences are empty nothing is
    emitted, which is the case when the snapshot taken equals the one
    held, and when it holds the same keys as a snapshot of listening
    sockets. *)
Theorem C9_no_signal_without_change (env : Env) (s : Scanner) :
  let new_ports := take_snapshot env in
  let d := diff (ports s) new_ports in
  let emitted := snd (scan_ports env s) in
  (added d = [] /\ removed d = [] /\ changed d = [] -> emitted = [])
  /\ (emitted <> [] ->
      emitted = [d] /\ (added d <> [] \/ removed d <> [] \/ changed d <> []))
  /\ (new_ports = ports s -> emitted = [])
  /\ (all_listen (ports s) ->
      (forall k, Dict.mem k new_ports = Dict.mem k (ports s)) ->
      emitted = []).
Proof.
  intros new_ports d emitted.
  assert (emitted = emissions d) as -> by reflexivity.
  split; [| split; [| split]].
  - intro H. now apply emissions_empty.
  - unfold emissions.
    destruct (added d) as [| x l]; destruct (removed d) as [| y m];
      destruct (changed d) as [| z n]; cbn; intro H;
      try (exfalso; now apply H);
      (split; [reflexivity |]);
      first [ left; discriminate | right; left; discriminate
            | right; right; discriminate ].
  - intro E. apply emissions_empty. subst d. rewrite E. cbn. repeat split.
    + now apply diff_added_same_keys.
    + now apply diff_added_same_keys.
    + apply diff_changed_self.
  - intros Hl Hk. apply emissions_empty. subst d. cbn. repeat split.
    + now apply diff_added_same_keys.
    + apply diff_added_same_keys. intro k. symmetry. apply Hk.
    + apply diff_changed_listen; [exact Hl |].
      apply take_snapshot_invariant.
Qed.

(** C10.  Whatever the scanner held before, the snapshot a scan stores
    holds observations with status LISTEN only; so the next scan finds
    no changed observation, and a port is reported as listening exactly
    when the snapshot holds an observation with that port. *)
Theorem C10_scans_record_listening_sockets (env env' : Env) (s : Scanner) :
  let s1 := fst (scan_ports env s) in
  let s2 := fst (scan_ports env' s1) in
  all_listen (ports s1)
  /\ changed (diff (ports s1) (ports s2)) = []
  /\ (forall n, is_port_listening s1 n = true
                <-> exists o, In o (Dict.values (ports s1)) /\ port o = n).
Proof.
  intros s1 s2. subst s1 s2. cbn [scan_ports fst ports changed diff].
  pose proof (take_snapshot_invariant env) as [_ Hl].
  pose proof (take_snapshot_invariant env') as [_ Hl'].
  split; [exact Hl | split].
  - now apply diff_changed_listen.
  - intro n. rewrite is_port_listening_spec. cbn [ports]. split.
    + intros (o & HIn & Hp & _). now exists o.
    + intros (o & HIn & Hp). exists o. repeat split; [exact HIn | exact Hp |].
      unfold is_listening. rewrite (Hl o HIn). reflexivity.
Qed.

(** Every scan stores a snapshot: a dictionary with one entry for
    each key, each stored under the key made from its port, protocol
    and pid. *)
Theorem scan_stores_a_snapshot (env : Env) (s : Scanner) :
  snapshot_wf (ports (fst (scan_ports env s))).
Proof. cbn. apply take_snapshot_invariant. Qed.

(** Two observations are stored under the same key exactly when they
    agree on port, protocol and pid. *)
Theorem key_names_the_identity (o o' : PortInfo) :
  key_of o = key_of o' <-> ident o = ident o'.
Proof. apply key_of_ident. Qed.

(** C9 on a host with one listening socket: the second of two scans
    finds what the first stored and emits nothing. *)
Lemma C9_no_signal_without_change_witness :
  snd (scan_ports Scenario.one_socket
         (fst (scan_ports Scenario.one_socket (init 5)))) = [].
Proof.
  apply (proj1 (proj2 (proj2
           (C9_no_signal_without_change Scenario.one_socket
              (fst (scan_ports Scenario.one_socket (init 5))))))).
  reflexivity.
Defined.

End TrackerTheorems.

(* ----------------------------------------------------------------- *)
(** ** Reconciliation *)

Section ReconcileTheorems.

Import Frpc.

Lemma remove_generated_foreign (d : Document) : remove_generated d = foreign d.
Proof. unfold remove_generated, foreign. apply dict_del_all_filter. Qed.






(** The rules [add_proxy] makes for tcp and udp have generated names. *)
Lemma proxy_name_generated (protocol : string) (local_port remote_port : Z) :
  protocol = "tcp" \/ protocol = "udp" ->
  is_generated (proxy_name_of protocol local_port remote_port) = true.
Proof.
  assert (forall s, String.prefix "" s = true) as Hempty by (now intros []).
  unfold is_generated, proxy_name_of, Py.startswith_any, Py.startswith.
  intros [-> | ->]; cbn; rewrite Hempty; cbn; now rewrite ?orb_true_r.
Qed.

Lemma fold_left_map_list {A B C : Type} (f : A -> B -> A) (g : C -> B)
  (l : list C) (a : A) :
  fold_left f (map g l) a = fold_left (fun a x => f a (g x)) l a.
Proof. revert a. induction l as [| x r IH]; intro a; cbn; [reflexivity | apply IH]. Qed.

(** The entries of the document reconciliation dumps are the
    regenerated ones. *)
Lemma reconcile_edits_entries (ps : Dict.t ProxyConfig) (d : Document) :
  apply_edits (reconcile_edits ps d) d = regenerate ps d.
Proof.
  unfold apply_edits, reconcile_edits, regenerate, add_sections,
    remove_generated.
  now rewrite fold_left_app, !fold_left_map_list.
Qed.

(** C3, as stated, fails.  The config file holds a valid document and
    the dump of the next reconciliation raises after ten bytes:
    reconciliation reports failure and the file holds those ten bytes,
    not the document it held. *)
Lemma C3_failed_write_loses_the_document :
  let c := Scenario.controller STOPPED None in
  let w := Scenario.disk Scenario.common_doc [WriteFails 10] in
  let r := _update_config MiniToml.quiet_host c w in
  option_map MiniToml.load (file w) = Some (Ok Scenario.common_doc)
  /\ fst r = false
  /\ file (snd r) = Some (Py.take 10 (MiniToml.dump Scenario.reconciled_doc))
  /\ file (snd r) <> file w.
Proof. vm_compute. repeat split. discriminate. Qed.

(** C3, amended.  Reconciliation writes the document in place.  When
    it succeeds the file holds the regenerated document: what the
    library dumps for the document found, edited for the registry, whose
    entries are the regenerated ones.  When it fails before the file is
    opened for writing ([mkdir], reading, parsing or opening raises) the
    file is as it was.  When the dump raises, the file holds the bytes
    written so far, a prefix of the regenerated document, and no longer
    the document it held. *)
Theorem C3_reconcile_writes_in_place (h : Host) (c : Controller) (w : World) :
  let fault := fst (next_fault w) in
  let r := _update_config h c w in
  let loaded := load_existing h fault w in
  let written d0 := toml_dump h (file w) (reconcile_edits (proxies c) d0) in
  (fst r = true ->
   exists d0, loaded = Some d0
              /\ file (snd r) = Some (written d0)
              /\ apply_edits (reconcile_edits (proxies c) d0) d0
                 = regenerate (proxies c) d0)
  /\ (fault = MkdirFails \/ fault = OpenWriteFails \/ loaded = None ->
      fst r = false /\ file (snd r) = file w)
  /\ (forall n d0, fault = WriteFails n -> loaded = Some d0 ->
      fst r = false
      /\ file (snd r) = Some (Py.take n (written d0)))
  /\ (fst r = false ->
      file (snd r) = file w
      \/ exists n d0, fault = WriteFails n /\ loaded = Some d0
                      /\ file (snd r) = Some (Py.take n (written d0))).
Proof.
  cbv zeta.
  assert (forall d0, apply_edits (reconcile_edits (proxies c) d0) d0
                     = regenerate (proxies c) d0) as Hentries
    by (intro d0; apply reconcile_edits_entries).
  unfold _update_config, next_fault, load_existing.
  destruct w as [f fs tr]. cbn [faults file trace].
  destruct fs as [| fault rest]; cbn [fst snd file];
    [ destruct f as [content |];
      [ destruct (toml_load h content) as [d0 | e] | ]
    | destruct fault; destruct f as [content |];
      try destruct (toml_load h content) as [d0 | e] ];
    cbn [fst snd file set_file];
    (split; [| split; [| split]]); intros;
    repeat match goal with
           | H : _ \/ _ |- _ => destruct H
           end;
    try discriminate;
    repeat match goal with
           | H : WriteFails _ = WriteFails _ |- _ => injection H as <-
           | H : Some _ = Some _ |- _ => injection H as <-
           end;
    first [ split; reflexivity
          | left; reflexivity
          | eexists; split; [reflexivity | split; [reflexivity | apply Hentries]]
          | right; do 2 eexists; repeat split; reflexivity ].
Qed.

(** C3 where the file cannot be opened for writing: the reconciliation
    fails and the file is as it was. *)
Lemma C3_reconcile_writes_in_place_witness :
  let c := Scenario.controller STOPPED None in
  let w := Scenario.disk Scenario.common_doc [OpenWriteFails] in
  let r := _update_config MiniToml.quiet_host c w in
  fst r = false /\ file (snd r) = file w.
Proof.
  intros c w r.
  apply (proj1 (proj2 (C3_reconcile_writes_in_place MiniToml.quiet_host c w))).
  right. left. reflexivity.
Defined.

(** A reconciliation that meets no fault and can read what it finds
    writes the regenerated document. *)
Lemma update_config_ok (h : Host) (c : Controller) (w : World) (d0 : Document) :
  faults w = [] ->
  load_existing h NoFault w = Some d0 ->
  _update_config h c w
  = (true,
     set_file w
       (Some (toml_dump h (file w) (reconcile_edits (proxies c) d0)))).
Proof.
  destruct w as [f fs tr]. cbn [faults]. intros -> Hload.
  unfold _update_config, next_fault. cbn [faults]. now rewrite Hload.
Qed.




(** The bytes are the library's.  With the printer whose layout depends
    on the edits, the same two reconciliations write documents with the
    same entries and different bytes: the section the second one
    deleted and assigned again is set off by an empty line. *)
Lemma layout_is_the_librarys :
  let c := Scenario.controller STOPPED None in
  let w := Scenario.disk Scenario.common_doc [] in
  let r1 := _update_config MiniToml.spaced_host c w in
  let r2 := _update_config MiniToml.spaced_host c (snd r1) in
  fst r1 = true
  /\ fst r2 = true
  /\ option_map MiniToml.load (file (snd r1)) = Some (Ok Scenario.reconciled_doc)
  /\ option_map MiniToml.load (file (snd r2)) = Some (Ok Scenario.reconciled_doc)
  /\ file (snd r2) <> file (snd r1).
Proof. vm_compute. repeat split. discriminate. Qed.

End ReconcileTheorems.

(* ----------------------------------------------------------------- *)
(** ** The registry *)

Section RegistryTheorems.

Import Frpc.

Lemma set_proxies_same (c : Controller) : set_proxies c (proxies c) = c.
Proof. now destruct c. Qed.

(** A failed [add_proxy] leaves the controller as it found it: the
    rule it inserted before reconciling is deleted again.  A successful
    one has appended the rule, in status [STOPPED], under a name the
    registry did not hold. *)
Theorem add_proxy_rolls_back (h : Host) (c : Controller) (w : World)
  (local_port : Z) (remote_port : option Z) (protocol : string) :
  let r := add_proxy h c w local_port remote_port protocol in
  let c' := snd (fst r) in
  let remote :=
    match remote_port with
    | Some p => p
    | None => local_port
    end in
  let proxy_name := proxy_name_of protocol local_port remote in
  (fst (fst (fst r)) = false /\ c' = c)
  \/ (fst (fst (fst r)) = true
      /\ Dict.mem proxy_name (proxies c) = false
      /\ proxies c'
         = (proxies c
            ++ [(proxy_name,
                 mkProxy proxy_name local_port remote protocol "127.0.0.1"
                   STOPPED (time_now h))])%list).
Proof.
  cbv zeta. unfold add_proxy.
  destruct (frpc_available c); cbn [negb]; [| left; now split].
  set (remote := match remote_port with Some p => p | None => local_port end).
  set (n := proxy_name_of protocol local_port remote).
  destruct (Dict.mem n (proxies c)) eqn:Hmem; [left; now split |].
  set (p := mkProxy n local_port remote protocol "127.0.0.1" STOPPED (time_now h)).
  destruct (_update_config h (set_proxies c (Dict.set (proxies c) n p)) w)
    as [ok w'] eqn:Hup.
  destruct ok; cbn.
  - right. repeat split.
    clear Hup. unfold Dict.mem in Hmem.
    induction (proxies c) as [| [k v] r IH]; cbn in *; [reflexivity |].
    destruct (String.eqb n k); [discriminate |]. now rewrite IH.
  - left. split; [reflexivity |].
    rewrite dict_del_set_fresh by exact Hmem. now destruct c.
Qed.

(** Bringing the process up, or reloading it, touches neither the
    registry nor the config file. *)
Lemma launch_frame (h : Host) (c : Controller) (w : World) :
  proxies (snd (fst (launch h c w))) = proxies c
  /\ file (snd (launch h c w)) = file w.
Proof.
  unfold launch, exit_report. destruct (spawn h) as [pid | e]; cbn; [| now split].
  destruct (poll_after_grace h); cbn; [| now split].
  destruct (communicate h); cbn; now split.
Qed.

Lemma start_frpc_frame (h : Host) (c : Controller) (w : World) :
  proxies (snd (fst (_start_frpc h c w))) = proxies c
  /\ file (snd (_start_frpc h c w)) = file w.
Proof.
  unfold _start_frpc.
  destruct (frpc_path c); [| now split].
  destruct (file w) as [content |] eqn:Hf; [| now split].
  destruct (read_for_start h content) as [d | e]; [| now split].
  destruct (negb (Dict.mem "common" d)); [now split |].
  destruct (verify_run h) as [rc out err | | | | e]; try (now split).
  destruct (negb (rc =? 0)); [now split |].
  destruct (launch_frame h c (emit w (EvVerify content))) as [Hp Hw].
  rewrite Hp, Hw. now split.
Qed.

Lemma restart_frame (h : Host) (pid : Z) (c : Controller) (w : World)
  (r : bool * Controller * World) :
  restart h pid c w = Some r ->
  proxies (snd (fst r)) = proxies c /\ file (snd r) = file w.
Proof.
  unfold restart. destruct (terminate_raises h); [discriminate |].
  pose proof (start_frpc_frame h (set_process c None) (emit w (EvTerminate pid)))
    as [Hp Hw].
  destruct (_start_frpc h (set_process c None) (emit w (EvTerminate pid)))
    as [[res c'] w'].
  intros [= <-]. cbn in *. now split.
Qed.

Lemma reload_frame (h : Host) (pid : Z) (c : Controller) (w : World) :
  proxies (snd (fst (reload h pid c w))) = proxies c
  /\ file (snd (reload h pid c w)) = file w.
Proof.
  unfold reload.
  destruct (win32 h); [| destruct (signal_raises h)];
    try (destruct (restart h pid c w) as [r |] eqn:E;
         [now apply (restart_frame h pid c w) | now split]).
  now split.
Qed.

(** After [_stop_proxy] the registry is the one it reconciled with,
    and the file is as that reconciliation left it. *)
Lemma stop_proxy_frame (h : Host) (c : Controller) (w : World)
  (proxy_name : string) :
  let c1 := set_status c proxy_name STOPPED in
  proxies (snd (fst (_stop_proxy h c w proxy_name))) = proxies c1
  /\ file (snd (_stop_proxy h c w proxy_name))
     = file (snd (_update_config h c1 w)).
Proof.
  cbv zeta. unfold _stop_proxy.
  destruct (_update_config h (set_status c proxy_name STOPPED) w) as [ok w1].
  destruct ok; [| now split].
  destruct (frpc_process (set_status c proxy_name STOPPED)) as [pid |];
    [| now split].
  apply reload_frame.
Qed.

Lemma set_status_keys (c : Controller) (proxy_name : string) (s : ProxyStatus) :
  Dict.keys (proxies (set_status c proxy_name s)) = Dict.keys (proxies c).
Proof.
  unfold set_status.
  destruct (Dict.get (proxies c) proxy_name) as [p |] eqn:E; [| reflexivity].
  cbn [proxies set_proxies]. rewrite dict_keys_set. unfold Dict.mem.
  now rewrite E.
Qed.

Lemma dict_del_keys {V : Type} (d : Dict.t V) (k : string) :
  Dict.wf d -> ~ In k (Dict.keys (Dict.del d k)).
Proof.
  unfold Dict.wf, Dict.keys.
  induction d as [| [k' v] r IH]; cbn; [tauto |].
  intro Hnd. inversion Hnd as [| ? ? Hnot Hnd']; subst.
  destruct (String.eqb_spec k k') as [-> | Hne]; [exact Hnot |].
  cbn. intros [E | H]; [congruence | now apply IH].
Qed.

(** [remove_proxy] deletes a registered rule whatever its
    reconciliations return: no outcome puts the rule back. *)
Theorem remove_proxy_never_restores (h : Host) (c : Controller) (w : World)
  (proxy_name : string) :
  Dict.wf (proxies c) ->
  Dict.mem proxy_name (proxies c) = true ->
  Dict.mem proxy_name (proxies (snd (fst (remove_proxy h c w proxy_name))))
  = false.
Proof.
  intros Hwf Hmem. unfold remove_proxy. unfold Dict.mem in Hmem.
  destruct (Dict.get (proxies c) proxy_name) as [p |]; [| discriminate].
  assert (forall c1 : Controller,
             Dict.keys (proxies c1) = Dict.keys (proxies c) ->
             Dict.mem proxy_name
               (Dict.del (proxies c1) proxy_name) = false) as Hdel.
  { intros c1 Hk. apply dict_mem_false. apply dict_del_keys.
    unfold Dict.wf. now rewrite Hk. }
  destruct (status_eqb (status p) RUNNING).
  - pose proof (stop_proxy_frame h c w proxy_name) as [Hp _].
    destruct (_stop_proxy h c w proxy_name) as [[res c1] w1]. cbn in Hp.
    destruct (_update_config h
                (set_proxies c1 (Dict.del (proxies c1) proxy_name)) w1)
      as [ok w2].
    cbn. apply Hdel. rewrite Hp. apply set_status_keys.
  - destruct (_update_config h
                (set_proxies c (Dict.del (proxies c) proxy_name)) w)
      as [ok w2].
    cbn. now apply Hdel.
Qed.

(** The example of the specification: [add_proxy(8081)] with no remote
    port registers tcp_8081_to_8081 with remote port 8081, stopped. *)
Theorem add_proxy_8081 :
  let c := init "frpc.toml" (Some "/usr/bin/frpc") in
  let w := Scenario.disk Scenario.common_doc [] in
  let r := add_proxy MiniToml.quiet_host c w 8081 None "tcp" in
  fst (fst r) = (true, msg_added "tcp_8081_to_8081")
  /\ Dict.get (proxies (snd (fst r))) "tcp_8081_to_8081"
     = Some (mkProxy "tcp_8081_to_8081" 8081 8081 "tcp" "127.0.0.1" STOPPED 0).
Proof. vm_compute. now split. Qed.

(** [stop_all] leaves every rule stopped and no process handle,
    whatever terminating the process did. *)
Theorem stop_all_clears_the_handle (h : Host) (c : Controller) (w : World) :
  let c' := fst (stop_all h c w) in
  frpc_process c' = None
  /\ Dict.keys (proxies c') = Dict.keys (proxies c)
  /\ forall p, In p (Dict.values (proxies c')) -> status p = STOPPED.
Proof.
  cbv zeta. unfold stop_all.
  set (ps := map (fun kv => (fst kv, with_status (snd kv) STOPPED)) (proxies c)).
  assert (proxies (fst (match frpc_process (set_proxies c ps) with
                        | Some pid =>
                            (set_process (set_proxies c ps) None,
                             if terminate_raises h then w
                             else
                               if wait_times_out h
                               then emit (emit w (EvTerminate pid)) (EvKill pid)
                               else emit w (EvTerminate pid))
                        | None => (set_proxies c ps, w)
                        end)) = ps) as Hps
    by (destruct (frpc_process (set_proxies c ps)); reflexivity).
  split; [| split].
  - destruct (frpc_process (set_proxies c ps)) eqn:E; [reflexivity | exact E].
  - rewrite Hps. unfold ps, Dict.keys. rewrite map_map. reflexivity.
  - rewrite Hps. unfold ps, Dict.values. rewrite map_map.
    intros p Hp. apply in_map_iff in Hp. destruct Hp as (kv & <- & _).
    reflexivity.
Qed.

(** C1 at a failing input.  The registry holds the stopped rule
    tcp_80_to_80, the config file holds its section, and the file
    cannot be opened for writing.  [remove_proxy] reports failure, yet
    the rule is gone from the registry while the file, untouched, still
    holds its section: the deletion is not rolled back. *)
Theorem C1_remove_proxy_is_not_rolled_back :
  let c := Scenario.controller STOPPED None in
  let w := Scenario.disk Scenario.reconciled_doc [OpenWriteFails] in
  let r := remove_proxy MiniToml.quiet_host c w "tcp_80_to_80" in
  fst (fst r) = false
  /\ proxies c = [("tcp_80_to_80", Scenario.rule_80 STOPPED)]
  /\ proxies (snd (fst r)) = []
  /\ file (snd r) = file w
  /\ option_map MiniToml.load (file (snd r)) = Some (Ok Scenario.reconciled_doc)
  /\ Dict.mem "tcp_80_to_80" Scenario.reconciled_doc = true.
Proof. vm_compute. repeat split. Qed.

(** Every rule of the registry has its section in the document
    reconciliation produces, whatever its status. *)
Lemma add_sections_mem (ps : list ProxyConfig) (d : Document) (k : string) :
  In k (Dict.keys d) \/ In k (map name ps) ->
  In k (Dict.keys
          (fold_left (fun d p => Dict.set d (name p) (proxy_section p)) ps d)).
Proof.
  revert d. induction ps as [| p ps IH]; intros d H; cbn.
  - destruct H as [H | []]. exact H.
  - apply IH. rewrite dict_keys_set.
    destruct H as [H | [<- | H]].
    + left. destruct (Dict.mem (name p) d); [exact H |].
      apply in_or_app. now left.
    + left. destruct (Dict.mem (name p) d) eqn:E.
      * now apply dict_mem_keys.
      * apply in_or_app. right. now left.
    + now right.
Qed.

Lemma regenerate_keeps_every_rule (ps : Dict.t ProxyConfig) (d : Document)
  (p : ProxyConfig) :
  In p (Dict.values ps) -> Dict.mem (name p) (regenerate ps d) = true.
Proof.
  intro H. apply dict_mem_keys. unfold regenerate, add_sections.
  apply add_sections_mem. right. now apply in_map.
Qed.

(** Stopping a rule that is not stopped, on a file reconciliation can
    read and write: the rule is [STOPPED] afterwards and the file holds
    the regenerated document, the dump of the document found, edited
    for the registry, in whose entries the stopped rule has its
    section. *)
Theorem stop_proxy_writes_the_stopped_rule (h : Host) (c : Controller)
  (w : World) (proxy_name : string) (p : ProxyConfig) (d0 : Document) :
  Dict.get (proxies c) proxy_name = Some p ->
  name p = proxy_name ->
  status p <> STOPPED ->
  faults w = [] ->
  load_existing h NoFault w = Some d0 ->
  let r := stop_proxy h c w proxy_name in
  let d1 := regenerate (proxies (snd (fst r))) d0 in
  get_proxy_status (snd (fst r)) proxy_name = Some STOPPED
  /\ file (snd r)
     = Some (toml_dump h (file w)
               (reconcile_edits (proxies (snd (fst r))) d0))
  /\ apply_edits (reconcile_edits (proxies (snd (fst r))) d0) d0 = d1
  /\ Dict.mem proxy_name d1 = true.
Proof.
  intros Hget Hname Hst Hf Hload. cbv zeta. unfold stop_proxy. rewrite Hget.
  destruct (status_eqb (status p) STOPPED) eqn:E;
    [destruct (status p); try discriminate; now elim Hst |].
  pose proof (stop_proxy_frame h c w proxy_name) as [Hp Hw]. cbv zeta in Hp, Hw.
  rewrite (update_config_ok h (set_status c proxy_name STOPPED) w d0 Hf Hload)
    in Hw.
  cbn [snd file set_file] in Hw.
  unfold get_proxy_status. rewrite Hp, Hw.
  assert (Dict.get (proxies (set_status c proxy_name STOPPED)) proxy_name
          = Some (with_status p STOPPED)) as Hget'.
  { unfold set_status. rewrite Hget. cbn. apply dict_get_set_same. }
  rewrite Hget'.
  split; [reflexivity |]. split; [reflexivity |].
  split; [apply reconcile_edits_entries |].
  rewrite <- Hname.
  apply (regenerate_keeps_every_rule _ d0 (with_status p STOPPED)).
  apply dict_get_In in Hget'. apply (in_map snd) in Hget'. rewrite Hname. exact Hget'.
Qed.

(** C2 at a failing input.  The rule tcp_80_to_80 is running in
    process 4242 and the config file holds its section.  [stop_proxy]
    succeeds, the rule is stopped and the process is signalled, but the
    document written still holds the section of the stopped rule. *)
Theorem C2_stop_proxy_keeps_the_section :
  let c := Scenario.controller RUNNING (Some 4242) in
  let w := Scenario.disk Scenario.reconciled_doc [] in
  let r := stop_proxy MiniToml.quiet_host c w "tcp_80_to_80" in
  fst (fst r) = true
  /\ get_proxy_status (snd (fst r)) "tcp_80_to_80" = Some STOPPED
  /\ trace (snd r) = [EvSighup 4242]
  /\ option_map MiniToml.load (file (snd r)) = Some (Ok Scenario.reconciled_doc)
  /\ Dict.get Scenario.reconciled_doc "tcp_80_to_80"
     = Some (proxy_section (Scenario.rule_80 STOPPED)).
Proof. vm_compute. repeat split. Qed.

End RegistryTheorems.

(* ----------------------------------------------------------------- *)
(** ** White space *)

Section StringFacts.

Lemma append_nil_r (s : string) : s ++ EmptyString = s.
Proof. induction s as [| c r IH]; cbn; [reflexivity | now f_equal]. Qed.

Lemma append_assoc (s t u : string) : (s ++ t) ++ u = s ++ t ++ u.
Proof. induction s as [| c r IH]; cbn; [reflexivity | now f_equal]. Qed.

Lemma concat_app (l l' : list string) :
  String.concat EmptyString (l ++ l')%list
  = String.concat EmptyString l ++ String.concat EmptyString l'.
Proof.
  induction l as [| a r IH]; [reflexivity |].
  change ((a :: r) ++ l')%list with (a :: (r ++ l'))%list.
  destruct r as [| b r].
  - cbn [app String.concat]. destruct l' as [| c l'].
    + cbn. now rewrite append_nil_r.
    + reflexivity.
  - cbn [app] in *. cbn [String.concat] in *. rewrite IH.
    now rewrite append_assoc.
Qed.

(** Splitting a text into characters loses nothing. *)
Lemma chars_from_concat (s cur : string) (more : nat) :
  String.concat EmptyString (Py.chars_from s cur more) = cur ++ s.
Proof.
  revert cur more. induction s as [| c r IH]; intros cur more; cbn.
  - destruct cur; cbn; [reflexivity |]. now rewrite append_nil_r.
  - destruct more as [| m].
    + destruct cur as [| a cur'].
      * apply IH.
      * change (String.concat EmptyString
                  (String a cur'
                   :: Py.chars_from r (String c EmptyString)
                        (Py.continuation_bytes c)))
          with (String.concat EmptyString
                  ([String a cur']
                   ++ Py.chars_from r (String c EmptyString)
                        (Py.continuation_bytes c))%list).
        rewrite concat_app, IH. reflexivity.
    + rewrite IH, append_assoc. reflexivity.
Qed.

Lemma chars_concat (s : string) :
  String.concat EmptyString (Py.chars s) = s.
Proof. unfold Py.chars. now rewrite chars_from_concat. Qed.

Lemma drop_spaces_split (l : list string) :
  exists lead,
    l = (lead ++ Py.drop_spaces l)%list
    /\ Forall (fun ch => Py.is_space ch = true) lead
    /\ forall ch, hd_error (Py.drop_spaces l) = Some ch ->
                  Py.is_space ch = false.
Proof.
  induction l as [| a r (lead & Hl & Hlead & Hhd)]; cbn.
  - exists []. split; [reflexivity | split; [constructor | discriminate]].
  - destruct (Py.is_space a) eqn:E.
    + exists (a :: lead). split; [cbn; now f_equal |].
      split; [now constructor | exact Hhd].
    + exists []. split; [reflexivity | split; [constructor |]].
      intros ch [= <-]. exact E.
Qed.

(** [strip] cuts white space off the two ends, and all of it. *)
Lemma strip_stripped (s : string) : Py.stripped s (Py.strip s).
Proof.
  unfold Py.stripped, Py.strip, Py.strip_chars.
  destruct (drop_spaces_split (Py.chars s)) as (lead & Hl & Hlead & Hhd).
  destruct (drop_spaces_split (rev (Py.drop_spaces (Py.chars s))))
    as (t & Ht & Htrail & Hlast).
  set (m := Py.drop_spaces (rev (Py.drop_spaces (Py.chars s)))) in *.
  assert (Py.drop_spaces (Py.chars s) = (rev m ++ rev t)%list) as Hmid.
  { rewrite <- rev_app_distr, <- Ht. now rewrite rev_involutive. }
  exists lead, (rev m), (rev t).
  split; [rewrite <- Hmid; exact Hl |].
  split; [reflexivity |].
  split; [exact Hlead |].
  split; [apply Forall_rev; exact Htrail |].
  split.
  - intros ch Hch. apply Hhd. rewrite Hmid.
    destruct (rev m); [discriminate | exact Hch].
  - rewrite rev_involutive. exact Hlast.
Qed.

(** What [strip] cuts off and what it leaves make up the text. *)
Lemma strip_inside (s : string) :
  exists lead trail, s = lead ++ Py.strip s ++ trail.
Proof.
  destruct (strip_stripped s) as (lead & mid & trail & Hc & Ht & _).
  exists (String.concat EmptyString lead), (String.concat EmptyString trail).
  rewrite Ht, <- !concat_app, <- Hc. symmetry. apply chars_concat.
Qed.

End StringFacts.

(* ----------------------------------------------------------------- *)
(** ** The process supervisor *)

Section SupervisorTheorems.

Import Frpc.


(** What [launch] adds to the trace is no verification. *)
Lemma launch_trace (h : Host) (c : Controller) (w : World) (s : string) :
  In (EvVerify s) (trace (snd (launch h c w))) -> In (EvVerify s) (trace w).
Proof.
  unfold launch, exit_report.
  destruct (spawn h) as [pid | e]; cbn; [| auto].
  destruct (poll_after_grace h) as [rc |]; cbn.
  - destruct (communicate h); cbn; intros H;
      repeat (destruct H as [H | H]; [discriminate |]); exact H.
  - intros H. repeat (destruct H as [H | H]; [discriminate |]). exact H.
Qed.

(** C8, as stated, fails.  The config file holds the one line
    [common = 1]: a top-level key, no section.  The document has the
    key, so bring-up does not report the missing section: it runs the
    verification on this file and, the binary accepting it, starts the
    process. *)
Lemma C8_scalar_common_reaches_verify :
  let c := Scenario.controller STOPPED None in
  let w := mkWorld (Some Scenario.scalar_common) [] [] in
  let r := _start_frpc MiniToml.quiet_host c w in
  MiniToml.load Scenario.scalar_common
  = Ok [("common", Other Scenario.scalar_common)]
  /\ fst (fst r) <> (false, msg_missing_common)
  /\ fst (fst r) = (true, msg_frpc_started)
  /\ trace (snd r)
     = [EvReader 4242; EvSpawn 4242; EvVerify Scenario.scalar_common].
Proof. vm_compute. repeat split. discriminate. Qed.

(** C8, amended.  With the binary located and a config file that
    exists, bring-up reads and parses the file.  When that raises it
    fails with the message of the exception.  When the document has no
    top-level key named common it fails with the message that the
    section is missing and touches neither the controller nor the
    world, so nothing is run.  When it has the key and [frpc verify]
    exits with a code other than 0, it fails with the message that
    carries the error output of the binary without the white space at
    its ends.  And in every case a verification that bring-up runs is
    run on this file, whose document has the key. *)
Theorem C8_common_checked_before_verify (h : Host) (c : Controller) (w : World)
  (path content : string) :
  frpc_path c = Some path ->
  file w = Some content ->
  let r := _start_frpc h c w in
  (forall e, start_read_error h = Some e ->
     r = ((false, msg_read_failed e), c, w))
  /\ (forall e, start_read_error h = None -> toml_load h content = Err e ->
        r = ((false, msg_read_failed e), c, w))
  /\ (forall d, start_read_error h = None -> toml_load h content = Ok d ->
        (Dict.mem "common" d = false ->
         r = ((false, msg_missing_common), c, w))
        /\ (Dict.mem "common" d = true ->
            forall rc out err,
              verify_run h = Completed rc out err -> rc <> 0 ->
              r = ((false, msg_verify_failed (Py.strip err)), c,
                   emit w (EvVerify content))
              /\ Py.stripped err (Py.strip err))
        /\ (forall s,
              In (EvVerify s) (trace (snd r)) ->
              In (EvVerify s) (trace w)
              \/ (s = content /\ Dict.mem "common" d = true)))
  /\ (forall s,
        In (EvVerify s) (trace (snd r)) ->
        In (EvVerify s) (trace w)
        \/ (s = content
            /\ start_read_error h = None
            /\ exists d, toml_load h content = Ok d
                         /\ Dict.mem "common" d = true)).
Proof.
  intros Hpath Hfile. cbv zeta. unfold _start_frpc, read_for_start.
  rewrite Hpath, Hfile.
  destruct (start_read_error h) as [e0 |].
  { split; [intros e [= <-]; reflexivity |].
    split; [discriminate |]. split; [discriminate |].
    intros s H. now left. }
  destruct (toml_load h content) as [d | e0].
  2:{ split; [discriminate |].
      split; [intros e _ [= <-]; reflexivity |].
      split; [discriminate |]. intros s H. now left. }
  split; [discriminate |]. split; [discriminate |].
  assert (forall s,
            In (EvVerify s)
              (trace
                 (snd
                    (if negb (Dict.mem "common" d)
                     then (false, msg_missing_common, c, w)
                     else
                       match verify_run h with
                       | Completed rc _ err =>
                           if negb (rc =? 0)
                           then (false, msg_verify_failed (Py.strip err), c,
                                 emit w (EvVerify content))
                           else launch h c (emit w (EvVerify content))
                       | RunTimeout =>
                           (false, msg_verify_timeout, c,
                            emit w (EvVerify content))
                       | RunFileNotFound =>
                           (false, msg_file_missing path, c,
                            emit w (EvVerify content))
                       | RunPermission =>
                           (false, msg_no_permission path, c,
                            emit w (EvVerify content))
                       | RunOther e =>
                           (false, msg_frpc_exception e, c,
                            emit w (EvVerify content))
                       end))) ->
            In (EvVerify s) (trace w)
            \/ (s = content /\ Dict.mem "common" d = true)) as Htrace.
  { intros s. destruct (Dict.mem "common" d) eqn:Hc; cbn [negb].
    - destruct (verify_run h) as [rc out err | | | | e]; cbn;
        try (intros [[= <-] | H]; [right; now split | now left]).
      destruct (rc =? 0); cbn.
      + intro H. apply launch_trace in H. cbn in H.
        destruct H as [[= <-] | H]; [right; now split | now left].
      + intros [[= <-] | H]; [right; now split | now left].
    - intro H. now left. }
  split.
  - intros d' _ [= <-]. split; [| split; [| exact Htrace]].
    + intros ->. reflexivity.
    + intros Hc rc out err Hv Hrc. rewrite Hc, Hv. cbn [negb].
      destruct (Z.eqb_spec rc 0) as [-> | _]; [now elim Hrc |].
      split; [reflexivity | apply strip_stripped].
  - intros s H. destruct (Htrace s H) as [Hw | [-> Hc]]; [now left |].
    right. split; [reflexivity | split; [reflexivity |]].
    now exists d.
Qed.

(** C8 on a config file that holds the connection section and the
    section of a rule, which [frpc verify] rejects with an error output
    set in white space: the message carries the words alone. *)
Lemma C8_common_checked_before_verify_witness :
  let c := Scenario.controller STOPPED None in
  let w := Scenario.disk Scenario.reconciled_doc [] in
  _start_frpc Scenario.rejecting_host c w
  = ((false, msg_verify_failed "token mismatch"), c,
     emit w (EvVerify (MiniToml.dump Scenario.reconciled_doc))).
Proof.
  intros c w.
  destruct (C8_common_checked_before_verify Scenario.rejecting_host c w
              "/usr/bin/frpc" (MiniToml.dump Scenario.reconciled_doc)
              eq_refl eq_refl) as (_ & _ & H & _).
  destruct (H Scenario.reconciled_doc eq_refl eq_refl) as (_ & Hverify & _).
  exact (proj1 (Hverify eq_refl 1 _ _ eq_refl ltac:(discriminate))).
Defined.

End SupervisorTheorems.

(* ----------------------------------------------------------------- *)
(** ** Scan interval *)

(** C6, as stated, fails: an interval of 3 seconds lies in the range
    2..300 and would be stored as it is, but [set_scan_interval] stores
    5 in its place. *)
Lemma C6_scan_interval_3_is_raised_to_5 :
  let cfg := ConfigManager.set_scan_interval ConfigManager.default_app_config 3 in
  2 <= 3 <= 300
  /\ ConfigManager.get_scan_interval cfg = 5
  /\ ConfigManager.get_scan_interval cfg <> 3.
Proof. vm_compute. repeat split; discriminate. Qed.

(** C6, amended: for every integer [i] the stored scan interval is [i]
    clamped to the range 5..300: 5 below 5, 300 above 300, [i] itself
    in between; the other settings are untouched. *)
Theorem C6_scan_interval_clamped_5_300 (cfg : ConfigManager.AppConfig) (i : Z) :
  let cfg' := ConfigManager.set_scan_interval cfg i in
  ConfigManager.get_scan_interval cfg' = Z.max 5 (Z.min 300 i)
  /\ (i < 5 -> ConfigManager.get_scan_interval cfg' = 5)
  /\ (i > 300 -> ConfigManager.get_scan_interval cfg' = 300)
  /\ (5 <= i <= 300 -> ConfigManager.get_scan_interval cfg' = i)
  /\ ConfigManager.ui_refresh_interval cfg' = ConfigManager.ui_refresh_interval cfg
  /\ ConfigManager.show_system_ports cfg' = ConfigManager.show_system_ports cfg
  /\ ConfigManager.auto_start_proxy cfg' = ConfigManager.auto_start_proxy cfg
  /\ ConfigManager.minimize_to_tray cfg' = ConfigManager.minimize_to_tray cfg.
Proof.
  cbv zeta.
  unfold ConfigManager.get_scan_interval, ConfigManager.set_scan_interval; cbn.
  destruct (Z.ltb_spec i 5); [ | destruct (Z.gtb_spec i 300) ];
    repeat split; intros; lia.
Qed.

(** C6 for an interval of 3 seconds. *)
Lemma C6_scan_interval_clamped_5_300_witness :
  ConfigManager.get_scan_interval
    (ConfigManager.set_scan_interval ConfigManager.default_app_config 3) = 5.
Proof.
  apply (proj1 (proj2
           (C6_scan_interval_clamped_5_300 ConfigManager.default_app_config 3))).
  lia.
Defined.

(* ----------------------------------------------------------------- *)
(** ** What a consumer of the diff can rely on *)

Section TrackerConsumers.

Import PortScanner.

Lemma filter_split_length {A : Type} (f : A -> bool) (l : list A) :
  (length (filter f l) + length (filter (fun x => negb (f x)) l)
   = length l)%nat.
Proof.
  induction l as [| a l IH]; cbn; [reflexivity |].
  destruct (f a); cbn; lia.
Qed.

(** The keys two dictionaries share are as many on either side. *)
Lemma shared_keys_length {V : Type} (d d' : Dict.t V) :
  Dict.wf d -> Dict.wf d' ->
  length (filter (fun k => Dict.mem k d') (Dict.keys d))
  = length (filter (fun k => Dict.mem k d) (Dict.keys d')).
Proof.
  intros Hd Hd'. apply Permutation_length. apply NoDup_Permutation.
  - now apply NoDup_filter.
  - now apply NoDup_filter.
  - intro k. rewrite !filter_In, !dict_mem_keys. tauto.
Qed.

Lemma added_keys (old_ports new_ports : Dict.t PortInfo) :
  snapshot_wf new_ports ->
  map key_of (diff_added old_ports new_ports)
  = filter (fun k => negb (Dict.mem k old_ports)) (Dict.keys new_ports).
Proof.
  intro Hnew. unfold diff_added. rewrite select_keys by exact Hnew.
  apply filter_ext_in. intros k Hk. apply dict_mem_keys in Hk.
  now rewrite Hk, andb_true_r.
Qed.

(** The diff is all a consumer needs to follow the snapshots: the keys
    of the new snapshot are those of the old one that were not removed,
    and those added; the added observations come in the order of the new
    snapshot, the removed ones in the order of the old; and the sizes
    add up. *)
Theorem diff_rebuilds_the_snapshot (old_ports new_ports : Dict.t PortInfo) :
  snapshot_wf old_ports -> snapshot_wf new_ports ->
  let d := diff old_ports new_ports in
  (forall k, In k (Dict.keys new_ports)
             <-> (In k (Dict.keys old_ports)
                  /\ ~ In k (map key_of (removed d)))
                 \/ In k (map key_of (added d)))
  /\ map key_of (added d)
     = filter (fun k => negb (Dict.mem k old_ports)) (Dict.keys new_ports)
  /\ map key_of (removed d)
     = filter (fun k => negb (Dict.mem k new_ports)) (Dict.keys old_ports)
  /\ (length new_ports + length (removed d)
      = length old_ports + length (added d))%nat.
Proof.
  intros Hold Hnew. cbv zeta. cbn [added removed diff].
  pose proof (added_keys old_ports new_ports Hnew) as Ha.
  pose proof (added_keys new_ports old_ports Hold) as Hr.
  change (diff_added new_ports old_ports)
    with (diff_removed old_ports new_ports) in Hr.
  split; [| split; [exact Ha | split; [exact Hr |]]].
  - intro k. rewrite Ha, Hr, !filter_In. split.
    + intro Hk. destruct (Dict.mem k old_ports) eqn:E.
      * left. split; [now apply dict_mem_keys |].
        intros [_ H]. apply dict_mem_keys in Hk. rewrite Hk in H. discriminate.
      * right. now split.
    + intros [[Hk Hnot] | [Hk _]]; [| exact Hk].
      destruct (Dict.mem k new_ports) eqn:E; [now apply dict_mem_keys |].
      exfalso. apply Hnot. now split.
  - rewrite <- (length_map key_of (diff_removed old_ports new_ports)), Hr.
    rewrite <- (length_map key_of (diff_added old_ports new_ports)), Ha.
    pose proof (filter_split_length (fun k => Dict.mem k old_ports)
                  (Dict.keys new_ports)) as Hn.
    pose proof (filter_split_length (fun k => Dict.mem k new_ports)
                  (Dict.keys old_ports)) as Ho.
    pose proof (shared_keys_length old_ports new_ports (proj1 Hold) (proj1 Hnew))
      as Hs.
    unfold Dict.keys in Hn, Ho. rewrite length_map in Hn, Ho.
    unfold Dict.keys in *. lia.
Qed.

(** The diff between the two snapshots of the specification's first
    example. *)
Lemma diff_rebuilds_the_snapshot_witness :
  let like := mkPortInfo 0 "" None "nginx" "0.0.0.0" "" 1 in
  let old_ports :=
    snapshot_of [tcp_obs 80 100 "LISTEN" like; tcp_obs 443 200 "LISTEN" like] in
  let new_ports :=
    snapshot_of [tcp_obs 80 100 "LISTEN" like; tcp_obs 8080 300 "LISTEN" like] in
  let d := diff old_ports new_ports in
  (length new_ports + length (removed d)
   = length old_ports + length (added d))%nat.
Proof.
  intros like old_ports new_ports d.
  apply (diff_rebuilds_the_snapshot old_ports new_ports);
    apply snapshot_of_wf.
Defined.

Lemma dict_mem_same_keys {V W : Type} (d : Dict.t V) (d' : Dict.t W)
  (k : string) :
  Dict.keys d = Dict.keys d' -> Dict.mem k d = Dict.mem k d'.
Proof.
  intro H. destruct (Dict.mem k d) eqn:E; symmetry.
  - apply dict_mem_keys. rewrite <- H. now apply dict_mem_keys.
  - apply dict_mem_false. rewrite <- H. now apply dict_mem_false.
Qed.

Lemma dict_keys_set_same {V W : Type} (d : Dict.t V) (d' : Dict.t W)
  (k : string) (v : V) (v' : W) :
  Dict.keys d = Dict.keys d' ->
  Dict.keys (Dict.set d k v) = Dict.keys (Dict.set d' k v').
Proof.
  intro H. rewrite !dict_keys_set, (dict_mem_same_keys d d' k H), H.
  reflexivity.
Qed.

Lemma resolve_name_benign (env : Env) (pid : option Z) :
  benign env -> exists name, resolve_name env pid = Ret name.
Proof.
  intro Hb. unfold resolve_name. destruct pid as [n |]; [| now exists ""].
  destruct (Py.truthy_opt_int (Some n)); [| now exists ""].
  specialize (Hb n). destruct (process env n) as [pv | e].
  - destruct (proc_name pv) as [name | e].
    + now eexists.
    + destruct e; first [now elim Hb | now eexists].
  - destruct e; first [now elim Hb | now eexists].
Qed.

Lemma collect_keys (env : Env) (conns : list Conn) :
  benign env ->
  forall (i : nat) (d : Dict.t PortInfo) (k : string),
    In k (Dict.keys (collect env i conns d))
    <-> In k (Dict.keys d)
        \/ exists conn, In conn conns /\ recorded_key conn = Some k.
Proof.
  intro Hb. induction conns as [| conn rest IH]; intros i d k.
  - cbn. split; [now left | intros [H | (c & [] & _)]; exact H].
  - cbn [collect]. unfold recorded_key at 1.
    destruct (conn_laddr conn) as [laddr |] eqn:El.
    + destruct (String.eqb (conn_status conn) "LISTEN") eqn:Es.
      * destruct (resolve_name_benign env (conn_pid conn) Hb) as [name ->].
        rewrite IH, dict_keys_set. split.
        -- intros [H | (c & Hc & Hk)].
           ++ destruct (Dict.mem _ d); [now left |].
              apply in_app_or in H. destruct H as [H | [<- | []]]; [now left |].
              right. exists conn. split; [now left |].
              unfold recorded_key. now rewrite El, Es.
           ++ right. exists c. split; [now right | exact Hk].
        -- intros [H | (c & [<- | Hc] & Hk)].
           ++ left. destruct (Dict.mem _ d); [exact H |].
              apply in_or_app. now left.
           ++ left. unfold recorded_key in Hk. rewrite El, Es in Hk.
              injection Hk as <-.
              destruct (Dict.mem _ d) eqn:E;
                [now apply dict_mem_keys | apply in_or_app; right; now left].
           ++ right. now exists c.
      * rewrite IH. split.
        -- intros [H | (c & Hc & Hk)]; [now left |].
           right. exists c. split; [now right | exact Hk].
        -- intros [H | (c & [<- | Hc] & Hk)]; [now left | | right; now exists c].
           unfold recorded_key in Hk. rewrite El, Es in Hk. discriminate.
    + rewrite IH. split.
      * intros [H | (c & Hc & Hk)]; [now left |].
        right. exists c. split; [now right | exact Hk].
      * intros [H | (c & [<- | Hc] & Hk)]; [now left | | right; now exists c].
        unfold recorded_key in Hk. rewrite El in Hk. discriminate.
Qed.

Lemma dict_set_length {V : Type} (d : Dict.t V) (k : string) (v : V) :
  (length (Dict.set d k v) <= S (length d))%nat.
Proof.
  induction d as [| [k' v'] r IH]; cbn; [lia |].
  destruct (String.eqb k k'); cbn; lia.
Qed.

Lemma collect_length (env : Env) (conns : list Conn) :
  forall (i : nat) (d : Dict.t PortInfo),
    (length (collect env i conns d) <= length d + length conns)%nat.
Proof.
  induction conns as [| c l IH]; intros i d; cbn [collect length]; [lia |].
  destruct (conn_laddr c); [| specialize (IH (S i) d); lia].
  destruct (String.eqb (conn_status c) "LISTEN");
    [| specialize (IH (S i) d); lia].
  destruct (resolve_name env (conn_pid c)) as [pname | e]; [| lia].
  match goal with
  | |- (length (collect _ _ _ (Dict.set ?d0 ?k ?v)) <= _)%nat =>
      specialize (IH (S i) (Dict.set d0 k v));
      pose proof (dict_set_length d0 k v)
  end.
  lia.
Qed.

(** A scan on which [net_connections] raises stores the empty
    snapshot.  On a host where psutil raises nothing but
    [NoSuchProcess] and [AccessDenied], the snapshot holds a key exactly
    for the connections that are in status LISTEN and have a local
    address: none is missed, no other is recorded, and connections that
    agree on port, protocol and pid share one entry. *)
Theorem scan_records_the_listening_sockets (env : Env) (s : Scanner) :
  let snapshot := ports (fst (scan_ports env s)) in
  (net_connections env = None -> snapshot = Dict.empty)
  /\ (forall conns,
        benign env ->
        net_connections env = Some conns ->
        (forall k, In k (Dict.keys snapshot)
                   <-> exists conn, In conn conns /\ recorded_key conn = Some k)
        /\ (length snapshot <= length conns)%nat).
Proof.
  cbv zeta. cbn [scan_ports fst ports]. unfold take_snapshot. split.
  - intros ->. reflexivity.
  - intros conns Hb ->. split.
    + intro k. rewrite (collect_keys env conns Hb 0 Dict.empty k). cbn.
      split; [intros [[] | H]; exact H | intro H; now right].
    + pose proof (collect_length env conns 0%nat Dict.empty) as Hlen.
      cbn in Hlen. exact Hlen.
Qed.

(** On a host with a TCP listener, a UDP socket and an established
    connection, the scan records the listener. *)
Lemma scan_records_the_listening_sockets_witness :
  let conns :=
    [mkConn "LISTEN" (Some (mkAddr "0.0.0.0" 80)) SOCK_STREAM (Some 100);
     mkConn "NONE" (Some (mkAddr "0.0.0.0" 53)) SOCK_DGRAM (Some 7);
     mkConn "ESTABLISHED" (Some (mkAddr "10.0.0.2" 51000)) SOCK_STREAM (Some 100)] in
  let env :=
    mkEnv (Some conns) (fun _ => Raise AccessDenied) Py.posix_basename
      (fun n => Z.of_nat n) in
  In "80_tcp_100" (Dict.keys (ports (fst (scan_ports env (init 5))))).
Proof.
  intros conns env.
  apply (proj1 (proj2 (scan_records_the_listening_sockets env (init 5)) conns
                  (fun n => ltac:(discriminate)) eq_refl)).
  exists (mkConn "LISTEN" (Some (mkAddr "0.0.0.0" 80)) SOCK_STREAM (Some 100)).
  split; [now left | reflexivity].
Defined.

Lemma resolve_name_same_outcome (env env' : Env) (pid : option Z) :
  (forall n, process env' n = process env n) ->
  match resolve_name env' pid, resolve_name env pid with
  | Ret _, Ret _ | Raise _, Raise _ => True
  | _, _ => False
  end.
Proof.
  intro H. unfold resolve_name. destruct pid as [n |]; [| exact I].
  destruct (Py.truthy_opt_int (Some n)); [| exact I].
  rewrite H. destruct (process env n) as [pv | e].
  - destruct (proc_name pv) as [name | e]; [exact I | now destruct e].
  - now destruct e.
Qed.

Lemma collect_same_keys (env env' : Env) (conns : list Conn) :
  (forall n, process env' n = process env n) ->
  forall (i i' : nat) (d d' : Dict.t PortInfo),
    Dict.keys d' = Dict.keys d ->
    Dict.keys (collect env' i' conns d') = Dict.keys (collect env i conns d).
Proof.
  intro H. induction conns as [| conn rest IH]; intros i i' d d' Hk;
    cbn [collect]; [exact Hk |].
  destruct (conn_laddr conn) as [laddr |]; [| now apply IH].
  destruct (String.eqb (conn_status conn) "LISTEN"); [| now apply IH].
  pose proof (resolve_name_same_outcome env env' (conn_pid conn) H) as Hr.
  destruct (resolve_name env' (conn_pid conn)) as [n' | e'];
    destruct (resolve_name env (conn_pid conn)) as [n | e];
    try contradiction; [| exact Hk].
  apply IH. now apply dict_keys_set_same.
Qed.

(** A host whose connections and processes are what the last scan saw
    gets no signal from the next scan: the new time stamps and owner
    names of the observations are no change. *)
Theorem unchanged_host_gets_no_signal (env env' : Env) (s : Scanner) :
  net_connections env' = net_connections env ->
  (forall n, process env' n = process env n) ->
  snd (scan_ports env' (fst (scan_ports env s))) = [].
Proof.
  intros Hc Hp. cbn [scan_ports fst snd ports].
  assert (Dict.keys (take_snapshot env') = Dict.keys (take_snapshot env)) as Hk.
  { unfold take_snapshot. rewrite Hc.
    destruct (net_connections env); [| reflexivity].
    now apply collect_same_keys. }
  apply emissions_empty. cbn [added removed changed diff]. repeat split.
  - apply diff_added_same_keys. intro k. now apply dict_mem_same_keys.
  - apply diff_added_same_keys. intro k. now apply dict_mem_same_keys.
  - apply diff_changed_listen; apply take_snapshot_invariant.
Qed.

(** The host with one socket, scanned again later under another clock
    and another rule for naming processes. *)
Lemma unchanged_host_gets_no_signal_witness :
  let later :=
    mkEnv (net_connections Scenario.one_socket) (process Scenario.one_socket)
      (fun path => path) (fun n => Z.of_nat n + 60) in
  snd (scan_ports later (fst (scan_ports Scenario.one_socket (init 5)))) = [].
Proof.
  intro later.
  apply (unchanged_host_gets_no_signal Scenario.one_socket later (init 5)).
  - reflexivity.
  - reflexivity.
Defined.

Lemma filter_all {A : Type} (f : A -> bool) (l : list A) :
  (forall a, In a l -> f a = true) -> filter f l = l.
Proof.
  intro H. induction l as [| a l IH]; cbn; [reflexivity |].
  rewrite (H a) by now left. f_equal. apply IH. intros b Hb. apply H. now right.
Qed.

(** After a scan the accessors hide nothing: [get_listening_ports]
    returns every observation of the snapshot, in its order, and
    [get_port_by_number] those with the port asked for, of which there
    is one exactly when [is_port_listening] says so. *)
Theorem accessors_show_the_whole_snapshot (env : Env) (s : Scanner) (n : Z) :
  let s1 := fst (scan_ports env s) in
  get_listening_ports s1 = Dict.values (ports s1)
  /\ get_port_by_number s1 n
     = filter (fun o => port o =? n) (Dict.values (ports s1))
  /\ (is_port_listening s1 n = false <-> get_port_by_number s1 n = []).
Proof.
  cbv zeta. cbn [scan_ports fst].
  pose proof (take_snapshot_invariant env) as [_ Hl].
  unfold get_listening_ports, get_port_by_number, is_port_listening.
  cbn [ports]. repeat split.
  - apply filter_all. intros o Ho. unfold is_listening. now rewrite (Hl o Ho).
  - apply filter_ext_in. intros o Ho. unfold is_listening.
    rewrite (Hl o Ho). cbn. now rewrite andb_true_r.
  - unfold get_port_by_number. cbn [ports].
    destruct (filter _ (Dict.values (take_snapshot env)));
      [reflexivity | cbn; discriminate].
  - unfold get_port_by_number. cbn [ports]. intros ->. reflexivity.
Qed.

End TrackerConsumers.

(* ----------------------------------------------------------------- *)
(** ** What reconciliation writes *)

Section DocumentShape.

Import Frpc.

Lemma dict_set_fresh {V : Type} (d : Dict.t V) (k : string) (v : V) :
  ~ In k (Dict.keys d) -> Dict.set d k v = (d ++ [(k, v)])%list.
Proof.
  induction d as [| [k' v'] r IH]; cbn; [reflexivity |].
  intro H. destruct (String.eqb_spec k k') as [-> | Hne].
  - exfalso. apply H. now left.
  - f_equal. apply IH. intro HIn. apply H. now right.
Qed.

Lemma add_sections_appends (l : list ProxyConfig) (d : Document) :
  NoDup (map name l) ->
  (forall p, In p l -> ~ In (name p) (Dict.keys d)) ->
  fold_left (fun d p => Dict.set d (name p) (proxy_section p)) l d
  = (d ++ map (fun p => (name p, proxy_section p)) l)%list.
Proof.
  revert d. induction l as [| p l IH]; intros d Hnd Hfresh; cbn.
  - now rewrite app_nil_r.
  - inversion Hnd as [| ? ? Hp Hnd']; subst.
    rewrite dict_set_fresh by (apply Hfresh; now left).
    rewrite IH; [now rewrite <- app_assoc | exact Hnd' |].
    intros q Hq HIn. unfold Dict.keys in HIn. rewrite map_app in HIn.
    apply in_app_or in HIn. destruct HIn as [HIn | [E | []]].
    + apply (Hfresh q); [now right | exact HIn].
    + cbn in E. apply Hp. rewrite E. now apply in_map.
Qed.

Lemma registry_names (ps : Dict.t ProxyConfig) :
  registry_ok ps -> map name (Dict.values ps) = Dict.keys ps.
Proof.
  intros [_ H]. unfold Dict.values, Dict.keys. rewrite map_map.
  apply map_ext_in. intros [k p] HIn. cbn. symmetry. now apply H.
Qed.

Lemma foreign_keys (d : Document) (k : string) :
  In k (Dict.keys (foreign d)) -> is_generated k = false.
Proof.
  intro H. apply in_map_iff in H. destruct H as ([k' v] & <- & HIn).
  apply filter_In in HIn. destruct HIn as [_ Hk]. cbn in *.
  now apply negb_true_iff.
Qed.

(** The document reconciliation writes for a registry of rules under
    generated names: the entries of the document found that are not
    generated sections, in their order, and then one section for each
    rule, in the order of the registry.  Generated sections found in the
    file are gone unless a rule brings them back. *)
Theorem reconciled_document_shape (ps : Dict.t ProxyConfig) (d : Document) :
  registry_ok ps ->
  names_generated ps ->
  regenerate ps d
  = (foreign d ++ map (fun p => (name p, proxy_section p)) (Dict.values ps))%list.
Proof.
  intros Hok Hgen. unfold regenerate, add_sections.
  rewrite remove_generated_foreign. apply add_sections_appends.
  - rewrite registry_names by exact Hok. apply Hok.
  - intros p Hp HIn. apply foreign_keys in HIn.
    rewrite (Hgen p Hp) in HIn. discriminate.
Qed.

(** A file with the connection section and the stale section of a rule
    that is no longer registered, reconciled with the registry that
    holds tcp_80_to_80. *)
Lemma reconciled_document_shape_witness :
  regenerate [("tcp_80_to_80", Scenario.rule_80 STOPPED)]
    (Scenario.common_doc
     ++ [("udp_53_to_53", proxy_section
            (mkProxy "udp_53_to_53" 53 53 "udp" "127.0.0.1" STOPPED 0))])%list
  = (Scenario.common_doc
     ++ [("tcp_80_to_80", proxy_section (Scenario.rule_80 STOPPED))])%list.
Proof.
  apply (reconciled_document_shape [("tcp_80_to_80", Scenario.rule_80 STOPPED)]).
  - split; [repeat constructor; intros [] |].
    intros k p [[= <- <-] | []]. now split.
  - intros p [<- | []]. reflexivity.
Defined.

Lemma proxy_name_has_underscore (protocol : string) (local_port remote_port : Z) :
  Py.all_chars Py.not_underscore
    (proxy_name_of protocol local_port remote_port) = false.
Proof.
  unfold proxy_name_of. rewrite all_chars_app. cbn.
  now rewrite andb_false_r.
Qed.

Lemma dict_get_filter {V : Type} (P : string -> bool) (d : Dict.t V)
  (k : string) :
  P k = true -> Dict.get (filter (fun kv => P (fst kv)) d) k = Dict.get d k.
Proof.
  intro HP. induction d as [| [k' v] r IH]; cbn; [reflexivity |].
  destruct (P k') eqn:E; cbn.
  - now rewrite IH.
  - destruct (String.eqb_spec k k') as [-> | Hne]; [congruence | exact IH].
Qed.

Lemma add_sections_get_other (l : list ProxyConfig) (d : Document) (k : string) :
  ~ In k (map name l) ->
  Dict.get (fold_left (fun d p => Dict.set d (name p) (proxy_section p)) l d) k
  = Dict.get d k.
Proof.
  revert d. induction l as [| p l IH]; intros d H; cbn; [reflexivity |].
  rewrite IH by (intro HIn; apply H; now right).
  apply dict_get_set_other. intro E. apply H. left. now symmetry.
Qed.

(** Reconciliation leaves alone every entry of the document that is
    neither a generated section nor named like a rule; the connection
    section is such an entry for every registry [add_proxy] builds,
    whatever the protocols of its rules. *)
Theorem reconcile_keeps_foreign_entries (ps : Dict.t ProxyConfig) (d : Document) :
  (forall k,
     is_generated k = false -> ~ In k (map name (Dict.values ps)) ->
     Dict.get (regenerate ps d) k = Dict.get d k)
  /\ (registry_ok ps ->
      Dict.get (regenerate ps d) "common" = Dict.get d "common").
Proof.
  assert (forall k,
             is_generated k = false -> ~ In k (map name (Dict.values ps)) ->
             Dict.get (regenerate ps d) k = Dict.get d k) as Hgen.
  { intros k Hk Hnot. unfold regenerate, add_sections.
    rewrite add_sections_get_other by exact Hnot.
    rewrite remove_generated_foreign. unfold foreign.
    apply (dict_get_filter (fun k => negb (is_generated k))).
    now rewrite Hk. }
  split; [exact Hgen |].
  intro Hok. apply Hgen; [reflexivity |].
  intro HIn. apply in_map_iff in HIn. destruct HIn as (p & E & Hp).
  apply in_map_iff in Hp. destruct Hp as ([k p'] & E' & Hp). cbn in E'. subst p'.
  destruct Hok as [_ Hok]. destruct (Hok k p Hp) as [_ Hname].
  pose proof (proxy_name_has_underscore (protocol p) (local_port p)
                (remote_port p)) as Hu.
  rewrite <- Hname, E in Hu. discriminate.
Qed.

(** The registry that holds tcp_80_to_80 and stcp_7000_to_7000. *)
Lemma reconcile_keeps_foreign_entries_witness :
  Dict.get (regenerate (proxies Scenario.mixed_controller) Scenario.common_doc)
    "common"
  = Dict.get Scenario.common_doc "common".
Proof.
  apply (proj2 (reconcile_keeps_foreign_entries
                  (proxies Scenario.mixed_controller) Scenario.common_doc)).
  split; [repeat constructor; cbn; intuition discriminate |].
  intros k p [[= <- <-] | [[= <- <-] | []]]; now split.
Defined.

End DocumentShape.

(* ----------------------------------------------------------------- *)
(** ** Invariants of the controller *)

Section ControllerInvariants.

Import Frpc.

Lemma dict_In_del {V : Type} (d : Dict.t V) (k k' : string) (v : V) :
  In (k', v) (Dict.del d k) -> In (k', v) d.
Proof.
  induction d as [| [k0 v0] r IH]; cbn; [tauto |].
  destruct (String.eqb k k0); [intro H; now right |].
  intros [E | H]; [now left | right; now apply IH].
Qed.

Lemma dict_wf_del {V : Type} (d : Dict.t V) (k : string) :
  Dict.wf d -> Dict.wf (Dict.del d k).
Proof.
  unfold Dict.wf, Dict.keys.
  induction d as [| [k0 v0] r IH]; cbn; [tauto |].
  intro Hnd. inversion Hnd as [| ? ? Hnot Hnd']; subst.
  destruct (String.eqb k k0); [exact Hnd' |].
  cbn. constructor; [| now apply IH].
  intro HIn. apply Hnot. apply in_map_iff in HIn.
  destruct HIn as ([k1 v1] & E & HIn). cbn in E. subst k1.
  apply dict_In_del in HIn. apply (in_map fst) in HIn. exact HIn.
Qed.

Lemma registry_ok_del (ps : Dict.t ProxyConfig) (k : string) :
  registry_ok ps -> registry_ok (Dict.del ps k).
Proof.
  intros [Hwf H]. split; [now apply dict_wf_del |].
  intros k' p HIn. apply H. now apply (dict_In_del ps k).
Qed.

Lemma registry_ok_status (c : Controller) (n : string) (st : ProxyStatus) :
  registry_ok (proxies c) -> registry_ok (proxies (set_status c n st)).
Proof.
  intros [Hwf H]. unfold set_status.
  destruct (Dict.get (proxies c) n) as [p |] eqn:E; [| now split].
  cbn [proxies set_proxies]. split; [now apply dict_wf_set |].
  intros k q HIn. apply dict_In_set in HIn.
  destruct HIn as [[-> ->] | HIn]; [| now apply H].
  apply dict_get_In in E. exact (H n p E).
Qed.

Lemma registry_ok_add (ps : Dict.t ProxyConfig) (p : ProxyConfig) :
  registry_ok ps ->
  Dict.mem (name p) ps = false ->
  name p = proxy_name_of (protocol p) (local_port p) (remote_port p) ->
  registry_ok (ps ++ [(name p, p)])%list.
Proof.
  intros [Hwf H] Hmem Hname. split.
  - unfold Dict.wf, Dict.keys. rewrite map_app. apply NoDup_app.
    + exact Hwf.
    + repeat constructor. intros [].
    + intros k Hk [<- | []]. apply dict_mem_false in Hmem. contradiction.
  - intros k q HIn. apply in_app_or in HIn.
    destruct HIn as [HIn | [[= <- <-] | []]]; [now apply H | now split].
Qed.

Lemma set_status_proxies (c1 c2 : Controller) (n : string) (st : ProxyStatus) :
  proxies c1 = proxies c2 ->
  proxies (set_status c1 n st) = proxies (set_status c2 n st).
Proof.
  intro E. unfold set_status. rewrite E.
  destruct (Dict.get (proxies c2) n); cbn; [reflexivity | exact E].
Qed.

(** What a call of [start_proxy] can do to the registry. *)
Lemma start_proxy_registry (h : Host) (c : Controller) (w : World) (n : string) :
  let c' := snd (fst (start_proxy h c w n)) in
  proxies c' = proxies c
  \/ (print_error h <> None /\ proxies c' = proxies (set_status c n ERROR))
  \/ (fst (fst (fst (start_proxy h c w n))) = true
      /\ proxies c' = proxies (set_status c n RUNNING)).
Proof.
  cbv zeta. unfold start_proxy.
  destruct (Dict.get (proxies c) n) as [p |]; [| now left].
  destruct (status_eqb (status p) RUNNING); [now left |].
  destruct (negb (frpc_available c)); [now left |].
  destruct (test_frpc_version h c w) as [[vok vmsg] w1].
  destruct (negb vok); [now left |].
  destruct (print_error h) as [e |]; [right; left; now split |].
  set (stale := match frpc_process c with
                | Some _ => match poll_now h with Some _ => true | None => false end
                | None => true
                end).
  destruct stale.
  - pose proof (start_frpc_frame h c w1) as [Hp _].
    destruct (_start_frpc h c w1) as [[[ok msg] c1] w2]. cbn in Hp.
    destruct ok; cbn; [| now left].
    right. right. split; [reflexivity | now apply set_status_proxies].
  - cbn. right. right. now split.
Qed.

(** What a call of [add_proxy] can do to the registry. *)
Lemma add_proxy_registry (h : Host) (c : Controller) (w : World)
  (local_port : Z) (remote_port : option Z) (protocol : string) :
  let c' := snd (fst (add_proxy h c w local_port remote_port protocol)) in
  let remote := match remote_port with Some r => r | None => local_port end in
  let n := proxy_name_of protocol local_port remote in
  (fst (fst (fst (add_proxy h c w local_port remote_port protocol))) = false
   /\ proxies c' = proxies c)
  \/ (fst (fst (fst (add_proxy h c w local_port remote_port protocol))) = true
      /\ Dict.mem n (proxies c) = false
      /\ proxies c'
         = (proxies c
            ++ [(n, mkProxy n local_port remote protocol "127.0.0.1" STOPPED
                      (time_now h))])%list).
Proof.
  cbv zeta. unfold add_proxy.
  destruct (negb (frpc_available c)); [now left |].
  set (remote := match remote_port with Some r => r | None => local_port end).
  set (n := proxy_name_of protocol local_port remote).
  destruct (Dict.mem n (proxies c)) eqn:Hmem; [now left |].
  destruct (_update_config h _ w) as [ok w'].
  destruct ok; cbn [fst snd proxies set_proxies].
  - right. split; [reflexivity | split; [reflexivity |]].
    apply dict_set_fresh. now apply dict_mem_false.
  - left. split; [reflexivity | now apply dict_del_set_fresh].
Qed.

Lemma registry_ok_stop_all (ps : Dict.t ProxyConfig) :
  registry_ok ps ->
  registry_ok (map (fun kv => (fst kv, with_status (snd kv) STOPPED)) ps).
Proof.
  intros [Hwf H]. split.
  - unfold Dict.wf, Dict.keys. rewrite map_map. exact Hwf.
  - intros k p HIn. apply in_map_iff in HIn.
    destruct HIn as ([k0 p0] & [= <- <-] & HIn). exact (H k0 p0 HIn).
Qed.

(** Every operation keeps the registry as [add_proxy] builds it: one
    entry for each name, each rule under its own name, the name made
    from the rule's protocol and ports. *)
Theorem operations_keep_the_registry (h : Host) (c : Controller) (w : World)
  (n protocol : string) (local_port : Z) (remote_port : option Z) :
  registry_ok (proxies c) ->
  registry_ok (proxies (snd (fst (add_proxy h c w local_port remote_port protocol))))
  /\ registry_ok (proxies (snd (fst (remove_proxy h c w n))))
  /\ registry_ok (proxies (snd (fst (start_proxy h c w n))))
  /\ registry_ok (proxies (snd (fst (stop_proxy h c w n))))
  /\ registry_ok (proxies (snd (fst (toggle_proxy h c w n))))
  /\ registry_ok (proxies (fst (stop_all h c w))).
Proof.
  intro Hok.
  assert (registry_ok (proxies (snd (fst (start_proxy h c w n))))) as Hstart.
  { destruct (start_proxy_registry h c w n) as [-> | [[_ ->] | [_ ->]]];
      [exact Hok | now apply registry_ok_status | now apply registry_ok_status]. }
  assert (registry_ok (proxies (snd (fst (_stop_proxy h c w n))))) as Hstop.
  { rewrite (proj1 (stop_proxy_frame h c w n)). now apply registry_ok_status. }
  split; [| split; [| split; [exact Hstart | split; [| split]]]].
  - destruct (add_proxy_registry h c w local_port remote_port protocol)
      as [[_ ->] | (_ & Hmem & ->)]; [exact Hok |].
    exact (registry_ok_add (proxies c)
             (mkProxy _ local_port _ protocol "127.0.0.1" STOPPED (time_now h))
             Hok Hmem eq_refl).
  - unfold remove_proxy.
    destruct (Dict.get (proxies c) n) as [p |]; [| exact Hok].
    destruct (status_eqb (status p) RUNNING).
    + destruct (_stop_proxy h c w n) as [[res c1] w1]. cbn in Hstop.
      destruct (_update_config h _ w1) as [ok w2]. cbn.
      now apply registry_ok_del.
    + destruct (_update_config h _ w) as [ok w2]. cbn.
      now apply registry_ok_del.
  - unfold stop_proxy.
    destruct (Dict.get (proxies c) n) as [p |]; [| exact Hok].
    destruct (status_eqb (status p) STOPPED); [exact Hok | exact Hstop].
  - unfold toggle_proxy.
    destruct (Dict.get (proxies c) n) as [p |] eqn:E; [| exact Hok].
    destruct (status_eqb (status p) RUNNING); [| exact Hstart].
    destruct (_stop_proxy h c w n) as [[res c1] w1]. cbn in Hstop.
    now destruct res.
  - unfold stop_all.
    destruct (frpc_process (set_proxies c _)); cbn;
      now apply registry_ok_stop_all.
Qed.

(** The registry after [add_proxy(80)] on a new controller. *)
Lemma operations_keep_the_registry_witness :
  registry_ok
    (proxies
       (snd (fst (add_proxy MiniToml.quiet_host
                    (init "frpc.toml" (Some "/usr/bin/frpc"))
                    (Scenario.disk Scenario.common_doc []) 80 None "tcp")))).
Proof.
  apply (operations_keep_the_registry MiniToml.quiet_host
           (init "frpc.toml" (Some "/usr/bin/frpc"))
           (Scenario.disk Scenario.common_doc []) "tcp_80_to_80" "tcp" 80 None).
  split; [constructor | intros k p []].
Defined.

(** However stopping goes, reconciliation failing, the signal failing
    or the restart failing, a registered rule is [STOPPED] after
    [stop_proxy], and no other rule is touched. *)
Theorem stop_always_leaves_the_rule_stopped (h : Host) (c : Controller)
  (w : World) (n : string) (p : ProxyConfig) :
  Dict.get (proxies c) n = Some p ->
  let c' := snd (fst (stop_proxy h c w n)) in
  get_proxy_status c' n = Some STOPPED
  /\ forall k, k <> n -> Dict.get (proxies c') k = Dict.get (proxies c) k.
Proof.
  intro Hget. cbv zeta. unfold stop_proxy, get_proxy_status. rewrite Hget.
  destruct (status_eqb (status p) STOPPED) eqn:E.
  - cbn. rewrite Hget. cbn. split; [| reflexivity].
    destruct (status p); try discriminate. reflexivity.
  - rewrite (proj1 (stop_proxy_frame h c w n)).
    unfold set_status. rewrite Hget. cbn [proxies set_proxies]. split.
    + now rewrite dict_get_set_same.
    + intros k Hk. now apply dict_get_set_other.
Qed.

(** The running rule is stopped although the file cannot be written. *)
Lemma stop_always_leaves_the_rule_stopped_witness :
  let c := Scenario.controller RUNNING (Some 4242) in
  let w := Scenario.disk Scenario.reconciled_doc [OpenWriteFails] in
  fst (fst (stop_proxy MiniToml.quiet_host c w "tcp_80_to_80")) = false
  /\ get_proxy_status (snd (fst (stop_proxy MiniToml.quiet_host c w "tcp_80_to_80")))
       "tcp_80_to_80" = Some STOPPED.
Proof.
  intros c w. split; [reflexivity |].
  apply (stop_always_leaves_the_rule_stopped MiniToml.quiet_host c w
           "tcp_80_to_80" (Scenario.rule_80 RUNNING)).
  reflexivity.
Defined.

Lemma set_status_static (c : Controller) (n : string) (st : ProxyStatus) :
  static (set_status c n st) = static c.
Proof. unfold set_status. now destruct (Dict.get (proxies c) n). Qed.

Lemma launch_static (h : Host) (c : Controller) (w : World) :
  static (snd (fst (launch h c w))) = static c.
Proof.
  unfold launch, exit_report. destruct (spawn h); [| reflexivity].
  destruct (poll_after_grace h); [| reflexivity].
  now destruct (communicate h).
Qed.

Lemma start_frpc_static (h : Host) (c : Controller) (w : World) :
  static (snd (fst (_start_frpc h c w))) = static c.
Proof.
  unfold _start_frpc.
  destruct (frpc_path c) eqn:Ep; [| reflexivity].
  destruct (file w) as [content |]; [| reflexivity].
  destruct (read_for_start h content) as [d | e]; [| reflexivity].
  destruct (negb (Dict.mem "common" d)); [reflexivity |].
  destruct (verify_run h) as [rc out err | | | | e]; try reflexivity.
  destruct (negb (rc =? 0)); [reflexivity |]. apply launch_static.
Qed.

Lemma reload_static (h : Host) (pid : Z) (c : Controller) (w : World) :
  static (snd (fst (reload h pid c w))) = static c.
Proof.
  assert (static (snd (fst (match restart h pid c w with
                            | Some r => r
                            | None => (false, c, w)
                            end))) = static c) as H.
  { unfold restart. destruct (terminate_raises h); [reflexivity |].
    pose proof (start_frpc_static h (set_process c None)
                  (emit w (EvTerminate pid))) as H.
    destruct (_start_frpc h (set_process c None) (emit w (EvTerminate pid)))
      as [[res c'] w'].
    exact H. }
  unfold reload. destruct (win32 h); [exact H |].
  destruct (signal_raises h); [exact H | reflexivity].
Qed.

Lemma stop_proxy_static (h : Host) (c : Controller) (w : World) (n : string) :
  static (snd (fst (_stop_proxy h c w n))) = static c.
Proof.
  unfold _stop_proxy.
  destruct (_update_config h (set_status c n STOPPED) w) as [ok w1].
  destruct ok; [| apply set_status_static].
  destruct (frpc_process (set_status c n STOPPED)) as [pid |];
    [| apply set_status_static].
  rewrite reload_static. apply set_status_static.
Qed.

Lemma start_proxy_static (h : Host) (c : Controller) (w : World) (n : string) :
  static (snd (fst (start_proxy h c w n))) = static c.
Proof.
  unfold start_proxy.
  destruct (Dict.get (proxies c) n) as [p |]; [| reflexivity].
  destruct (status_eqb (status p) RUNNING); [reflexivity |].
  destruct (negb (frpc_available c)); [reflexivity |].
  destruct (test_frpc_version h c w) as [[vok vmsg] w1].
  destruct (negb vok); [reflexivity |].
  destruct (print_error h); [apply set_status_static |].
  match goal with
  | |- context [if ?b then _start_frpc h c w1 else _] => destruct b
  end.
  - pose proof (start_frpc_static h c w1) as H.
    destruct (_start_frpc h c w1) as [[[ok msg] c1] w2]. cbn in H.
    destruct ok; cbn; [| exact H]. now rewrite set_status_static.
  - cbn. apply set_status_static.
Qed.

(** The binary is located once, by the constructor: no operation
    changes the path of the binary, whether it counts as available, or
    the path of the config file. *)
Theorem binary_is_located_once (h : Host) (c : Controller) (w : World)
  (n protocol : string) (local_port : Z) (remote_port : option Z) :
  static (snd (fst (add_proxy h c w local_port remote_port protocol))) = static c
  /\ static (snd (fst (remove_proxy h c w n))) = static c
  /\ static (snd (fst (start_proxy h c w n))) = static c
  /\ static (snd (fst (stop_proxy h c w n))) = static c
  /\ static (snd (fst (toggle_proxy h c w n))) = static c
  /\ static (fst (stop_all h c w)) = static c.
Proof.
  split; [| split; [| split; [apply start_proxy_static | split; [| split]]]].
  - unfold add_proxy. destruct (negb (frpc_available c)); [reflexivity |].
    match goal with
    | |- context [if Dict.mem ?k ?d then _ else _] => destruct (Dict.mem k d)
    end; [reflexivity |].
    destruct (_update_config h _ w) as [ok w']. now destruct ok.
  - unfold remove_proxy.
    destruct (Dict.get (proxies c) n) as [p |]; [| reflexivity].
    destruct (status_eqb (status p) RUNNING).
    + pose proof (stop_proxy_static h c w n) as H.
      destruct (_stop_proxy h c w n) as [[res c1] w1]. cbn in H.
      destruct (_update_config h _ w1) as [ok w2]. exact H.
    + now destruct (_update_config h _ w) as [ok w2].
  - unfold stop_proxy.
    destruct (Dict.get (proxies c) n) as [p |]; [| reflexivity].
    destruct (status_eqb (status p) STOPPED);
      [reflexivity | apply stop_proxy_static].
  - unfold toggle_proxy.
    destruct (Dict.get (proxies c) n) as [p |]; [| reflexivity].
    destruct (status_eqb (status p) RUNNING); [| apply start_proxy_static].
    pose proof (stop_proxy_static h c w n) as H.
    destruct (_stop_proxy h c w n) as [[res c1] w1]. cbn in H.
    now destruct res.
  - unfold stop_all. now destruct (frpc_process (set_proxies c _)).
Qed.

End ControllerInvariants.

(* ----------------------------------------------------------------- *)
(** ** The external process, event by event *)

Section ProcessEvents.

Import Frpc.

Lemma update_config_trace (h : Host) (c : Controller) (w : World) :
  trace (snd (_update_config h c w)) = trace w.
Proof.
  unfold _update_config, next_fault.
  destruct (faults w) as [| fault rest]; cbn [fst snd].
  - destruct (load_existing h NoFault w); reflexivity.
  - destruct fault; try reflexivity;
      match goal with
      | |- context [load_existing ?a ?b ?c] => destruct (load_existing a b c)
      end; reflexivity.
Qed.

Lemma launch_tally (h : Host) (c : Controller) (w : World) :
  let '(s, t, g) := tally w in
  let '(s', t', g') := tally (snd (launch h c w)) in
  (s <= s' <= S s)%nat /\ t' = t /\ g' = g.
Proof.
  unfold tally, launch, exit_report, count.
  destruct (spawn h) as [pid | e]; cbn; [| lia].
  destruct (poll_after_grace h); cbn; [| lia].
  destruct (communicate h); cbn; lia.
Qed.

Lemma start_frpc_tally (h : Host) (c : Controller) (w : World) :
  let '(s, t, g) := tally w in
  let '(s', t', g') := tally (snd (_start_frpc h c w)) in
  (s <= s' <= S s)%nat /\ t' = t /\ g' = g.
Proof.
  unfold _start_frpc.
  destruct (frpc_path c); [| unfold tally; cbn; lia].
  destruct (file w) as [content |]; [| unfold tally; cbn; lia].
  destruct (read_for_start h content) as [d | e]; [| unfold tally; cbn; lia].
  destruct (negb (Dict.mem "common" d)); [unfold tally; cbn; lia |].
  destruct (verify_run h) as [rc out err | | | | e];
    try (unfold tally, count; cbn; lia).
  destruct (negb (rc =? 0)); [unfold tally, count; cbn; lia |].
  pose proof (launch_tally h c (emit w (EvVerify content))) as H.
  unfold tally, count in *. cbn in H. exact H.
Qed.

Lemma reload_tally (h : Host) (pid : Z) (c : Controller) (w : World) :
  let '(s, t, g) := tally w in
  let '(s', t', g') := tally (snd (reload h pid c w)) in
  (s <= s' <= S s)%nat /\ (t <= t' <= S t)%nat /\ (g <= g' <= S g)%nat
  /\ (s' + t <= s + t')%nat
  /\ (g' + t' <= S (g + t))%nat
  /\ (win32 h = false -> signal_raises h = false ->
      s' = s /\ t' = t /\ g' = S g).
Proof.
  assert (let '(s, t, g) := tally w in
          let '(s', t', g') :=
            tally (snd (match restart h pid c w with
                        | Some r => r
                        | None => (false, c, w)
                        end)) in
          (s <= s' <= S s)%nat /\ t' = (if terminate_raises h then t else S t)
          /\ g' = g /\ (terminate_raises h = true -> s' = s)) as Hrestart.
  { unfold restart. destruct (terminate_raises h).
    - unfold tally. cbn. repeat split; lia.
    - pose proof (start_frpc_tally h (set_process c None)
                    (emit w (EvTerminate pid))) as H.
      destruct (_start_frpc h (set_process c None) (emit w (EvTerminate pid)))
        as [[res c'] w'].
      unfold tally, count in *. cbn in *.
      repeat split; first [lia | discriminate]. }
  unfold reload.
  destruct (win32 h); [| destruct (signal_raises h)].
  - unfold tally in *.
    destruct (terminate_raises h); repeat split; try lia; discriminate.
  - unfold tally in *.
    destruct (terminate_raises h); repeat split; try lia; discriminate.
  - unfold tally, count. cbn. repeat split; lia.
Qed.

Lemma stop_proxy_tally (h : Host) (c : Controller) (w : World)
  (n : string) :
  let '(s, t, g) := tally w in
  let '(s', t', g') := tally (snd (stop_proxy h c w n)) in
  (s <= s' <= S s)%nat /\ (t <= t' <= S t)%nat /\ (g <= g' <= S g)%nat
  /\ (s' + t <= s + t')%nat
  /\ (g' + t' <= S (g + t))%nat
  /\ (win32 h = false -> signal_raises h = false -> s' = s /\ t' = t)
  /\ (frpc_process c = None -> s' = s /\ t' = t /\ g' = g).
Proof.
  assert (forall w0 : World,
             trace w0 = trace w ->
             let '(s, t, g) := tally w in
             let '(s', t', g') := tally w0 in
             (s <= s' <= S s)%nat /\ (t <= t' <= S t)%nat /\ (g <= g' <= S g)%nat
             /\ (s' + t <= s + t')%nat /\ (g' + t' <= S (g + t))%nat
             /\ (win32 h = false -> signal_raises h = false -> s' = s /\ t' = t)
             /\ (frpc_process c = None -> s' = s /\ t' = t /\ g' = g)) as Hsame.
  { intros w0 E. unfold tally. rewrite E. repeat split; lia. }
  unfold stop_proxy.
  destruct (Dict.get (proxies c) n) as [p |]; [| now apply Hsame].
  destruct (status_eqb (status p) STOPPED); [now apply Hsame |].
  unfold _stop_proxy.
  pose proof (update_config_trace h (set_status c n STOPPED) w) as Htr.
  destruct (_update_config h (set_status c n STOPPED) w) as [ok w1].
  cbn [snd] in Htr.
  destruct ok; [| now apply Hsame].
  assert (frpc_process (set_status c n STOPPED) = frpc_process c) as Hproc.
  { unfold set_status. now destruct (Dict.get (proxies c) n). }
  rewrite Hproc.
  destruct (frpc_process c) as [pid |]; [| now apply Hsame].
  pose proof (reload_tally h pid (set_status c n STOPPED) w1) as H.
  unfold tally in *. rewrite Htr in H.
  destruct H as (H1 & H2 & H3 & H4 & H5 & H6).
  split; [exact H1 | split; [exact H2 | split; [exact H3 |
    split; [exact H4 | split; [exact H5 | split]]]]].
  - intros Hw Hs. destruct (H6 Hw Hs) as (? & ? & ?). now split.
  - discriminate.
Qed.

(** Stopping a rule makes at most one attempt to reload the process,
    and at most one to replace it: at most one signal or one
    termination, never both; a new process only after the old one was
    terminated, and at most one.  Where the signal works the process is
    neither terminated nor replaced; and with no process there is
    nothing to reload. *)
Theorem stop_reloads_at_most_once (h : Host) (c : Controller) (w : World)
  (n : string) :
  let w' := snd (stop_proxy h c w n) in
  (spawns w <= spawns w' <= S (spawns w))%nat
  /\ (terminations w <= terminations w' <= S (terminations w))%nat
  /\ (signals w <= signals w' <= S (signals w))%nat
  /\ (signals w' + terminations w' <= S (signals w + terminations w))%nat
  /\ (spawns w' + terminations w <= spawns w + terminations w')%nat
  /\ (win32 h = false -> signal_raises h = false ->
      spawns w' = spawns w /\ terminations w' = terminations w)
  /\ (frpc_process c = None ->
      spawns w' = spawns w /\ terminations w' = terminations w
      /\ signals w' = signals w).
Proof.
  cbv zeta. pose proof (stop_proxy_tally h c w n) as H.
  unfold tally in H. unfold spawns, terminations, signals.
  destruct H as (H1 & H2 & H3 & H4 & H5 & H6 & H7).
  repeat split; try lia; try (now apply H6); try (now apply H7).
Qed.

(** Stopping the running rule on a host without a reload signal
    (Windows): the process is terminated once and replaced once. *)
Lemma stop_reloads_at_most_once_witness :
  let h :=
    mkHost true 0 MiniToml.load MiniToml.dump_edited
      (Completed 0 "frpc version 0.51.3" "") (Completed 0 "" "")
      (Ok 4243) None None (CommOutput "") None false false false None in
  let c := Scenario.controller RUNNING (Some 4242) in
  let w := Scenario.disk Scenario.reconciled_doc [] in
  let w' := snd (stop_proxy h c w "tcp_80_to_80") in
  (spawns w' + terminations w <= spawns w + terminations w')%nat
  /\ trace w'
     = [EvReader 4243; EvSpawn 4243;
        EvVerify (MiniToml.dump Scenario.reconciled_doc); EvTerminate 4242].
Proof.
  intros h c w w'. split.
  - apply (stop_reloads_at_most_once h c w "tcp_80_to_80").
  - reflexivity.
Defined.

Lemma version_tally (h : Host) (c : Controller) (w : World) :
  tally (snd (test_frpc_version h c w)) = tally w.
Proof.
  unfold test_frpc_version. destruct (frpc_path c); [| reflexivity].
  destruct (version_run h) as [rc out err | | | | e]; try reflexivity.
  now destruct (rc =? 0).
Qed.

Lemma version_ok (h : Host) (c : Controller) (w : World) :
  fst (fst (test_frpc_version h c w)) = true ->
  frpc_path c <> None /\ exists out err, version_run h = Completed 0 out err.
Proof.
  unfold test_frpc_version. destruct (frpc_path c); [| discriminate].
  destruct (version_run h) as [rc out err | | | | e]; try discriminate.
  destruct (Z.eqb_spec rc 0) as [-> | _]; [| discriminate].
  intros _. split; [discriminate | now exists out, err].
Qed.

Lemma launch_ok (h : Host) (c : Controller) (w : World) :
  fst (fst (fst (launch h c w))) = true ->
  frpc_process (snd (fst (launch h c w))) <> None.
Proof.
  unfold launch, exit_report. destruct (spawn h); [| discriminate].
  destruct (poll_after_grace h); [| discriminate].
  destruct (communicate h); discriminate.
Qed.

Lemma start_frpc_ok (h : Host) (c : Controller) (w : World) :
  fst (fst (fst (_start_frpc h c w))) = true ->
  frpc_process (snd (fst (_start_frpc h c w))) <> None.
Proof.
  unfold _start_frpc.
  destruct (frpc_path c); [| discriminate].
  destruct (file w) as [content |]; [| discriminate].
  destruct (read_for_start h content) as [d | e]; [| discriminate].
  destruct (negb (Dict.mem "common" d)); [discriminate |].
  destruct (verify_run h) as [rc out err | | | | e]; try discriminate.
  destruct (negb (rc =? 0)); [discriminate |]. apply launch_ok.
Qed.

Lemma set_status_process (c : Controller) (n : string) (st : ProxyStatus) :
  frpc_process (set_status c n st) = frpc_process c.
Proof. unfold set_status. now destruct (Dict.get (proxies c) n). Qed.

(** Starting a registered rule that is not running.  When it reports
    success the rule is [RUNNING], the controller holds a process
    handle, and the binary was found and answered [-v] with exit code
    0.  When it reports failure the rule has the status it had, or
    [ERROR] when an exception escaped.  Either way it has spawned at
    most one process, terminated and signalled none; and when the
    process held is alive it has spawned none and holds it still. *)
Theorem start_proxy_outcome (h : Host) (c : Controller) (w : World)
  (n : string) (p : ProxyConfig) :
  Dict.get (proxies c) n = Some p ->
  status p <> RUNNING ->
  let r := start_proxy h c w n in
  let c' := snd (fst r) in
  let w' := snd r in
  (fst (fst (fst r)) = true ->
   get_proxy_status c' n = Some RUNNING
   /\ frpc_process c' <> None
   /\ frpc_available c = true
   /\ exists out err, version_run h = Completed 0 out err)
  /\ (fst (fst (fst r)) = false ->
      get_proxy_status c' n = Some (status p)
      \/ (print_error h <> None /\ get_proxy_status c' n = Some ERROR))
  /\ (spawns w <= spawns w' <= S (spawns w))%nat
  /\ terminations w' = terminations w
  /\ signals w' = signals w
  /\ (forall pid, frpc_process c = Some pid -> poll_now h = None ->
      spawns w' = spawns w /\ frpc_process c' = Some pid).
Proof.
  intros Hget Hst. cbv zeta.
  assert (forall st, get_proxy_status (set_status c n st) n = Some st) as Hset.
  { intro st. unfold get_proxy_status, set_status. rewrite Hget.
    cbn [proxies set_proxies]. now rewrite dict_get_set_same. }
  assert (get_proxy_status c n = Some (status p)) as Hsame
    by (unfold get_proxy_status; now rewrite Hget).
  unfold start_proxy. rewrite Hget.
  destruct (status_eqb (status p) RUNNING) eqn:Er;
    [destruct (status p); try discriminate; now elim Hst |].
  destruct (frpc_available c) eqn:Ea; cbn [negb].
  2:{ cbn. repeat split; try discriminate; try lia; auto;
        try (intros pid Hp _; exact Hp). }
  pose proof (version_tally h c w) as Hvt.
  pose proof (version_ok h c w) as Hvok.
  destruct (test_frpc_version h c w) as [[vok vmsg] w1]. cbn [fst snd] in *.
  unfold tally in Hvt. injection Hvt as Hv1 Hv2 Hv3.
  unfold spawns, terminations, signals.
  destruct vok; cbn [negb].
  2:{ cbn. rewrite Hv1, Hv2, Hv3.
      repeat split; try discriminate; try lia; auto;
        try (intros pid Hp _; exact Hp). }
  destruct (Hvok eq_refl) as [_ Hrun].
  destruct (print_error h) as [e |] eqn:Epr.
  { cbn. rewrite Hv1, Hv2, Hv3, Hset, set_status_process.
    repeat split; try discriminate; try lia; try assumption.
    intros _. right. split; [discriminate | reflexivity]. }
  destruct (frpc_process c) as [pid0 |] eqn:Eproc.
  - destruct (poll_now h) as [rc |] eqn:Epoll.
    + pose proof (start_frpc_tally h c w1) as Ht.
      pose proof (start_frpc_ok h c w1) as Hok.
      pose proof (start_frpc_frame h c w1) as [Hfp _].
      destruct (_start_frpc h c w1) as [[[ok msg] c1] w2].
      unfold tally in Ht. cbn [fst snd] in *.
      destruct Ht as (Ht1 & Ht2 & Ht3).
      destruct ok; cbn [negb fst snd].
      * unfold get_proxy_status.
        rewrite (set_status_proxies c1 c n RUNNING Hfp).
        fold (get_proxy_status (set_status c n RUNNING) n).
        rewrite Hset, set_status_process.
        repeat split; try discriminate; try lia; auto.
      * unfold get_proxy_status. rewrite Hfp.
        fold (get_proxy_status c n). rewrite Hsame.
        repeat split; try discriminate; try lia; auto.
    + cbn. rewrite Hv1, Hv2, Hv3, Hset, set_status_process, Eproc.
      repeat split; try discriminate; try lia; auto;
        try (intros pid [= <-] _; reflexivity).
  - pose proof (start_frpc_tally h c w1) as Ht.
    pose proof (start_frpc_ok h c w1) as Hok.
    pose proof (start_frpc_frame h c w1) as [Hfp _].
    destruct (_start_frpc h c w1) as [[[ok msg] c1] w2].
    unfold tally in Ht. cbn [fst snd] in *.
    destruct Ht as (Ht1 & Ht2 & Ht3).
    destruct ok; cbn [negb fst snd].
    + unfold get_proxy_status.
      rewrite (set_status_proxies c1 c n RUNNING Hfp).
      fold (get_proxy_status (set_status c n RUNNING) n).
      rewrite Hset, set_status_process.
      repeat split; try discriminate; try lia; auto.
    + unfold get_proxy_status. rewrite Hfp.
      fold (get_proxy_status c n). rewrite Hsame.
      repeat split; try discriminate; try lia; auto.
Qed.

(** Starting the stopped rule while the process of another start is
    alive: the rule runs in the process held, none is spawned. *)
Lemma start_proxy_outcome_witness :
  let c := Scenario.controller STOPPED (Some 4242) in
  let w := Scenario.disk Scenario.reconciled_doc [] in
  let r := start_proxy MiniToml.quiet_host c w "tcp_80_to_80" in
  get_proxy_status (snd (fst r)) "tcp_80_to_80" = Some RUNNING
  /\ spawns (snd r) = spawns w
  /\ frpc_process (snd (fst r)) = Some 4242.
Proof.
  intros c w r.
  destruct (start_proxy_outcome MiniToml.quiet_host c w "tcp_80_to_80"
              (Scenario.rule_80 STOPPED) eq_refl)
    as (Hok & _ & _ & _ & _ & Halive).
  - discriminate.
  - split; [apply Hok; reflexivity |].
    apply (Halive 4242); reflexivity.
Defined.

Lemma dict_get_map {V W : Type} (f : V -> W) (d : Dict.t V) (k : string) :
  Dict.get (map (fun kv => (fst kv, f (snd kv))) d) k
  = option_map f (Dict.get d k).
Proof.
  induction d as [| [k' v] r IH]; cbn; [reflexivity |].
  now destruct (String.eqb k k').
Qed.

(** Bring-up on a sound host with a config file that holds the
    connection section. *)
Lemma start_frpc_healthy (h : Host) (c : Controller) (w : World)
  (path content : string) (d : Document) (pid : Z) :
  frpc_path c = Some path ->
  healthy h pid ->
  file w = Some content ->
  toml_load h content = Ok d ->
  Dict.mem "common" d = true ->
  _start_frpc h c w
  = ((true, msg_frpc_started), set_process c (Some pid),
     emit (emit (emit w (EvVerify content)) (EvSpawn pid)) (EvReader pid)).
Proof.
  intros Hpath (_ & (out & err & Hver) & Hsp & Hpoll & Hread & _) Hf Hload Hc.
  unfold _start_frpc, read_for_start, launch.
  now rewrite Hpath, Hf, Hread, Hload, Hc, Hver, Hsp, Hpoll.
Qed.

(** After [stop_all], on a sound host with a config file that holds the
    connection section, starting a registered rule succeeds: the rule
    is [RUNNING] in the one process spawned for it, after one probe and
    one verification. *)
Theorem start_after_stop_all (h0 h : Host) (c : Controller) (w : World)
  (n path content : string) (p : ProxyConfig) (d : Document) (pid : Z) :
  Dict.get (proxies c) n = Some p ->
  frpc_available c = true ->
  frpc_path c = Some path ->
  healthy h pid ->
  file w = Some content ->
  toml_load h content = Ok d ->
  Dict.mem "common" d = true ->
  let c1 := fst (stop_all h0 c w) in
  let w1 := snd (stop_all h0 c w) in
  let r := start_proxy h c1 w1 n in
  fst (fst (fst r)) = true
  /\ get_proxy_status (snd (fst r)) n = Some RUNNING
  /\ frpc_process (snd (fst r)) = Some pid
  /\ trace (snd r)
     = ([EvReader pid; EvSpawn pid; EvVerify content; EvVersion] ++ trace w1)%list
  /\ spawns (snd r) = S (spawns w1).
Proof.
  intros Hget Hav Hpath Hh Hf Hload Hc. cbv zeta.
  set (c1 := fst (stop_all h0 c w)). set (w1 := snd (stop_all h0 c w)).
  assert (frpc_process c1 = None /\ frpc_available c1 = true
          /\ frpc_path c1 = Some path /\ file w1 = Some content
          /\ Dict.get (proxies c1) n = Some (with_status p STOPPED))
    as (Hp1 & Ha1 & Hpath1 & Hf1 & Hget1).
  { unfold c1, w1, stop_all. clear c1 w1.
    destruct c as [cpath ps proc fpath fav]. cbn in Hget, Hav, Hpath |- *.
    assert (Dict.get (map (fun kv => (fst kv, with_status (snd kv) STOPPED))
                        ps) n = Some (with_status p STOPPED)) as Hg
      by (rewrite (dict_get_map (fun q => with_status q STOPPED)), Hget;
          reflexivity).
    destruct proc; cbn [fst snd frpc_process frpc_available frpc_path
                          proxies set_process];
      (split; [reflexivity | split; [exact Hav | split; [exact Hpath |
         split; [| exact Hg]]]]);
      try exact Hf.
    destruct (terminate_raises h0); [exact Hf |].
    destruct (wait_times_out h0); exact Hf. }
  destruct Hh as ((vout & verr & Hver) & Hverify & Hsp & Hpoll & Hread & Hprint).
  pose proof (start_frpc_healthy h c1 (emit w1 EvVersion) path content d pid
                Hpath1
                (conj (ex_intro _ vout (ex_intro _ verr Hver))
                   (conj Hverify (conj Hsp (conj Hpoll (conj Hread Hprint)))))
                Hf1 Hload Hc) as Hstart.
  unfold start_proxy, test_frpc_version.
  rewrite Hget1, Ha1, Hpath1, Hver, Hprint, Hp1. cbn [status with_status status_eqb negb Z.eqb].
  rewrite Hstart. cbn [negb fst snd].
  unfold get_proxy_status, set_status. cbn [proxies set_process].
  rewrite Hget1. cbn [proxies set_proxies frpc_process].
  rewrite dict_get_set_same. unfold spawns, count. cbn.
  repeat split.
Qed.

(** The rule of the scenario, stopped by [stop_all] and started again
    on the quiet host. *)
Lemma start_after_stop_all_witness :
  let c := Scenario.controller RUNNING (Some 4000) in
  let w := Scenario.disk Scenario.reconciled_doc [] in
  let c1 := fst (stop_all MiniToml.quiet_host c w) in
  let w1 := snd (stop_all MiniToml.quiet_host c w) in
  let r := start_proxy MiniToml.quiet_host c1 w1 "tcp_80_to_80" in
  fst (fst (fst r)) = true
  /\ get_proxy_status (snd (fst r)) "tcp_80_to_80" = Some RUNNING
  /\ frpc_process (snd (fst r)) = Some 4242
  /\ trace (snd r)
     = ([EvReader 4242; EvSpawn 4242;
         EvVerify (MiniToml.dump Scenario.reconciled_doc); EvVersion]
        ++ trace w1)%list
  /\ spawns (snd r) = S (spawns w1).
Proof.
  intros c w.
  apply (start_after_stop_all MiniToml.quiet_host MiniToml.quiet_host c w
           "tcp_80_to_80" "/usr/bin/frpc"
           (MiniToml.dump Scenario.reconciled_doc)
           (Scenario.rule_80 RUNNING) Scenario.reconciled_doc 4242);
    try reflexivity.
  repeat split; try reflexivity.
  - now exists "frpc version 0.51.3", "".
  - now exists "", "".
Defined.

End ProcessEvents.


(* ----------------------------------------------------------------- *)
(** ** Settings and the server configuration *)

Section SettingsFacts.

Import ConfigManager.

(** The refresh interval is stored clamped to [2, 60]: a value in the
    range is stored as given, a smaller one as 2, a larger one as 60.
    The setter touches no other setting, so it commutes with
    [set_scan_interval], and storing what is stored changes nothing. *)
Theorem ui_refresh_interval_clamped_2_60 (cfg : AppConfig) (i j : Z) :
  let cfg' := set_ui_refresh_interval cfg i in
  2 <= get_ui_refresh_interval cfg' <= 60
  /\ (2 <= i <= 60 -> get_ui_refresh_interval cfg' = i)
  /\ (i < 2 -> get_ui_refresh_interval cfg' = 2)
  /\ (60 < i -> get_ui_refresh_interval cfg' = 60)
  /\ get_scan_interval cfg' = get_scan_interval cfg
  /\ (show_system_ports cfg', auto_start_proxy cfg', minimize_to_tray cfg')
     = (show_system_ports cfg, auto_start_proxy cfg, minimize_to_tray cfg)
  /\ set_scan_interval cfg' j
     = set_ui_refresh_interval (set_scan_interval cfg j) i
  /\ set_ui_refresh_interval cfg' (get_ui_refresh_interval cfg') = cfg'.
Proof.
  cbv zeta.
  unfold set_ui_refresh_interval, set_scan_interval, get_ui_refresh_interval,
    get_scan_interval.
  cbn [ui_refresh_interval scan_interval show_system_ports auto_start_proxy
       minimize_to_tray].
  destruct (Z.ltb_spec i 2) as [Hlo | Hlo].
  - cbn. repeat split; try lia.
  - destruct (Z.gtb_spec i 60) as [Hhi | Hhi].
    + cbn. repeat split; try lia.
    + repeat split; try lia.
      destruct (Z.ltb_spec i 2); [lia |].
      destruct (Z.gtb_spec i 60); [lia | reflexivity].
Qed.

Lemma get_default_set_same {V : Type} (d : Dict.t V) (k : string) (v v0 : V) :
  get_default (Dict.set d k v) k v0 = v.
Proof. unfold get_default. now rewrite dict_get_set_same. Qed.

Lemma get_default_set_other {V : Type} (d : Dict.t V) (k k' : string)
  (v v0 : V) :
  k' <> k -> get_default (Dict.set d k v) k' v0 = get_default d k' v0.
Proof. intro H. unfold get_default. now rewrite dict_get_set_other. Qed.

(** What [save] writes for the settings, [load] reads back: the
    dictionary of [to_dict] has one entry for each setting and gives the
    same settings again.  A file without a key gives the default of that
    setting; a key [load] does not know is ignored; and a value found
    in the file is stored as it is, outside the range of the setter or
    of another type. *)
Theorem app_config_round_trip (cfg : AppConfig) :
  app_from_dict (app_to_dict cfg) = as_loaded cfg
  /\ Dict.wf (app_to_dict cfg)
  /\ app_from_dict Dict.empty = as_loaded default_app_config
  /\ (forall d key v,
        ~ In key (Dict.keys (app_to_dict cfg)) ->
        app_from_dict (Dict.set d key v) = app_from_dict d)
  /\ (forall d v,
        loaded_scan_interval (app_from_dict (Dict.set d "scan_interval" v)) = v
        /\ loaded_ui_refresh_interval
             (app_from_dict (Dict.set d "ui_refresh_interval" v)) = v).
Proof.
  split; [reflexivity |].
  split.
  { unfold Dict.wf. cbn.
    repeat (constructor; [cbn; intuition discriminate |]). constructor. }
  split; [reflexivity |].
  split.
  - intros d key v Hkey. cbn in Hkey. unfold app_from_dict.
    rewrite !get_default_set_other; [reflexivity | | | | |];
      intros <-; apply Hkey; tauto.
  - intros d v. unfold app_from_dict.
    cbn [loaded_scan_interval loaded_ui_refresh_interval].
    now rewrite !get_default_set_same.
Qed.

(** [to_dict] shows no secret.  Under the key of the token it holds the
    placeholder only; it has no entry outside the address, the port,
    the kind of authentication, the placeholder, the client id and the
    issuer; and it is the same dictionary whatever the token (set or
    not set alike), the client secret, the token endpoint and the
    encrypted blob are.  A complete configuration with token
    authentication always carries the placeholder. *)
Theorem server_to_dict_shows_no_secret (cfg : ServerConfig) :
  let d := server_to_dict cfg in
  (forall v, Dict.get d "token" = Some v -> v = JStr "[ENCRYPTED]")
  /\ Dict.wf d
  /\ (forall key, In key (Dict.keys d) ->
        In key ["server_addr"; "server_port"; "auth_type"; "token";
                "oidc_client_id"; "oidc_issuer_url"])
  /\ (forall tok secret endpoint blob,
        Py.truthy_str tok = Py.truthy_str (token cfg) ->
        server_to_dict (with_secrets cfg tok secret endpoint blob) = d)
  /\ (is_complete cfg = true -> auth_type cfg = TOKEN ->
      Dict.get d "token" = Some (JStr "[ENCRYPTED]")).
Proof.
  cbv zeta. unfold server_to_dict, is_complete, with_secrets.
  cbn [auth_type token server_addr server_port oidc_client_id oidc_issuer_url].
  destruct (auth_type cfg).
  - destruct (Py.truthy_str (token cfg)) eqn:Et; cbn.
    + split; [intros v [= <-]; reflexivity |].
      split; [repeat (constructor; [cbn; intuition discriminate |]); constructor |].
      split; [intros key; tauto |].
      split; [intros tok _ _ _ ->; reflexivity |].
      reflexivity.
    + split; [discriminate |].
      split; [repeat (constructor; [cbn; intuition discriminate |]); constructor |].
      split; [intros key; tauto |].
      split; [intros tok _ _ _ ->; reflexivity |].
      destruct (negb (Py.truthy_str (server_addr cfg)) || (server_port cfg =? 0));
        discriminate.
  - cbn.
    split; [discriminate |].
    split; [repeat (constructor; [cbn; intuition discriminate |]); constructor |].
    split; [intros key; tauto |].
    split; [reflexivity | discriminate].
  - cbn.
    split; [discriminate |].
    split; [repeat (constructor; [cbn; intuition discriminate |]); constructor |].
    split; [intros key; tauto |].
    split; [reflexivity | discriminate].
Qed.

End SettingsFacts.

(* ----------------------------------------------------------------- *)
(** ** Locating the binary *)

Section LocatorFacts.

Import Frpc.

Lemma truthy_str_nonempty (s : string) :
  Py.truthy_str s = true <-> s <> EmptyString.
Proof. destruct s; cbn; split; congruence. Qed.

Lemma first_existing_none (fs : Files) (paths : list Path) :
  first_existing fs paths = Ok None
  <-> forall q, In q paths -> path_exists fs q = Ok false.
Proof.
  induction paths as [| p rest IH]; cbn.
  - split; [intros _ q [] | reflexivity].
  - destruct (path_exists fs p) as [[|] | e] eqn:E.
    + split; [discriminate |]. intro H. specialize (H p (or_introl eq_refl)).
      congruence.
    + rewrite IH. split.
      * intros H q [<- | Hq]; [exact E | now apply H].
      * intros H q Hq. apply H. now right.
    + split; [discriminate |]. intro H. specialize (H p (or_introl eq_refl)).
      congruence.
Qed.

Lemma first_existing_some (fs : Files) (paths : list Path) (s : string) :
  first_existing fs paths = Ok (Some s) ->
  exists before path after,
    paths = (before ++ path :: after)%list
    /\ path_exists fs path = Ok true
    /\ s = path_str fs path
    /\ forall q, In q before -> path_exists fs q = Ok false.
Proof.
  induction paths as [| p rest IH]; cbn; [discriminate |].
  destruct (path_exists fs p) as [[|] | e] eqn:E; [| | discriminate].
  - intros [= <-]. exists [], p, rest.
    split; [reflexivity | split; [exact E | split; [reflexivity |]]].
    intros q [].
  - intro H. destruct (IH H) as (before & path & after & -> & He & Hs & Hb).
    exists (p :: before), path, after.
    split; [reflexivity | split; [exact He | split; [exact Hs |]]].
    intros q [<- | Hq]; [exact E | now apply Hb].
Qed.

(** The search order of [_find_frpc].  A binary on the PATH is taken
    whatever the directories hold.  A path returned otherwise is the
    first that exists among the program directory, its parent and the
    installation directories of the platform, in that order.  Nothing
    is found exactly when the PATH gives none and none of these
    exists.  The constructor counts the binary as available exactly
    when a path was found, and starts with no rule and no process. *)
Theorem find_frpc_search_order (h : Host) (fs : Files) :
  let candidates := (possible_paths ++ common_paths h)%list in
  (forall s, which_frpc fs = Some s -> s <> EmptyString ->
     _find_frpc h fs = Ok (Some s))
  /\ (forall s, _find_frpc h fs = Ok (Some s) ->
        (which_frpc fs = Some s /\ s <> EmptyString)
        \/ ((forall s', which_frpc fs = Some s' -> s' = EmptyString)
            /\ exists before path after,
                 candidates = (before ++ path :: after)%list
                 /\ path_exists fs path = Ok true
                 /\ s = path_str fs path
                 /\ forall q, In q before -> path_exists fs q = Ok false))
  /\ (_find_frpc h fs = Ok None
      <-> (forall s, which_frpc fs = Some s -> s = EmptyString)
          /\ home_error fs = None
          /\ forall q, In q candidates -> path_exists fs q = Ok false)
  /\ (forall config_path c, __init__ h fs config_path = Ok c ->
        _find_frpc h fs = Ok (frpc_path c)
        /\ (frpc_available c = true <-> frpc_path c <> None)
        /\ proxies c = Dict.empty
        /\ frpc_process c = None).
Proof.
  cbv zeta. unfold _find_frpc.
  split; [| split; [| split]].
  - intros s -> Hs. apply truthy_str_nonempty in Hs. now rewrite Hs.
  - intros s.
    destruct (which_frpc fs) as [p |] eqn:Ew.
    + destruct (Py.truthy_str p) eqn:Et.
      * intros [= <-]. left. split; [reflexivity |].
        now apply truthy_str_nonempty.
      * assert (forall s', Some p = Some s' -> s' = EmptyString) as Hnone
          by (intros s' [= <-]; destruct p; [reflexivity | discriminate]).
        destruct (first_existing fs possible_paths) as [[path |] | e] eqn:E1;
          [| | discriminate].
        -- intros [= <-]. right. split; [exact Hnone |].
           destruct (first_existing_some fs _ _ E1)
             as (before & q & after & Hl & He & Hs & Hb).
           exists before, q, (after ++ common_paths h)%list.
           rewrite Hl, <- app_assoc. now repeat split.
        -- destruct (home_error fs); [discriminate |].
           intro E2. right. split; [exact Hnone |].
           destruct (first_existing_some fs _ _ E2)
             as (before & q & after & Hl & He & Hs & Hb).
           exists (possible_paths ++ before)%list, q, after.
           rewrite Hl, <- app_assoc.
           split; [reflexivity | split; [exact He | split; [exact Hs |]]].
           intros q' Hq. apply in_app_or in Hq. destruct Hq as [Hq | Hq].
           ++ now apply (proj1 (first_existing_none fs possible_paths) E1).
           ++ now apply Hb.
    + assert (forall s', @None string = Some s' -> s' = EmptyString) as Hnone
        by discriminate.
      destruct (first_existing fs possible_paths) as [[path |] | e] eqn:E1;
        [| | discriminate].
      * intros [= <-]. right. split; [exact Hnone |].
        destruct (first_existing_some fs _ _ E1)
          as (before & q & after & Hl & He & Hs & Hb).
        exists before, q, (after ++ common_paths h)%list.
        rewrite Hl, <- app_assoc. now repeat split.
      * destruct (home_error fs); [discriminate |].
        intro E2. right. split; [exact Hnone |].
        destruct (first_existing_some fs _ _ E2)
          as (before & q & after & Hl & He & Hs & Hb).
        exists (possible_paths ++ before)%list, q, after.
        rewrite Hl, <- app_assoc.
        split; [reflexivity | split; [exact He | split; [exact Hs |]]].
        intros q' Hq. apply in_app_or in Hq. destruct Hq as [Hq | Hq].
        -- now apply (proj1 (first_existing_none fs possible_paths) E1).
        -- now apply Hb.
  - assert ((match which_frpc fs with
             | Some p => if Py.truthy_str p then Some p else None
             | None => None
             end = None)
            <-> forall s, which_frpc fs = Some s -> s = EmptyString) as Hw.
    { destruct (which_frpc fs) as [p |].
      - destruct p; cbn; split; try discriminate; try reflexivity.
        + intros _ s [= <-]. reflexivity.
        + intro H. specialize (H _ eq_refl). discriminate.
      - split; [discriminate | reflexivity]. }
    destruct (match which_frpc fs with
              | Some p => if Py.truthy_str p then Some p else None
              | None => None
              end) as [p |].
    + split; [discriminate |]. intros (H & _). apply Hw in H. discriminate.
    + destruct (first_existing fs possible_paths) as [[path |] | e] eqn:E1.
      * split; [discriminate |]. intros (_ & _ & H).
        assert (first_existing fs possible_paths = Ok None) as E
          by (apply first_existing_none; intros q Hq; apply H, in_or_app;
              now left).
        congruence.
      * destruct (home_error fs) as [e |].
        -- split; [discriminate |]. intros (_ & H & _). discriminate.
        -- rewrite first_existing_none. split.
           ++ intro H. split; [now apply Hw | split; [reflexivity |]].
              intros q Hq. apply in_app_or in Hq. destruct Hq as [Hq | Hq].
              ** now apply (proj1 (first_existing_none fs possible_paths) E1).
              ** now apply H.
           ++ intros (_ & _ & H) q Hq. apply H, in_or_app. now right.
      * split; [discriminate |]. intros (_ & _ & H).
        assert (first_existing fs possible_paths = Ok None) as E
          by (apply first_existing_none; intros q Hq; apply H, in_or_app;
              now left).
        congruence.
  - intros config_path c. unfold __init__, _find_frpc.
    match goal with
    | |- match ?x with _ => _ end = _ -> _ => destruct x as [found | e]
    end; [| discriminate].
    intros [= <-]. unfold init. cbn.
    split; [reflexivity |].
    split; [| now split].
    destruct found; split; congruence.
Qed.

End LocatorFacts.

(* ----------------------------------------------------------------- *)
(** ** A controller without a binary *)

Section BinaryAbsent.

Import Frpc.

Lemma stop_proxy_idle (h : Host) (c : Controller) (w : World) (n : string) :
  frpc_process c = None ->
  trace (snd (_stop_proxy h c w n)) = trace w
  /\ frpc_process (snd (fst (_stop_proxy h c w n))) = None.
Proof.
  intro Hp. unfold _stop_proxy.
  pose proof (update_config_trace h (set_status c n STOPPED) w) as Ht.
  destruct (_update_config h (set_status c n STOPPED) w) as [ok w1].
  cbn [snd] in Ht.
  rewrite set_status_process, Hp.
  destruct ok; cbn [fst snd]; now rewrite set_status_process.
Qed.

(** A controller for which [_find_frpc] found nothing never touches a
    process.  [add_proxy] refuses and [start_proxy] changes nothing,
    succeeding only for a rule already marked running; and whatever
    [remove_proxy], [stop_proxy], [toggle_proxy] and [stop_all] do to
    the registry and the file, they run, signal and terminate nothing
    and leave the controller without a process. *)
Theorem without_binary_nothing_runs (h : Host) (c : Controller) (w : World)
  (n protocol : string) (local_port : Z) (remote_port : option Z) :
  frpc_path c = None ->
  frpc_available c = false ->
  frpc_process c = None ->
  add_proxy h c w local_port remote_port protocol
  = ((false, msg_add_unavailable), c, w)
  /\ (snd (fst (start_proxy h c w n)) = c /\ snd (start_proxy h c w n) = w
      /\ (fst (fst (fst (start_proxy h c w n))) = true ->
          get_proxy_status c n = Some RUNNING))
  /\ (trace (snd (remove_proxy h c w n)) = trace w
      /\ frpc_process (snd (fst (remove_proxy h c w n))) = None)
  /\ (trace (snd (stop_proxy h c w n)) = trace w
      /\ frpc_process (snd (fst (stop_proxy h c w n))) = None)
  /\ (trace (snd (toggle_proxy h c w n)) = trace w
      /\ frpc_process (snd (fst (toggle_proxy h c w n))) = None)
  /\ (trace (snd (stop_all h c w)) = trace w
      /\ frpc_process (fst (stop_all h c w)) = None).
Proof.
  intros Hpath Hav Hproc.
  pose proof (stop_proxy_idle h c w n Hproc) as [Hst Hsp].
  assert (snd (fst (start_proxy h c w n)) = c /\ snd (start_proxy h c w n) = w
          /\ (fst (fst (fst (start_proxy h c w n))) = true ->
              get_proxy_status c n = Some RUNNING)) as Hstart.
  { unfold start_proxy, get_proxy_status.
    destruct (Dict.get (proxies c) n) as [p |];
      [| split; [reflexivity | split; [reflexivity | discriminate]]].
    destruct (status_eqb (status p) RUNNING) eqn:E.
    - split; [reflexivity | split; [reflexivity |]]. intros _. cbn.
      destruct (status p); try discriminate. reflexivity.
    - rewrite Hav. cbn. split; [reflexivity | split; [reflexivity | discriminate]]. }
  split; [| split; [exact Hstart | split; [| split; [| split]]]].
  - unfold add_proxy. now rewrite Hav.
  - unfold remove_proxy.
    destruct (Dict.get (proxies c) n) as [p |]; [| now split].
    destruct (status_eqb (status p) RUNNING).
    + destruct (_stop_proxy h c w n) as [[res c1] w1]. cbn [fst snd] in Hst, Hsp.
      pose proof (update_config_trace h
                    (set_proxies c1 (Dict.del (proxies c1) n)) w1) as Ht.
      destruct (_update_config h (set_proxies c1 (Dict.del (proxies c1) n)) w1)
        as [ok w2].
      cbn [fst snd] in *. split; [congruence | exact Hsp].
    + pose proof (update_config_trace h
                    (set_proxies c (Dict.del (proxies c) n)) w) as Ht.
      destruct (_update_config h (set_proxies c (Dict.del (proxies c) n)) w)
        as [ok w2].
      cbn [fst snd] in *. split; [exact Ht | exact Hproc].
  - unfold stop_proxy.
    destruct (Dict.get (proxies c) n) as [p |]; [| now split].
    destruct (status_eqb (status p) STOPPED); now split.
  - unfold toggle_proxy.
    destruct (Dict.get (proxies c) n) as [p |] eqn:Eg; [| now split].
    destruct (status_eqb (status p) RUNNING).
    + destruct (_stop_proxy h c w n) as [[res c1] w1]. cbn [fst snd] in Hst, Hsp.
      destruct res; cbn [fst snd]; now split.
    + destruct Hstart as (Hc & Hw & _). rewrite Hc, Hw. now split.
  - unfold stop_all.
    destruct (frpc_process (set_proxies c _)) eqn:E;
      [cbn in E; congruence |].
    cbn [fst snd]. split; [reflexivity | exact E].
Qed.

(** The controller the constructor makes when nothing was found,
    asked to add a rule for port 80. *)
Lemma without_binary_nothing_runs_witness :
  add_proxy MiniToml.quiet_host (init "frpc.toml" None)
    (Scenario.disk Scenario.common_doc []) 80 None "tcp"
  = ((false, msg_add_unavailable), init "frpc.toml" None,
     Scenario.disk Scenario.common_doc []).
Proof.
  apply (without_binary_nothing_runs MiniToml.quiet_host (init "frpc.toml" None)
           (Scenario.disk Scenario.common_doc []) "tcp_80_to_80" "tcp" 80 None);
    reflexivity.
Defined.

End BinaryAbsent.

(* ----------------------------------------------------------------- *)
(** ** Looking rules up *)

Section RegistryLookups.

Import Frpc.

Lemma dict_get_app {V : Type} (d e : Dict.t V) (k : string) :
  Dict.get (d ++ e)%list k
  = match Dict.get d k with
    | Some v => Some v
    | None => Dict.get e k
    end.
Proof.
  induction d as [| [k' v] r IH]; cbn; [reflexivity |].
  now destruct (String.eqb k k').
Qed.

Lemma find_append {A : Type} (f : A -> bool) (l l' : list A) :
  find f (l ++ l')%list
  = match find f l with
    | Some x => Some x
    | None => find f l'
    end.
Proof.
  induction l as [| a r IH]; cbn; [reflexivity |]. now destruct (f a).
Qed.

(** What the lookups answer after a successful [add_proxy].  The new
    rule is found by name, stopped, last in the list of all rules and
    not among the active ones.  By local port the rule registered first
    for that port is found: the new rule only if no other rule had the
    port.  Lookups of other names and other ports answer as before. *)
Theorem lookups_after_add (h : Host) (c : Controller) (w : World)
  (local_port : Z) (remote_port : option Z) (protocol : string) :
  let r := add_proxy h c w local_port remote_port protocol in
  let c' := snd (fst r) in
  let remote := match remote_port with Some r => r | None => local_port end in
  let n := proxy_name_of protocol local_port remote in
  let new :=
    mkProxy n local_port remote protocol "127.0.0.1" STOPPED (time_now h) in
  fst (fst (fst r)) = true ->
  get_proxy_status c n = None
  /\ get_proxy_status c' n = Some STOPPED
  /\ get_all_proxies c' = (get_all_proxies c ++ [new])%list
  /\ get_active_proxies c' = get_active_proxies c
  /\ get_proxy_by_local_port c' local_port
     = Some (match get_proxy_by_local_port c local_port with
             | Some first => first
             | None => new
             end)
  /\ (forall m, m <> local_port ->
        get_proxy_by_local_port c' m = get_proxy_by_local_port c m)
  /\ (forall k, k <> n -> get_proxy_status c' k = get_proxy_status c k).
Proof.
  cbv zeta. intro Hok.
  destruct (add_proxy_registry h c w local_port remote_port protocol)
    as [[Hf _] | (_ & Hmem & Hps)]; [congruence |].
  cbv zeta in Hmem, Hps.
  set (remote := match remote_port with Some r => r | None => local_port end)
    in *.
  set (n := proxy_name_of protocol local_port remote) in *.
  unfold get_proxy_status, get_all_proxies, get_active_proxies,
    get_proxy_by_local_port, Dict.values.
  rewrite Hps. unfold Dict.mem in Hmem.
  destruct (Dict.get (proxies c) n) as [q |] eqn:Eq; [discriminate |].
  split; [reflexivity |].
  split; [rewrite dict_get_app, Eq; cbn; now rewrite String.eqb_refl |].
  split; [now rewrite map_app |].
  split; [rewrite map_app, filter_app; cbn; now rewrite app_nil_r |].
  split; [| split].
  - rewrite map_app, find_append. cbn. rewrite Z.eqb_refl.
    now destruct (find _ (map snd (proxies c))).
  - intros m Hm. rewrite map_app, find_append. cbn.
    destruct (Z.eqb_spec local_port m) as [E | _]; [now elim Hm |].
    now destruct (find _ (map snd (proxies c))).
  - intros k Hk. rewrite dict_get_app. cbn.
    destruct (String.eqb_spec k n) as [E | _]; [now elim Hk |].
    now destruct (Dict.get (proxies c) k).
Qed.

(** A second rule for local port 80, to another remote port: looked up
    by the port, the rule registered first is found. *)
Lemma lookups_after_add_witness :
  let c := Scenario.controller STOPPED None in
  let w := Scenario.disk Scenario.common_doc [] in
  let c' := snd (fst (add_proxy MiniToml.quiet_host c w 80 (Some 8080) "tcp")) in
  get_proxy_status c' "tcp_80_to_8080" = Some STOPPED
  /\ get_proxy_by_local_port c' 80 = Some (Scenario.rule_80 STOPPED).
Proof.
  intros c w c'.
  destruct (lookups_after_add MiniToml.quiet_host c w 80 (Some 8080) "tcp")
    as (_ & Hst & _ & _ & Hport & _).
  - reflexivity.
  - split; [exact Hst | exact Hport].
Defined.

End RegistryLookups.

(* ----------------------------------------------------------------- *)
(** ** The output of the process *)

Section OutputReader.

Import Frpc.

(** The calls of the reader, line by line. *)
Lemma read_frpc_output_calls (callback : option (string -> bool))
  (stream : list (option string)) :
  let calls := _read_frpc_output callback stream in
  (exists rest, map Py.strip (lines_read stream) = (calls ++ rest)%list)
  /\ (callback = None -> calls = [])
  /\ (forall call, callback = Some call ->
        (forall line, In line (lines_read stream) ->
           call (Py.strip line) = true) ->
        calls = map Py.strip (lines_read stream))
  /\ (forall call before arg after, callback = Some call ->
        calls = (before ++ arg :: after)%list ->
        call arg = false -> after = [])
  /\ (length calls <= length (lines_read stream) <= length stream)%nat.
Proof.
  cbv zeta. induction stream as [| [line |] rest IH].
  - cbn. split; [now exists [] |]. split; [reflexivity |].
    split; [reflexivity |]. split; [| lia].
    intros call [| ? ?] arg after _ H; discriminate.
  - destruct IH as ((tl & Htl) & Hnone & Hall & Hstop & Hlen).
    cbn [_read_frpc_output lines_read].
    destruct (Py.truthy_str line) eqn:Et.
    2:{ cbn. split; [now exists [] |]. split; [reflexivity |].
        split; [reflexivity |]. split; [| lia].
        intros call [| ? ?] arg after _ H; discriminate. }
    destruct callback as [call |].
    + destruct (call (Py.strip line)) eqn:Ec.
      * split; [exists tl; cbn; now rewrite Htl |].
        split; [discriminate |].
        split; [| split].
        -- intros call' [= <-] H. cbn. f_equal.
           apply (Hall call eq_refl). intros l Hl. apply H. now right.
        -- intros call' [| b before] arg after [= <-] H Harg;
             cbn in H; injection H as <- H; [congruence |].
           now apply (Hstop call before arg after eq_refl H Harg).
        -- cbn. lia.
      * split; [exists (map Py.strip (lines_read rest)); reflexivity |].
        split; [discriminate |].
        split; [| split].
        -- intros call' [= <-] H.
           rewrite (H line (or_introl eq_refl)) in Ec. discriminate.
        -- intros call' [| b [| b' before]] arg after _ H _;
             cbn in H; now injection H.
        -- cbn. lia.
    + split; [| split; [intros _; now apply Hnone |
                        split; [discriminate | split; [discriminate |]]]].
      * rewrite (Hnone eq_refl) in Htl |- *. cbn.
        exists (Py.strip line :: tl). now rewrite Htl.
      * cbn. lia.
  - cbn. split; [now exists [] |]. split; [reflexivity |].
    split; [reflexivity |]. split; [| lia].
    intros call [| ? ?] arg after _ H; discriminate.
Qed.

(** The reader hands the lines of the process to the callback stripped
    and in order, starting with the first, until the stream ends, a
    read raises or the callback raises.  The argument of the call for a
    line is the line without the white space at its two ends, of
    whatever script: what is cut off is white space and what is left
    neither begins nor ends with it.  With a callback that does not
    raise on them every line read is handed over, a blank line as the
    empty string; after a call that raised none follows; and without a
    callback the lines are read and dropped. *)
Theorem reader_forwards_lines_in_order (callback : option (string -> bool))
  (stream : list (option string)) :
  let calls := _read_frpc_output callback stream in
  (exists rest, map Py.strip (lines_read stream) = (calls ++ rest)%list)
  /\ (forall i line arg,
        nth_error (lines_read stream) i = Some line ->
        nth_error calls i = Some arg ->
        arg = Py.strip line
        /\ Py.stripped line arg
        /\ exists lead trail, line = lead ++ arg ++ trail)
  /\ (callback = None -> calls = [])
  /\ (forall call, callback = Some call ->
        (forall line, In line (lines_read stream) ->
           call (Py.strip line) = true) ->
        calls = map Py.strip (lines_read stream))
  /\ (forall call before arg after, callback = Some call ->
        calls = (before ++ arg :: after)%list ->
        call arg = false -> after = [])
  /\ (length calls <= length (lines_read stream) <= length stream)%nat.
Proof.
  cbv zeta.
  destruct (read_frpc_output_calls callback stream)
    as ((rest & Hrest) & Hnone & Hall & Hstop & Hlen).
  split; [now exists rest |].
  split; [| split; [exact Hnone | split; [exact Hall | split; [exact Hstop | exact Hlen]]]].
  intros i line arg Hline Harg.
  assert (arg = Py.strip line) as ->.
  { apply (map_nth_error Py.strip) in Hline. rewrite Hrest in Hline.
    rewrite nth_error_app1 in Hline
      by (apply nth_error_Some; rewrite Harg; discriminate).
    congruence. }
  split; [reflexivity |].
  split; [apply strip_stripped | apply strip_inside].
Qed.

(** Lines set in an ideographic space and in no-break spaces, and a
    blank line: the callback gets the words, and the empty string for
    the blank line. *)
Lemma reader_forwards_lines_in_order_witness :
  _read_frpc_output (Some (fun _ => true))
    [Some (Scenario.wide_space ++ "wide" ++ MiniToml.newline);
     Some (Scenario.no_break_space ++ "nbsp" ++ Scenario.no_break_space
           ++ MiniToml.newline);
     Some MiniToml.newline;
     Some EmptyString;
     Some "never read"]
  = ["wide"; "nbsp"; EmptyString].
Proof.
  destruct (reader_forwards_lines_in_order (Some (fun _ => true))
              [Some (Scenario.wide_space ++ "wide" ++ MiniToml.newline);
               Some (Scenario.no_break_space ++ "nbsp"
                     ++ Scenario.no_break_space ++ MiniToml.newline);
               Some MiniToml.newline;
               Some EmptyString;
               Some "never read"])
    as (_ & _ & _ & Hall & _).
  rewrite (Hall (fun _ => true) eq_refl) by reflexivity.
  reflexivity.
Defined.

End OutputReader.

(* ----------------------------------------------------------------- *)
(** ** Toggling a rule *)

Section ToggleFacts.

Import Frpc.

(** [start_proxy] on a sound host, for a rule that is not running in a
    controller that holds no process. *)
Lemma start_proxy_healthy (h : Host) (c : Controller) (w : World)
  (n path content : string) (p : ProxyConfig) (d : Document) (pid : Z) :
  Dict.get (proxies c) n = Some p ->
  status p <> RUNNING ->
  frpc_available c = true ->
  frpc_path c = Some path ->
  frpc_process c = None ->
  healthy h pid ->
  file w = Some content ->
  toml_load h content = Ok d ->
  Dict.mem "common" d = true ->
  start_proxy h c w n
  = ((true, msg_started n),
     set_status (set_process c (Some pid)) n RUNNING,
     emit (emit (emit (emit w EvVersion) (EvVerify content)) (EvSpawn pid))
       (EvReader pid)).
Proof.
  intros Hget Hst Hav Hpath Hproc Hh Hf Hload Hc.
  pose proof (start_frpc_healthy h c (emit w EvVersion) path content d pid
                Hpath Hh Hf Hload Hc) as Hstart.
  destruct Hh as ((vout & verr & Hver) & _ & _ & _ & _ & Hprint).
  assert (status_eqb (status p) RUNNING = false) as Hs
    by (destruct (status p); try reflexivity; now elim Hst).
  unfold start_proxy, test_frpc_version.
  rewrite Hget, Hs, Hav, Hpath, Hver, Hprint, Hproc.
  cbn [negb Z.eqb]. rewrite Hstart. reflexivity.
Qed.

(** Toggling a rule on and off again, on a sound POSIX host with a
    config file that holds the connection section.  The first call
    starts the rule in a new process; the second stops it, writes the
    regenerated document and signals that process, which is kept.  The
    rule ends stopped, no other rule is touched, and the process was
    spawned once and never terminated. *)
Theorem toggle_twice_stops_again (h : Host) (c : Controller) (w : World)
  (n path content : string) (p : ProxyConfig) (d : Document) (pid : Z) :
  Dict.get (proxies c) n = Some p ->
  status p <> RUNNING ->
  frpc_available c = true ->
  frpc_path c = Some path ->
  frpc_process c = None ->
  healthy h pid ->
  win32 h = false ->
  signal_raises h = false ->
  faults w = [] ->
  file w = Some content ->
  toml_load h content = Ok d ->
  Dict.mem "common" d = true ->
  let r1 := toggle_proxy h c w n in
  let r2 := toggle_proxy h (snd (fst r1)) (snd r1) n in
  fst (fst r1) = (true, msg_started n)
  /\ get_proxy_status (snd (fst r1)) n = Some RUNNING
  /\ fst (fst r2) = (true, msg_stopped n)
  /\ get_proxy_status (snd (fst r2)) n = Some STOPPED
  /\ frpc_process (snd (fst r2)) = Some pid
  /\ trace (snd r2)
     = ([EvSighup pid; EvReader pid; EvSpawn pid; EvVerify content; EvVersion]
        ++ trace w)%list
  /\ file (snd r2)
     = Some (toml_dump h (Some content)
               (reconcile_edits (proxies (snd (fst r2))) d))
  /\ apply_edits (reconcile_edits (proxies (snd (fst r2))) d) d
     = regenerate (proxies (snd (fst r2))) d
  /\ (forall k, k <> n ->
        Dict.get (proxies (snd (fst r2))) k = Dict.get (proxies c) k).
Proof.
  intros Hget Hst Hav Hpath Hproc Hh Hwin Hsig Hfaults Hf Hload Hc. cbv zeta.
  assert (status_eqb (status p) RUNNING = false) as Hs
    by (destruct (status p); try reflexivity; now elim Hst).
  assert (toggle_proxy h c w n = start_proxy h c w n) as E1
    by (unfold toggle_proxy; now rewrite Hget, Hs).
  rewrite E1.
  rewrite (start_proxy_healthy h c w n path content p d pid
             Hget Hst Hav Hpath Hproc Hh Hf Hload Hc).
  cbn [fst snd].
  set (c1 := set_status (set_process c (Some pid)) n RUNNING).
  set (w1 := emit (emit (emit (emit w EvVersion) (EvVerify content))
                     (EvSpawn pid)) (EvReader pid)).
  assert (proxies c1 = Dict.set (proxies c) n (with_status p RUNNING)) as Hp1.
  { unfold c1, set_status. cbn [proxies set_process]. now rewrite Hget. }
  assert (Dict.get (proxies c1) n = Some (with_status p RUNNING)) as Hget1
    by (rewrite Hp1; apply dict_get_set_same).
  assert (frpc_process c1 = Some pid) as Hproc1
    by (unfold c1; now rewrite set_status_process).
  set (c2 := set_status c1 n STOPPED).
  assert (proxies c2
          = Dict.set (proxies c1) n (with_status (with_status p RUNNING) STOPPED))
    as Hp2.
  { unfold c2, set_status. now rewrite Hget1. }
  assert (frpc_process c2 = Some pid) as Hproc2
    by (unfold c2; now rewrite set_status_process).
  assert (_update_config h c2 w1
          = (true,
             set_file w1
               (Some (toml_dump h (Some content)
                        (reconcile_edits (proxies c2) d)))))
    as Hup.
  { rewrite <- Hf. change (file w) with (file w1).
    apply update_config_ok; [exact Hfaults |].
    unfold load_existing. cbn [file w1 emit]. now rewrite Hf, Hload. }
  assert (toggle_proxy h c1 w1 n
          = ((true, msg_stopped n), c2,
             emit (set_file w1
                     (Some (toml_dump h (Some content)
                              (reconcile_edits (proxies c2) d))))
               (EvSighup pid))) as E2.
  { unfold toggle_proxy. rewrite Hget1. cbn [status with_status status_eqb].
    unfold _stop_proxy. fold c2. rewrite Hup, Hproc2.
    unfold reload. now rewrite Hwin, Hsig. }
  rewrite E2. cbn [fst snd].
  split; [reflexivity |].
  split; [unfold get_proxy_status; now rewrite Hget1 |].
  split; [reflexivity |].
  split; [unfold get_proxy_status; rewrite Hp2, dict_get_set_same; reflexivity |].
  split; [exact Hproc2 |].
  split; [reflexivity |].
  split; [reflexivity |].
  split; [apply reconcile_edits_entries |].
  intros k Hk. rewrite Hp2, Hp1.
  rewrite !dict_get_set_other by exact Hk. reflexivity.
Qed.

(** The stopped rule of the scenario, toggled twice on the quiet
    host. *)
Lemma toggle_twice_stops_again_witness :
  let c := Scenario.controller STOPPED None in
  let w := Scenario.disk Scenario.reconciled_doc [] in
  let r1 := toggle_proxy MiniToml.quiet_host c w "tcp_80_to_80" in
  let r2 :=
    toggle_proxy MiniToml.quiet_host (snd (fst r1)) (snd r1) "tcp_80_to_80" in
  get_proxy_status (snd (fst r2)) "tcp_80_to_80" = Some STOPPED
  /\ frpc_process (snd (fst r2)) = Some 4242.
Proof.
  intros c w.
  destruct (toggle_twice_stops_again MiniToml.quiet_host c w "tcp_80_to_80"
              "/usr/bin/frpc" (MiniToml.dump Scenario.reconciled_doc)
              (Scenario.rule_80 STOPPED) Scenario.reconciled_doc 4242)
    as (_ & _ & _ & Hst & Hp & _);
    try reflexivity; try discriminate.
  - repeat split; try reflexivity.
    + now exists "frpc version 0.51.3", "".
    + now exists "", "".
  - split; [exact Hst | exact Hp].
Defined.

End ToggleFacts.

(* ----------------------------------------------------------------- *)
(** ** The registry theorems on the scenario *)

Section RegistryExamples.

Import Frpc.

(** The stopped rule is removed although the file cannot be opened for
    writing. *)
Lemma remove_proxy_never_restores_witness :
  Dict.mem "tcp_80_to_80"
    (proxies
       (snd (fst (remove_proxy MiniToml.quiet_host
                    (Scenario.controller STOPPED None)
                    (Scenario.disk Scenario.reconciled_doc [OpenWriteFails])
                    "tcp_80_to_80"))))
  = false.
Proof.
  apply (remove_proxy_never_restores MiniToml.quiet_host
           (Scenario.controller STOPPED None)
           (Scenario.disk Scenario.reconciled_doc [OpenWriteFails])
           "tcp_80_to_80").
  - constructor; [intros [] | constructor].
  - reflexivity.
Defined.

(** The running rule of the scenario is stopped: the document written
    holds its section. *)
Lemma stop_proxy_writes_the_stopped_rule_witness :
  let c := Scenario.controller RUNNING (Some 4242) in
  let w := Scenario.disk Scenario.reconciled_doc [] in
  let r := stop_proxy MiniToml.quiet_host c w "tcp_80_to_80" in
  let d1 := regenerate (proxies (snd (fst r))) Scenario.reconciled_doc in
  get_proxy_status (snd (fst r)) "tcp_80_to_80" = Some STOPPED
  /\ file (snd r)
     = Some (MiniToml.dump_edited (file w)
               (reconcile_edits (proxies (snd (fst r)))
                  Scenario.reconciled_doc))
  /\ apply_edits
       (reconcile_edits (proxies (snd (fst r))) Scenario.reconciled_doc)
       Scenario.reconciled_doc
     = d1
  /\ Dict.mem "tcp_80_to_80" d1 = true.
Proof.
  intros c w.
  apply (stop_proxy_writes_the_stopped_rule MiniToml.quiet_host c w
           "tcp_80_to_80" (Scenario.rule_80 RUNNING) Scenario.reconciled_doc);
    try reflexivity.
  discriminate.
Defined.

End RegistryExamples.

(* ----------------------------------------------------------------- *)
(** ** The document after the registry changed *)

Section DocumentAfterChange.

Import Frpc.

Lemma dict_get_filter_out {V : Type} (P : string -> bool) (d : Dict.t V)
  (k : string) :
  P k = false -> Dict.get (filter (fun kv => P (fst kv)) d) k = None.
Proof.
  intro Hk. induction d as [| [k' v] r IH]; cbn; [reflexivity |].
  destruct (P k') eqn:E; cbn; [| exact IH].
  destruct (String.eqb_spec k k') as [-> | _]; [congruence | exact IH].
Qed.

(** The entry the regenerated document has under a key that names no
    rule. *)
Lemma regenerate_get_unnamed (ps : Dict.t ProxyConfig) (d : Document)
  (k : string) :
  ~ In k (map name (Dict.values ps)) ->
  Dict.get (regenerate ps d) k
  = if is_generated k then None else Dict.get d k.
Proof.
  intro Hk. unfold regenerate, add_sections.
  rewrite (add_sections_get_other _ _ k Hk), remove_generated_foreign.
  unfold foreign. destruct (is_generated k) eqn:E.
  - apply (dict_get_filter_out (fun k => negb (is_generated k))).
    now rewrite E.
  - apply (dict_get_filter (fun k => negb (is_generated k))).
    now rewrite E.
Qed.

Lemma add_sections_last (l : list ProxyConfig) (p : ProxyConfig)
  (d : Document) :
  Dict.get
    (fold_left (fun d p => Dict.set d (name p) (proxy_section p))
       (l ++ [p])%list d) (name p)
  = Some (proxy_section p).
Proof. rewrite fold_left_app. cbn. apply dict_get_set_same. Qed.

(** Removing a registered rule that is not running, with a config file
    reconciliation can read and write: the call succeeds, the rule is
    gone from the registry and the file holds the regenerated document.
    In it the section of the rule is gone when its name carries a
    generated prefix; under any other name, which [add_proxy] gives to
    a rule of another protocol, the section stays in the file as it
    was. *)
Theorem remove_proxy_rewrites_the_document (h : Host) (c : Controller)
  (w : World) (n : string) (p : ProxyConfig) (d0 : Document) :
  registry_ok (proxies c) ->
  Dict.get (proxies c) n = Some p ->
  status p <> RUNNING ->
  faults w = [] ->
  load_existing h NoFault w = Some d0 ->
  let r := remove_proxy h c w n in
  let d1 := regenerate (proxies (snd (fst r))) d0 in
  fst (fst r) = true
  /\ proxies (snd (fst r)) = Dict.del (proxies c) n
  /\ get_proxy_status (snd (fst r)) n = None
  /\ file (snd r)
     = Some (toml_dump h (file w)
               (reconcile_edits (proxies (snd (fst r))) d0))
  /\ apply_edits (reconcile_edits (proxies (snd (fst r))) d0) d0 = d1
  /\ (is_generated n = true -> Dict.get d1 n = None)
  /\ (is_generated n = false -> Dict.get d1 n = Dict.get d0 n).
Proof.
  intros Hok Hget Hst Hf Hload. cbv zeta.
  assert (status_eqb (status p) RUNNING = false) as Hs
    by (destruct (status p); try reflexivity; now elim Hst).
  unfold remove_proxy. rewrite Hget, Hs.
  rewrite (update_config_ok h _ w d0 Hf Hload).
  cbn [fst snd proxies set_proxies file set_file].
  assert (~ In n (Dict.keys (Dict.del (proxies c) n))) as Hgone
    by (apply dict_del_keys, Hok).
  assert (~ In n (map name (Dict.values (Dict.del (proxies c) n)))) as Hname
    by (rewrite registry_names; [exact Hgone | now apply registry_ok_del]).
  split; [reflexivity |].
  split; [reflexivity |].
  split; [unfold get_proxy_status; cbn [proxies set_proxies];
          now rewrite (proj2 (dict_get_None _ n) Hgone) |].
  split; [reflexivity |].
  split; [apply reconcile_edits_entries |].
  rewrite (regenerate_get_unnamed _ d0 n Hname).
  split; intros ->; reflexivity.
Qed.

(** The stopped rule of the scenario is removed: its section is
    gone. *)
Lemma remove_proxy_rewrites_the_document_witness :
  let c := Scenario.controller STOPPED None in
  let w := Scenario.disk Scenario.reconciled_doc [] in
  let r := remove_proxy MiniToml.quiet_host c w "tcp_80_to_80" in
  fst (fst r) = true
  /\ file (snd r)
     = Some (MiniToml.dump_edited (file w)
               (reconcile_edits (proxies (snd (fst r)))
                  Scenario.reconciled_doc))
  /\ Dict.get (regenerate (proxies (snd (fst r))) Scenario.reconciled_doc)
       "tcp_80_to_80" = None.
Proof.
  intros c w.
  destruct (remove_proxy_rewrites_the_document MiniToml.quiet_host c w
              "tcp_80_to_80" (Scenario.rule_80 STOPPED) Scenario.reconciled_doc)
    as (Hr & _ & _ & Hfile & _ & Hgen & _);
    try reflexivity; try discriminate.
  - split.
    + constructor; [intros [] | constructor].
    + intros k q [[= <- <-] | []]. now split.
  - split; [exact Hr | split; [exact Hfile | apply Hgen; reflexivity]].
Defined.

(** Adding a rule under a new name to a controller that located the
    binary, with a config file reconciliation can read and write: the
    call succeeds, and the file holds the regenerated document, in
    which the section of the new rule gives its protocol, the loopback
    address, the local port and the remote port, the local port again
    when none was given. *)
Theorem add_proxy_writes_the_section (h : Host) (c : Controller) (w : World)
  (local_port : Z) (remote_port : option Z) (protocol : string)
  (d0 : Document) :
  let remote := match remote_port with Some r => r | None => local_port end in
  let n := proxy_name_of protocol local_port remote in
  let r := add_proxy h c w local_port remote_port protocol in
  let d1 := regenerate (proxies (snd (fst r))) d0 in
  frpc_available c = true ->
  get_proxy_status c n = None ->
  faults w = [] ->
  load_existing h NoFault w = Some d0 ->
  fst (fst r) = (true, msg_added n)
  /\ file (snd r)
     = Some (toml_dump h (file w)
               (reconcile_edits (proxies (snd (fst r))) d0))
  /\ apply_edits (reconcile_edits (proxies (snd (fst r))) d0) d0 = d1
  /\ Dict.get d1 n
     = Some (Table [("type", SStr protocol);
                    ("local_ip", SStr "127.0.0.1");
                    ("local_port", SInt local_port);
                    ("remote_port", SInt remote)]).
Proof.
  cbv zeta. intros Hav Hnew Hf Hload.
  set (remote := match remote_port with Some r => r | None => local_port end)
    in *.
  set (n := proxy_name_of protocol local_port remote) in *.
  assert (Dict.get (proxies c) n = None) as Hget.
  { unfold get_proxy_status in Hnew.
    destruct (Dict.get (proxies c) n); [cbn in Hnew; discriminate | reflexivity]. }
  unfold add_proxy. fold remote. fold n.
  unfold Dict.mem. rewrite Hav, Hget. cbn [negb].
  rewrite (update_config_ok h _ w d0 Hf Hload).
  cbn [fst snd proxies set_proxies file set_file].
  split; [reflexivity |]. split; [reflexivity |].
  split; [apply reconcile_edits_entries |].
  rewrite (dict_set_fresh (proxies c) n _ (proj1 (dict_get_None _ n) Hget)).
  unfold regenerate, add_sections, Dict.values. rewrite map_app. cbn [map snd].
  exact (add_sections_last (map snd (proxies c))
           (mkProxy n local_port remote protocol "127.0.0.1" STOPPED (time_now h))
           (remove_generated d0)).
Qed.

(** [add_proxy(8081)] on a new controller whose file holds the
    connection section. *)
Lemma add_proxy_writes_the_section_witness :
  let c := init "frpc.toml" (Some "/usr/bin/frpc") in
  let w := Scenario.disk Scenario.common_doc [] in
  let r := add_proxy MiniToml.quiet_host c w 8081 None "tcp" in
  fst (fst r) = (true, msg_added "tcp_8081_to_8081")
  /\ file (snd r)
     = Some (MiniToml.dump_edited (file w)
               (reconcile_edits (proxies (snd (fst r))) Scenario.common_doc))
  /\ apply_edits (reconcile_edits (proxies (snd (fst r))) Scenario.common_doc)
       Scenario.common_doc
     = regenerate (proxies (snd (fst r))) Scenario.common_doc
  /\ Dict.get (regenerate (proxies (snd (fst r))) Scenario.common_doc)
       "tcp_8081_to_8081"
     = Some (Table [("type", SStr "tcp");
                    ("local_ip", SStr "127.0.0.1");
                    ("local_port", SInt 8081);
                    ("remote_port", SInt 8081)]).
Proof.
  intros c w.
  apply (add_proxy_writes_the_section MiniToml.quiet_host c w 8081 None "tcp"
           Scenario.common_doc);
    reflexivity.
Defined.

End DocumentAfterChange.

(* ----------------------------------------------------------------- *)
(** ** Starting a rule without a binary *)

Section BinaryUnavailable.

Import Frpc.










End BinaryUnavailable.
